(** * Rule 2220005: scanner for obsolete KONV / condition-technique usage

    A shallow embedding of [app/app.py]: the two regular expressions
    [SQL_KONV_RE] and [DECL_KONV_RE], the helpers [get_line_snippet] and
    [make_finding], the per-unit scan [analyze_unit] and the two scanning
    endpoints, followed by the properties of the scanner.

    Modelling choices.
    - A Python [str] is a list of Unicode code points, each a number of
      type [N].  The classes [\s] and [\w], the case folding that [re]
      applies to a [str] pattern under [re.IGNORECASE] and the mapping of
      [str.upper] are those of CPython 3.11 (Unicode 14.0.0), given by the
      tables below.  So the scanned text may hold, for instance, the Kelvin
      sign U+212A, which the patterns read as the letter K and which
      [str.upper] leaves as it is.  Numbers above 1114111 are no
      characters of Python; the tables give them no class and no case.
    - Python [int] is [Z]; offsets into a text are [nat].
    - [str.find] and [str.rfind] return [option nat]; [None] stands for -1.
    - The patterns are values of a small regular-expression syntax and are
      run by a backtracking matcher that lists the reachable end states in
      the order in which [re] tries them; the first one is the match. *)

From Stdlib Require Import List Ascii String NArith ZArith Lia Bool Arith.
From stdpp Require Import gmap strings.
Import ListNotations.

Local Open Scope nat_scope.

(** ** Text *)

(** a character is its code point *)
Abbreviation char := N.

Abbreviation str := (list char).

(** the text of a string literal of this file (ASCII only) *)
Definition lit (s : string) : str := map N_of_ascii (list_ascii_of_string s).

Definition nl : char := 10%N.

Definition is_nl (c : char) : bool := (c =? nl)%N.

(** [s.count("\n")] *)
Definition count_nl (s : str) : nat := List.length (List.filter is_nl s).

(** [s[a:b]] for offsets [0 <= a], [0 <= b] *)
Definition slice (s : str) (a b : nat) : str := firstn (b - a) (skipn a s).

(** index of the first newline of [s] *)
Fixpoint index_nl (s : str) : option nat :=
  match s with
  | [] => None
  | c :: tl => if is_nl c then Some 0 else option_map S (index_nl tl)
  end.

(** index of the last newline of [s] *)
Fixpoint rindex_nl (s : str) : option nat :=
  match s with
  | [] => None
  | c :: tl =>
      match rindex_nl tl with
      | Some i => Some (S i)
      | None => if is_nl c then Some 0 else None
      end
  end.

(** [text.find("\n", from)] *)
Definition find_nl (text : str) (from : nat) : option nat :=
  option_map (Nat.add from) (index_nl (skipn from text)).

(** [text.rfind("\n", 0, stop)] *)
Definition rfind_nl (text : str) (stop : nat) : option nat :=
  rindex_nl (firstn stop text).

(** [s.replace("\n", "\\n")] *)
Definition escape_nl (s : str) : str :=
  flat_map (fun c => if is_nl c then lit "\n" else [c]) s.

(** ** Character data of the Python library

    The tables list code points in increasing order.  A range [(lo, hi)]
    stands for the code points [lo .. hi]; a run [(lo, hi, step, image)]
    maps [lo], [lo + step], ... up to [hi] to [image], [image + step], ... *)

Fixpoint in_ranges (l : list (N * N)) (c : char) : bool :=
  match l with
  | [] => false
  | (lo, hi) :: tl =>
      if (c <? lo)%N then false
      else if (c <=? hi)%N then true
      else in_ranges tl c
  end.

Fixpoint run_lookup (l : list (N * N * N * N)) (c : char) : option char :=
  match l with
  | [] => None
  | (lo, hi, step, image) :: tl =>
      if (c <? lo)%N then None
      else if ((c <=? hi) && ((c - lo) mod step =? 0))%N
           then Some (image + (c - lo))%N
           else run_lookup tl c
  end.

Fixpoint assoc {A : Type} (l : list (N * A)) (c : char) : option A :=
  match l with
  | [] => None
  | (k, v) :: tl => if (c =? k)%N then Some v else assoc tl c
  end.

(** the code points with [str.isspace], which are those of [\s] *)
Definition WHITE_SPACE : list (N * N) :=
  [(9, 13); (28, 32); (133, 133); (160, 160); (5760, 5760); (8192, 8202);
   (8232, 8233); (8239, 8239); (8287, 8287); (12288, 12288)]%N.

(** the code points with [str.isalnum] *)
Definition ALNUM : list (N * N) :=
  [(48, 57); (65, 90); (97, 122); (170, 170); (178, 179); (181, 181);
   (185, 186); (188, 190); (192, 214); (216, 246); (248, 705); (710, 721);
   (736, 740); (748, 748); (750, 750); (880, 884); (886, 887); (890, 893);
   (895, 895); (902, 902); (904, 906); (908, 908); (910, 929); (931, 1013);
   (1015, 1153); (1162, 1327); (1329, 1366); (1369, 1369); (1376, 1416);
   (1488, 1514); (1519, 1522); (1568, 1610); (1632, 1641); (1646, 1647);
   (1649, 1747); (1749, 1749); (1765, 1766); (1774, 1788); (1791, 1791);
   (1808, 1808); (1810, 1839); (1869, 1957); (1969, 1969); (1984, 2026);
   (2036, 2037); (2042, 2042); (2048, 2069); (2074, 2074); (2084, 2084);
   (2088, 2088); (2112, 2136); (2144, 2154); (2160, 2183); (2185, 2190);
   (2208, 2249); (2308, 2361); (2365, 2365); (2384, 2384); (2392, 2401);
   (2406, 2415); (2417, 2432); (2437, 2444); (2447, 2448); (2451, 2472);
   (2474, 2480); (2482, 2482); (2486, 2489); (2493, 2493); (2510, 2510);
   (2524, 2525); (2527, 2529); (2534, 2545); (2548, 2553); (2556, 2556);
   (2565, 2570); (2575, 2576); (2579, 2600); (2602, 2608); (2610, 2611);
   (2613, 2614); (2616, 2617); (2649, 2652); (2654, 2654); (2662, 2671);
   (2674, 2676); (2693, 2701); (2703, 2705); (2707, 2728); (2730, 2736);
   (2738, 2739); (2741, 2745); (2749, 2749); (2768, 2768); (2784, 2785);
   (2790, 2799); (2809, 2809); (2821, 2828); (2831, 2832); (2835, 2856);
   (2858, 2864); (2866, 2867); (2869, 2873); (2877, 2877); (2908, 2909);
   (2911, 2913); (2918, 2927); (2929, 2935); (2947, 2947); (2949, 2954);
   (2958, 2960); (2962, 2965); (2969, 2970); (2972, 2972); (2974, 2975);
   (2979, 2980); (2984, 2986); (2990, 3001); (3024, 3024); (3046, 3058);
   (3077, 3084); (3086, 3088); (3090, 3112); (3114, 3129); (3133, 3133);
   (3160, 3162); (3165, 3165); (3168, 3169); (3174, 3183); (3192, 3198);
   (3200, 3200); (3205, 3212); (3214, 3216); (3218, 3240); (3242, 3251);
   (3253, 3257); (3261, 3261); (3293, 3294); (3296, 3297); (3302, 3311);
   (3313, 3314); (3332, 3340); (3342, 3344); (3346, 3386); (3389, 3389);
   (3406, 3406); (3412, 3414); (3416, 3425); (3430, 3448); (3450, 3455);
   (3461, 3478); (3482, 3505); (3507, 3515); (3517, 3517); (3520, 3526);
   (3558, 3567); (3585, 3632); (3634, 3635); (3648, 3654); (3664, 3673);
   (3713, 3714); (3716, 3716); (3718, 3722); (3724, 3747); (3749, 3749);
   (3751, 3760); (3762, 3763); (3773, 3773); (3776, 3780); (3782, 3782);
   (3792, 3801); (3804, 3807); (3840, 3840); (3872, 3891); (3904, 3911);
   (3913, 3948); (3976, 3980); (4096, 4138); (4159, 4169); (4176, 4181);
   (4186, 4189); (4193, 4193); (4197, 4198); (4206, 4208); (4213, 4225);
   (4238, 4238); (4240, 4249); (4256, 4293); (4295, 4295); (4301, 4301);
   (4304, 4346); (4348, 4680); (4682, 4685); (4688, 4694); (4696, 4696);
   (4698, 4701); (4704, 4744); (4746, 4749); (4752, 4784); (4786, 4789);
   (4792, 4798); (4800, 4800); (4802, 4805); (4808, 4822); (4824, 4880);
   (4882, 4885); (4888, 4954); (4969, 4988); (4992, 5007); (5024, 5109);
   (5112, 5117); (5121, 5740); (5743, 5759); (5761, 5786); (5792, 5866);
   (5870, 5880); (5888, 5905); (5919, 5937); (5952, 5969); (5984, 5996);
   (5998, 6000); (6016, 6067); (6103, 6103); (6108, 6108); (6112, 6121);
   (6128, 6137); (6160, 6169); (6176, 6264); (6272, 6276); (6279, 6312);
   (6314, 6314); (6320, 6389); (6400, 6430); (6470, 6509); (6512, 6516);
   (6528, 6571); (6576, 6601); (6608, 6618); (6656, 6678); (6688, 6740);
   (6784, 6793); (6800, 6809); (6823, 6823); (6917, 6963); (6981, 6988);
   (6992, 7001); (7043, 7072); (7086, 7141); (7168, 7203); (7232, 7241);
   (7245, 7293); (7296, 7304); (7312, 7354); (7357, 7359); (7401, 7404);
   (7406, 7411); (7413, 7414); (7418, 7418); (7424, 7615); (7680, 7957);
   (7960, 7965); (7968, 8005); (8008, 8013); (8016, 8023); (8025, 8025);
   (8027, 8027); (8029, 8029); (8031, 8061); (8064, 8116); (8118, 8124);
   (8126, 8126); (8130, 8132); (8134, 8140); (8144, 8147); (8150, 8155);
   (8160, 8172); (8178, 8180); (8182, 8188); (8304, 8305); (8308, 8313);
   (8319, 8329); (8336, 8348); (8450, 8450); (8455, 8455); (8458, 8467);
   (8469, 8469); (8473, 8477); (8484, 8484); (8486, 8486); (8488, 8488);
   (8490, 8493); (8495, 8505); (8508, 8511); (8517, 8521); (8526, 8526);
   (8528, 8585); (9312, 9371); (9450, 9471); (10102, 10131); (11264, 11492);
   (11499, 11502); (11506, 11507); (11517, 11517); (11520, 11557);
   (11559, 11559); (11565, 11565); (11568, 11623); (11631, 11631);
   (11648, 11670); (11680, 11686); (11688, 11694); (11696, 11702);
   (11704, 11710); (11712, 11718); (11720, 11726); (11728, 11734);
   (11736, 11742); (11823, 11823); (12293, 12295); (12321, 12329);
   (12337, 12341); (12344, 12348); (12353, 12438); (12445, 12447);
   (12449, 12538); (12540, 12543); (12549, 12591); (12593, 12686);
   (12690, 12693); (12704, 12735); (12784, 12799); (12832, 12841);
   (12872, 12879); (12881, 12895); (12928, 12937); (12977, 12991);
   (13312, 19903); (19968, 42124); (42192, 42237); (42240, 42508);
   (42512, 42539); (42560, 42606); (42623, 42653); (42656, 42735);
   (42775, 42783); (42786, 42888); (42891, 42954); (42960, 42961);
   (42963, 42963); (42965, 42969); (42994, 43009); (43011, 43013);
   (43015, 43018); (43020, 43042); (43056, 43061); (43072, 43123);
   (43138, 43187); (43216, 43225); (43250, 43255); (43259, 43259);
   (43261, 43262); (43264, 43301); (43312, 43334); (43360, 43388);
   (43396, 43442); (43471, 43481); (43488, 43492); (43494, 43518);
   (43520, 43560); (43584, 43586); (43588, 43595); (43600, 43609);
   (43616, 43638); (43642, 43642); (43646, 43695); (43697, 43697);
   (43701, 43702); (43705, 43709); (43712, 43712); (43714, 43714);
   (43739, 43741); (43744, 43754); (43762, 43764); (43777, 43782);
   (43785, 43790); (43793, 43798); (43808, 43814); (43816, 43822);
   (43824, 43866); (43868, 43881); (43888, 44002); (44016, 44025);
   (44032, 55203); (55216, 55238); (55243, 55291); (63744, 64109);
   (64112, 64217); (64256, 64262); (64275, 64279); (64285, 64285);
   (64287, 64296); (64298, 64310); (64312, 64316); (64318, 64318);
   (64320, 64321); (64323, 64324); (64326, 64433); (64467, 64829);
   (64848, 64911); (64914, 64967); (65008, 65019); (65136, 65140);
   (65142, 65276); (65296, 65305); (65313, 65338); (65345, 65370);
   (65382, 65470); (65474, 65479); (65482, 65487); (65490, 65495);
   (65498, 65500); (65536, 65547); (65549, 65574); (65576, 65594);
   (65596, 65597); (65599, 65613); (65616, 65629); (65664, 65786);
   (65799, 65843); (65856, 65912); (65930, 65931); (66176, 66204);
   (66208, 66256); (66273, 66299); (66304, 66339); (66349, 66378);
   (66384, 66421); (66432, 66461); (66464, 66499); (66504, 66511);
   (66513, 66517); (66560, 66717); (66720, 66729); (66736, 66771);
   (66776, 66811); (66816, 66855); (66864, 66915); (66928, 66938);
   (66940, 66954); (66956, 66962); (66964, 66965); (66967, 66977);
   (66979, 66993); (66995, 67001); (67003, 67004); (67072, 67382);
   (67392, 67413); (67424, 67431); (67456, 67461); (67463, 67504);
   (67506, 67514); (67584, 67589); (67592, 67592); (67594, 67637);
   (67639, 67640); (67644, 67644); (67647, 67669); (67672, 67702);
   (67705, 67742); (67751, 67759); (67808, 67826); (67828, 67829);
   (67835, 67867); (67872, 67897); (67968, 68023); (68028, 68047);
   (68050, 68096); (68112, 68115); (68117, 68119); (68121, 68149);
   (68160, 68168); (68192, 68222); (68224, 68255); (68288, 68295);
   (68297, 68324); (68331, 68335); (68352, 68405); (68416, 68437);
   (68440, 68466); (68472, 68497); (68521, 68527); (68608, 68680);
   (68736, 68786); (68800, 68850); (68858, 68899); (68912, 68921);
   (69216, 69246); (69248, 69289); (69296, 69297); (69376, 69415);
   (69424, 69445); (69457, 69460); (69488, 69505); (69552, 69579);
   (69600, 69622); (69635, 69687); (69714, 69743); (69745, 69746);
   (69749, 69749); (69763, 69807); (69840, 69864); (69872, 69881);
   (69891, 69926); (69942, 69951); (69956, 69956); (69959, 69959);
   (69968, 70002); (70006, 70006); (70019, 70066); (70081, 70084);
   (70096, 70106); (70108, 70108); (70113, 70132); (70144, 70161);
   (70163, 70187); (70272, 70278); (70280, 70280); (70282, 70285);
   (70287, 70301); (70303, 70312); (70320, 70366); (70384, 70393);
   (70405, 70412); (70415, 70416); (70419, 70440); (70442, 70448);
   (70450, 70451); (70453, 70457); (70461, 70461); (70480, 70480);
   (70493, 70497); (70656, 70708); (70727, 70730); (70736, 70745);
   (70751, 70753); (70784, 70831); (70852, 70853); (70855, 70855);
   (70864, 70873); (71040, 71086); (71128, 71131); (71168, 71215);
   (71236, 71236); (71248, 71257); (71296, 71338); (71352, 71352);
   (71360, 71369); (71424, 71450); (71472, 71483); (71488, 71494);
   (71680, 71723); (71840, 71922); (71935, 71942); (71945, 71945);
   (71948, 71955); (71957, 71958); (71960, 71983); (71999, 71999);
   (72001, 72001); (72016, 72025); (72096, 72103); (72106, 72144);
   (72161, 72161); (72163, 72163); (72192, 72192); (72203, 72242);
   (72250, 72250); (72272, 72272); (72284, 72329); (72349, 72349);
   (72368, 72440); (72704, 72712); (72714, 72750); (72768, 72768);
   (72784, 72812); (72818, 72847); (72960, 72966); (72968, 72969);
   (72971, 73008); (73030, 73030); (73040, 73049); (73056, 73061);
   (73063, 73064); (73066, 73097); (73112, 73112); (73120, 73129);
   (73440, 73458); (73648, 73648); (73664, 73684); (73728, 74649);
   (74752, 74862); (74880, 75075); (77712, 77808); (77824, 78894);
   (82944, 83526); (92160, 92728); (92736, 92766); (92768, 92777);
   (92784, 92862); (92864, 92873); (92880, 92909); (92928, 92975);
   (92992, 92995); (93008, 93017); (93019, 93025); (93027, 93047);
   (93053, 93071); (93760, 93846); (93952, 94026); (94032, 94032);
   (94099, 94111); (94176, 94177); (94179, 94179); (94208, 100343);
   (100352, 101589); (101632, 101640); (110576, 110579); (110581, 110587);
   (110589, 110590); (110592, 110882); (110928, 110930); (110948, 110951);
   (110960, 111355); (113664, 113770); (113776, 113788); (113792, 113800);
   (113808, 113817); (119520, 119539); (119648, 119672); (119808, 119892);
   (119894, 119964); (119966, 119967); (119970, 119970); (119973, 119974);
   (119977, 119980); (119982, 119993); (119995, 119995); (119997, 120003);
   (120005, 120069); (120071, 120074); (120077, 120084); (120086, 120092);
   (120094, 120121); (120123, 120126); (120128, 120132); (120134, 120134);
   (120138, 120144); (120146, 120485); (120488, 120512); (120514, 120538);
   (120540, 120570); (120572, 120596); (120598, 120628); (120630, 120654);
   (120656, 120686); (120688, 120712); (120714, 120744); (120746, 120770);
   (120772, 120779); (120782, 120831); (122624, 122654); (123136, 123180);
   (123191, 123197); (123200, 123209); (123214, 123214); (123536, 123565);
   (123584, 123627); (123632, 123641); (124896, 124902); (124904, 124907);
   (124909, 124910); (124912, 124926); (124928, 125124); (125127, 125135);
   (125184, 125251); (125259, 125259); (125264, 125273); (126065, 126123);
   (126125, 126127); (126129, 126132); (126209, 126253); (126255, 126269);
   (126464, 126467); (126469, 126495); (126497, 126498); (126500, 126500);
   (126503, 126503); (126505, 126514); (126516, 126519); (126521, 126521);
   (126523, 126523); (126530, 126530); (126535, 126535); (126537, 126537);
   (126539, 126539); (126541, 126543); (126545, 126546); (126548, 126548);
   (126551, 126551); (126553, 126553); (126555, 126555); (126557, 126557);
   (126559, 126559); (126561, 126562); (126564, 126564); (126567, 126570);
   (126572, 126578); (126580, 126583); (126585, 126588); (126590, 126590);
   (126592, 126601); (126603, 126619); (126625, 126627); (126629, 126633);
   (126635, 126651); (127232, 127244); (130032, 130041); (131072, 173791);
   (173824, 177976); (177984, 178205); (178208, 183969); (183984, 191456);
   (194560, 195101); (196608, 201546)]%N.

(** the code points with [_sre.unicode_iscased] *)
Definition CASED : list (N * N) :=
  [(65, 90); (97, 122); (181, 181); (192, 214); (216, 246); (248, 311);
   (313, 396); (398, 410); (412, 425); (428, 441); (444, 445); (447, 447);
   (452, 544); (546, 563); (570, 596); (598, 599); (601, 601); (603, 604);
   (608, 609); (611, 611); (613, 614); (616, 620); (623, 623); (625, 626);
   (629, 629); (637, 637); (640, 640); (642, 643); (647, 652); (658, 658);
   (669, 670); (837, 837); (880, 883); (886, 887); (891, 893); (895, 895);
   (902, 902); (904, 906); (908, 908); (910, 929); (931, 977); (981, 1013);
   (1015, 1019); (1021, 1153); (1162, 1327); (1329, 1366); (1377, 1415);
   (4256, 4293); (4295, 4295); (4301, 4301); (4304, 4346); (4349, 4351);
   (5024, 5109); (5112, 5117); (7296, 7304); (7312, 7354); (7357, 7359);
   (7545, 7545); (7549, 7549); (7566, 7566); (7680, 7835); (7838, 7838);
   (7840, 7957); (7960, 7965); (7968, 8005); (8008, 8013); (8016, 8023);
   (8025, 8025); (8027, 8027); (8029, 8029); (8031, 8061); (8064, 8116);
   (8118, 8124); (8126, 8126); (8130, 8132); (8134, 8140); (8144, 8147);
   (8150, 8155); (8160, 8172); (8178, 8180); (8182, 8188); (8486, 8486);
   (8490, 8491); (8498, 8498); (8526, 8526); (8544, 8575); (8579, 8580);
   (9398, 9449); (11264, 11376); (11378, 11379); (11381, 11382);
   (11390, 11491); (11499, 11502); (11506, 11507); (11520, 11557);
   (11559, 11559); (11565, 11565); (42560, 42605); (42624, 42651);
   (42786, 42799); (42802, 42863); (42873, 42887); (42891, 42893);
   (42896, 42900); (42902, 42926); (42928, 42954); (42960, 42961);
   (42966, 42969); (42997, 42998); (43859, 43859); (43888, 43967);
   (64256, 64262); (64275, 64279); (65313, 65338); (65345, 65370);
   (66560, 66639); (66736, 66771); (66776, 66811); (66928, 66938);
   (66940, 66954); (66956, 66962); (66964, 66965); (66967, 66977);
   (66979, 66993); (66995, 67001); (67003, 67004); (68736, 68786);
   (68800, 68850); (71840, 71903); (93760, 93823); (125184, 125251)]%N.

(** [_sre.unicode_tolower] where it is not the identity *)
Definition LOWER : list (N * N * N * N) :=
  [(65, 90, 1, 97); (192, 214, 1, 224); (216, 222, 1, 248);
   (256, 302, 2, 257); (304, 304, 1, 105); (306, 310, 2, 307);
   (313, 327, 2, 314); (330, 374, 2, 331); (376, 376, 1, 255);
   (377, 381, 2, 378); (385, 385, 1, 595); (386, 388, 2, 387);
   (390, 390, 1, 596); (391, 391, 1, 392); (393, 394, 1, 598);
   (395, 395, 1, 396); (398, 398, 1, 477); (399, 399, 1, 601);
   (400, 400, 1, 603); (401, 401, 1, 402); (403, 403, 1, 608);
   (404, 404, 1, 611); (406, 406, 1, 617); (407, 407, 1, 616);
   (408, 408, 1, 409); (412, 412, 1, 623); (413, 413, 1, 626);
   (415, 415, 1, 629); (416, 420, 2, 417); (422, 422, 1, 640);
   (423, 423, 1, 424); (425, 425, 1, 643); (428, 428, 1, 429);
   (430, 430, 1, 648); (431, 431, 1, 432); (433, 434, 1, 650);
   (435, 437, 2, 436); (439, 439, 1, 658); (440, 440, 1, 441);
   (444, 444, 1, 445); (452, 452, 1, 454); (453, 453, 1, 454);
   (455, 455, 1, 457); (456, 456, 1, 457); (458, 458, 1, 460);
   (459, 475, 2, 460); (478, 494, 2, 479); (497, 497, 1, 499);
   (498, 500, 2, 499); (502, 502, 1, 405); (503, 503, 1, 447);
   (504, 542, 2, 505); (544, 544, 1, 414); (546, 562, 2, 547);
   (570, 570, 1, 11365); (571, 571, 1, 572); (573, 573, 1, 410);
   (574, 574, 1, 11366); (577, 577, 1, 578); (579, 579, 1, 384);
   (580, 580, 1, 649); (581, 581, 1, 652); (582, 590, 2, 583);
   (880, 882, 2, 881); (886, 886, 1, 887); (895, 895, 1, 1011);
   (902, 902, 1, 940); (904, 906, 1, 941); (908, 908, 1, 972);
   (910, 911, 1, 973); (913, 929, 1, 945); (931, 939, 1, 963);
   (975, 975, 1, 983); (984, 1006, 2, 985); (1012, 1012, 1, 952);
   (1015, 1015, 1, 1016); (1017, 1017, 1, 1010); (1018, 1018, 1, 1019);
   (1021, 1023, 1, 891); (1024, 1039, 1, 1104); (1040, 1071, 1, 1072);
   (1120, 1152, 2, 1121); (1162, 1214, 2, 1163); (1216, 1216, 1, 1231);
   (1217, 1229, 2, 1218); (1232, 1326, 2, 1233); (1329, 1366, 1, 1377);
   (4256, 4293, 1, 11520); (4295, 4295, 1, 11559); (4301, 4301, 1, 11565);
   (5024, 5103, 1, 43888); (5104, 5109, 1, 5112); (7312, 7354, 1, 4304);
   (7357, 7359, 1, 4349); (7680, 7828, 2, 7681); (7838, 7838, 1, 223);
   (7840, 7934, 2, 7841); (7944, 7951, 1, 7936); (7960, 7965, 1, 7952);
   (7976, 7983, 1, 7968); (7992, 7999, 1, 7984); (8008, 8013, 1, 8000);
   (8025, 8031, 2, 8017); (8040, 8047, 1, 8032); (8072, 8079, 1, 8064);
   (8088, 8095, 1, 8080); (8104, 8111, 1, 8096); (8120, 8121, 1, 8112);
   (8122, 8123, 1, 8048); (8124, 8124, 1, 8115); (8136, 8139, 1, 8050);
   (8140, 8140, 1, 8131); (8152, 8153, 1, 8144); (8154, 8155, 1, 8054);
   (8168, 8169, 1, 8160); (8170, 8171, 1, 8058); (8172, 8172, 1, 8165);
   (8184, 8185, 1, 8056); (8186, 8187, 1, 8060); (8188, 8188, 1, 8179);
   (8486, 8486, 1, 969); (8490, 8490, 1, 107); (8491, 8491, 1, 229);
   (8498, 8498, 1, 8526); (8544, 8559, 1, 8560); (8579, 8579, 1, 8580);
   (9398, 9423, 1, 9424); (11264, 11311, 1, 11312); (11360, 11360, 1, 11361);
   (11362, 11362, 1, 619); (11363, 11363, 1, 7549); (11364, 11364, 1, 637);
   (11367, 11371, 2, 11368); (11373, 11373, 1, 593); (11374, 11374, 1, 625);
   (11375, 11375, 1, 592); (11376, 11376, 1, 594); (11378, 11378, 1, 11379);
   (11381, 11381, 1, 11382); (11390, 11391, 1, 575); (11392, 11490, 2, 11393);
   (11499, 11501, 2, 11500); (11506, 11506, 1, 11507);
   (42560, 42604, 2, 42561); (42624, 42650, 2, 42625);
   (42786, 42798, 2, 42787); (42802, 42862, 2, 42803);
   (42873, 42875, 2, 42874); (42877, 42877, 1, 7545);
   (42878, 42886, 2, 42879); (42891, 42891, 1, 42892); (42893, 42893, 1, 613);
   (42896, 42898, 2, 42897); (42902, 42920, 2, 42903); (42922, 42922, 1, 614);
   (42923, 42923, 1, 604); (42924, 42924, 1, 609); (42925, 42925, 1, 620);
   (42926, 42926, 1, 618); (42928, 42928, 1, 670); (42929, 42929, 1, 647);
   (42930, 42930, 1, 669); (42931, 42931, 1, 43859); (42932, 42946, 2, 42933);
   (42948, 42948, 1, 42900); (42949, 42949, 1, 642); (42950, 42950, 1, 7566);
   (42951, 42953, 2, 42952); (42960, 42960, 1, 42961);
   (42966, 42968, 2, 42967); (42997, 42997, 1, 42998);
   (65313, 65338, 1, 65345); (66560, 66599, 1, 66600);
   (66736, 66771, 1, 66776); (66928, 66938, 1, 66967);
   (66940, 66954, 1, 66979); (66956, 66962, 1, 66995);
   (66964, 66965, 1, 67003); (68736, 68786, 1, 68800);
   (71840, 71871, 1, 71872); (93760, 93791, 1, 93792);
   (125184, 125217, 1, 125218)]%N.

(** [str.upper] where it gives one other code point *)
Definition UPPER : list (N * N * N * N) :=
  [(97, 122, 1, 65); (181, 181, 1, 924); (224, 246, 1, 192);
   (248, 254, 1, 216); (255, 255, 1, 376); (257, 303, 2, 256);
   (305, 305, 1, 73); (307, 311, 2, 306); (314, 328, 2, 313);
   (331, 375, 2, 330); (378, 382, 2, 377); (383, 383, 1, 83);
   (384, 384, 1, 579); (387, 389, 2, 386); (392, 392, 1, 391);
   (396, 396, 1, 395); (402, 402, 1, 401); (405, 405, 1, 502);
   (409, 409, 1, 408); (410, 410, 1, 573); (414, 414, 1, 544);
   (417, 421, 2, 416); (424, 424, 1, 423); (429, 429, 1, 428);
   (432, 432, 1, 431); (436, 438, 2, 435); (441, 441, 1, 440);
   (445, 445, 1, 444); (447, 447, 1, 503); (453, 453, 1, 452);
   (454, 454, 1, 452); (456, 456, 1, 455); (457, 457, 1, 455);
   (459, 459, 1, 458); (460, 460, 1, 458); (462, 476, 2, 461);
   (477, 477, 1, 398); (479, 495, 2, 478); (498, 498, 1, 497);
   (499, 499, 1, 497); (501, 501, 1, 500); (505, 543, 2, 504);
   (547, 563, 2, 546); (572, 572, 1, 571); (575, 576, 1, 11390);
   (578, 578, 1, 577); (583, 591, 2, 582); (592, 592, 1, 11375);
   (593, 593, 1, 11373); (594, 594, 1, 11376); (595, 595, 1, 385);
   (596, 596, 1, 390); (598, 599, 1, 393); (601, 601, 1, 399);
   (603, 603, 1, 400); (604, 604, 1, 42923); (608, 608, 1, 403);
   (609, 609, 1, 42924); (611, 611, 1, 404); (613, 613, 1, 42893);
   (614, 614, 1, 42922); (616, 616, 1, 407); (617, 617, 1, 406);
   (618, 618, 1, 42926); (619, 619, 1, 11362); (620, 620, 1, 42925);
   (623, 623, 1, 412); (625, 625, 1, 11374); (626, 626, 1, 413);
   (629, 629, 1, 415); (637, 637, 1, 11364); (640, 640, 1, 422);
   (642, 642, 1, 42949); (643, 643, 1, 425); (647, 647, 1, 42929);
   (648, 648, 1, 430); (649, 649, 1, 580); (650, 651, 1, 433);
   (652, 652, 1, 581); (658, 658, 1, 439); (669, 669, 1, 42930);
   (670, 670, 1, 42928); (837, 837, 1, 921); (881, 883, 2, 880);
   (887, 887, 1, 886); (891, 893, 1, 1021); (940, 940, 1, 902);
   (941, 943, 1, 904); (945, 961, 1, 913); (962, 962, 1, 931);
   (963, 971, 1, 931); (972, 972, 1, 908); (973, 974, 1, 910);
   (976, 976, 1, 914); (977, 977, 1, 920); (981, 981, 1, 934);
   (982, 982, 1, 928); (983, 983, 1, 975); (985, 1007, 2, 984);
   (1008, 1008, 1, 922); (1009, 1009, 1, 929); (1010, 1010, 1, 1017);
   (1011, 1011, 1, 895); (1013, 1013, 1, 917); (1016, 1016, 1, 1015);
   (1019, 1019, 1, 1018); (1072, 1103, 1, 1040); (1104, 1119, 1, 1024);
   (1121, 1153, 2, 1120); (1163, 1215, 2, 1162); (1218, 1230, 2, 1217);
   (1231, 1231, 1, 1216); (1233, 1327, 2, 1232); (1377, 1414, 1, 1329);
   (4304, 4346, 1, 7312); (4349, 4351, 1, 7357); (5112, 5117, 1, 5104);
   (7296, 7296, 1, 1042); (7297, 7297, 1, 1044); (7298, 7298, 1, 1054);
   (7299, 7300, 1, 1057); (7301, 7301, 1, 1058); (7302, 7302, 1, 1066);
   (7303, 7303, 1, 1122); (7304, 7304, 1, 42570); (7545, 7545, 1, 42877);
   (7549, 7549, 1, 11363); (7566, 7566, 1, 42950); (7681, 7829, 2, 7680);
   (7835, 7835, 1, 7776); (7841, 7935, 2, 7840); (7936, 7943, 1, 7944);
   (7952, 7957, 1, 7960); (7968, 7975, 1, 7976); (7984, 7991, 1, 7992);
   (8000, 8005, 1, 8008); (8017, 8023, 2, 8025); (8032, 8039, 1, 8040);
   (8048, 8049, 1, 8122); (8050, 8053, 1, 8136); (8054, 8055, 1, 8154);
   (8056, 8057, 1, 8184); (8058, 8059, 1, 8170); (8060, 8061, 1, 8186);
   (8112, 8113, 1, 8120); (8126, 8126, 1, 921); (8144, 8145, 1, 8152);
   (8160, 8161, 1, 8168); (8165, 8165, 1, 8172); (8526, 8526, 1, 8498);
   (8560, 8575, 1, 8544); (8580, 8580, 1, 8579); (9424, 9449, 1, 9398);
   (11312, 11359, 1, 11264); (11361, 11361, 1, 11360); (11365, 11365, 1, 570);
   (11366, 11366, 1, 574); (11368, 11372, 2, 11367); (11379, 11379, 1, 11378);
   (11382, 11382, 1, 11381); (11393, 11491, 2, 11392);
   (11500, 11502, 2, 11499); (11507, 11507, 1, 11506);
   (11520, 11557, 1, 4256); (11559, 11559, 1, 4295); (11565, 11565, 1, 4301);
   (42561, 42605, 2, 42560); (42625, 42651, 2, 42624);
   (42787, 42799, 2, 42786); (42803, 42863, 2, 42802);
   (42874, 42876, 2, 42873); (42879, 42887, 2, 42878);
   (42892, 42892, 1, 42891); (42897, 42899, 2, 42896);
   (42900, 42900, 1, 42948); (42903, 42921, 2, 42902);
   (42933, 42947, 2, 42932); (42952, 42954, 2, 42951);
   (42961, 42961, 1, 42960); (42967, 42969, 2, 42966);
   (42998, 42998, 1, 42997); (43859, 43859, 1, 42931);
   (43888, 43967, 1, 5024); (65345, 65370, 1, 65313);
   (66600, 66639, 1, 66560); (66776, 66811, 1, 66736);
   (66967, 66977, 1, 66928); (66979, 66993, 1, 66940);
   (66995, 67001, 1, 66956); (67003, 67004, 1, 66964);
   (68800, 68850, 1, 68736); (71872, 71903, 1, 71840);
   (93792, 93823, 1, 93760); (125218, 125251, 1, 125184)]%N.

(** [str.upper] where it gives several code points *)
Definition UPPER_LONG : list (N * list N) :=
  [(223, [83; 83]); (329, [700; 78]); (496, [74; 780]);
   (912, [921; 776; 769]); (944, [933; 776; 769]); (1415, [1333; 1362]);
   (7830, [72; 817]); (7831, [84; 776]); (7832, [87; 778]); (7833, [89; 778]);
   (7834, [65; 702]); (8016, [933; 787]); (8018, [933; 787; 768]);
   (8020, [933; 787; 769]); (8022, [933; 787; 834]); (8064, [7944; 921]);
   (8065, [7945; 921]); (8066, [7946; 921]); (8067, [7947; 921]);
   (8068, [7948; 921]); (8069, [7949; 921]); (8070, [7950; 921]);
   (8071, [7951; 921]); (8072, [7944; 921]); (8073, [7945; 921]);
   (8074, [7946; 921]); (8075, [7947; 921]); (8076, [7948; 921]);
   (8077, [7949; 921]); (8078, [7950; 921]); (8079, [7951; 921]);
   (8080, [7976; 921]); (8081, [7977; 921]); (8082, [7978; 921]);
   (8083, [7979; 921]); (8084, [7980; 921]); (8085, [7981; 921]);
   (8086, [7982; 921]); (8087, [7983; 921]); (8088, [7976; 921]);
   (8089, [7977; 921]); (8090, [7978; 921]); (8091, [7979; 921]);
   (8092, [7980; 921]); (8093, [7981; 921]); (8094, [7982; 921]);
   (8095, [7983; 921]); (8096, [8040; 921]); (8097, [8041; 921]);
   (8098, [8042; 921]); (8099, [8043; 921]); (8100, [8044; 921]);
   (8101, [8045; 921]); (8102, [8046; 921]); (8103, [8047; 921]);
   (8104, [8040; 921]); (8105, [8041; 921]); (8106, [8042; 921]);
   (8107, [8043; 921]); (8108, [8044; 921]); (8109, [8045; 921]);
   (8110, [8046; 921]); (8111, [8047; 921]); (8114, [8122; 921]);
   (8115, [913; 921]); (8116, [902; 921]); (8118, [913; 834]);
   (8119, [913; 834; 921]); (8124, [913; 921]); (8130, [8138; 921]);
   (8131, [919; 921]); (8132, [905; 921]); (8134, [919; 834]);
   (8135, [919; 834; 921]); (8140, [919; 921]); (8146, [921; 776; 768]);
   (8147, [921; 776; 769]); (8150, [921; 834]); (8151, [921; 776; 834]);
   (8162, [933; 776; 768]); (8163, [933; 776; 769]); (8164, [929; 787]);
   (8166, [933; 834]); (8167, [933; 776; 834]); (8178, [8186; 921]);
   (8179, [937; 921]); (8180, [911; 921]); (8182, [937; 834]);
   (8183, [937; 834; 921]); (8188, [937; 921]); (64256, [70; 70]);
   (64257, [70; 73]); (64258, [70; 76]); (64259, [70; 70; 73]);
   (64260, [70; 70; 76]); (64261, [83; 84]); (64262, [83; 84]);
   (64275, [1348; 1350]); (64276, [1348; 1333]); (64277, [1348; 1339]);
   (64278, [1358; 1350]); (64279, [1348; 1341])]%N.

(** [re._casefix._EXTRA_CASES] *)
Definition EXTRA_CASES : list (N * list N) :=
  [(105, [305]); (115, [383]); (181, [956]); (305, [105]); (383, [115]);
   (837, [953; 8126]); (912, [8147]); (944, [8163]); (946, [976]);
   (949, [1013]); (952, [977]); (953, [837; 8126]); (954, [1008]);
   (956, [181]); (960, [982]); (961, [1009]); (962, [963]); (963, [962]);
   (966, [981]); (976, [946]); (977, [952]); (981, [966]); (982, [960]);
   (1008, [954]); (1009, [961]); (1013, [949]); (1074, [7296]);
   (1076, [7297]); (1086, [7298]); (1089, [7299]); (1090, [7300; 7301]);
   (1098, [7302]); (1123, [7303]); (7296, [1074]); (7297, [1076]);
   (7298, [1086]); (7299, [1089]); (7300, [1090; 7301]); (7301, [1090; 7300]);
   (7302, [1098]); (7303, [1123]); (7304, [42571]); (7777, [7835]);
   (7835, [7777]); (8126, [837; 953]); (8147, [912]); (8163, [944]);
   (42571, [7304]); (64261, [64262]); (64262, [64261])]%N.

(** ** Character classes of [re] and case mappings *)

(** [\s] *)
Definition is_space (c : char) : bool := in_ranges WHITE_SPACE c.

(** [str.isalnum] on one character *)
Definition is_alnum (c : char) : bool := in_ranges ALNUM c.

(** [\w] *)
Definition is_word (c : char) : bool := is_alnum c || (c =? 95)%N.

(** [[\s\S]] *)
Definition any_char (c : char) : bool := is_space c || negb (is_space c).

(** [[^.\n]] *)
Definition not_dot_nl (c : char) : bool :=
  negb ((c =? 46)%N || (c =? nl)%N).

(** [_sre.unicode_tolower]: the simple lower-case mapping *)
Definition tolower (c : char) : char :=
  match run_lookup LOWER c with Some l => l | None => c end.

(** [_sre.unicode_iscased] *)
Definition iscased (c : char) : bool := in_ranges CASED c.

(** the other lower-case forms that [re] lets a lower-case letter match *)
Definition case_fixes (lo : char) : list char :=
  match assoc EXTRA_CASES lo with Some l => l | None => [] end.

(** [str.upper] on one character: the full upper-case mapping, which may
    give several characters *)
Definition upper (c : char) : str :=
  match assoc UPPER_LONG c with
  | Some l => l
  | None => [match run_lookup UPPER c with Some u => u | None => c end]
  end.

(** [s.upper()] *)
Definition str_upper (s : str) : str := flat_map upper s.

(** a pattern character [p] against a text character [c] under
    [re.IGNORECASE]: a pattern character without case must be met as it is;
    otherwise the lower case of [c] must be the lower case of [p] or one of
    its other forms *)
Definition ci_char (p c : char) : bool :=
  if iscased p
  then let lo := tolower p in
       let lc := tolower c in
       (lc =? lo)%N || existsb (N.eqb lc) (case_fixes lo)
  else (c =? p)%N.

(** ** Regular expressions *)

Inductive regex : Type :=
| Eps
| Lit (w : str)                       (* literal text, case-insensitive *)
| Seq (r1 r2 : regex)
| Alt (r1 r2 : regex)                 (* r1|r2 *)
| Rep (greedy : bool) (lo : nat) (hi : option nat) (f : char -> bool)
                                      (* f{lo,hi}, lazy when not greedy *)
| Opt (r : regex)                     (* (?:r)? *)
| WordB                               (* \b *)
| NotAhead (f : char -> bool)        (* (?!f) *)
| Grp (name : string) (r : regex).    (* (?P<name>r) *)

Declare Scope regex_scope.
Delimit Scope regex_scope with re.
Bind Scope regex_scope with regex.
Notation "r1 +> r2" := (Seq r1 r2)
  (at level 60, right associativity) : regex_scope.
Notation "r1 </> r2" := (Alt r1 r2)
  (at level 65, right associativity) : regex_scope.

(** The matcher's position in a text: the offset, the character before it
    (for [\b]), the text from it on, and the spans of the groups closed so
    far. *)
Record mstate : Type := MState {
  pos : nat;
  prev : option char;
  rest : str;
  caps : gmap string (nat * nat)
}.

Definition adv (s : mstate) (c : char) (tl : str) : mstate :=
  {| pos := S (pos s); prev := Some c; rest := tl; caps := caps s |}.

Definition set_cap (n : string) (sp : nat * nat) (s : mstate) : mstate :=
  {| pos := pos s; prev := prev s; rest := rest s;
     caps := <[n := sp]> (caps s) |}.

Definition is_word_opt (o : option char) : bool :=
  match o with Some c => is_word c | None => false end.

Definition at_boundary (s : mstate) : bool :=
  xorb (is_word_opt (prev s)) (is_word_opt (head (rest s))).

Fixpoint run_lit (w : str) (s : mstate) : option mstate :=
  match w with
  | [] => Some s
  | p :: w' =>
      match rest s with
      | c :: tl => if ci_char p c then run_lit w' (adv s c tl) else None
      | [] => None
      end
  end.

(** the states after 0, 1, 2, ... (at most [n]) characters of class [f] *)
Fixpoint rep_states (f : char -> bool) (n : nat) (s : mstate) : list mstate :=
  s :: match n with
       | 0 => []
       | S n' =>
           match rest s with
           | c :: tl => if f c then rep_states f n' (adv s c tl) else []
           | [] => []
           end
       end.

Definition rep_bound (hi : option nat) (s : mstate) : nat :=
  match hi with Some h => h | None => List.length (rest s) end.

(** End states of [r] from [s], in the order the backtracking matcher
    reaches them. *)
Fixpoint mrun (r : regex) (s : mstate) : list mstate :=
  match r with
  | Eps => [s]
  | Lit w => match run_lit w s with Some s' => [s'] | None => [] end
  | Seq r1 r2 => flat_map (mrun r2) (mrun r1 s)
  | Alt r1 r2 => mrun r1 s ++ mrun r2 s
  | Rep g lo hi f =>
      let l := skipn lo (rep_states f (rep_bound hi s) s) in
      if g then rev l else l
  | Opt r => mrun r s ++ [s]
  | WordB => if at_boundary s then [s] else []
  | NotAhead f =>
      match rest s with
      | c :: _ => if f c then [] else [s]
      | [] => [s]
      end
  | Grp n r => map (fun s' => set_cap n (pos s, pos s') s') (mrun r s)
  end.

(** ** The two patterns *)

(** Groups that the program never reads (the parenthesised keyword
    alternations) are written as plain sub-expressions. *)

(** first group of [SQL_KONV_RE]: the DML start *)
Definition DML_START : regex :=
  (Lit (lit "SELECT") +> Rep false 1 None any_char +> Lit (lit "FROM"))
  </> (Lit (lit "INSERT") +> Rep true 1 None is_space +> Lit (lit "INTO"))
  </> Lit (lit "UPDATE")
  </> (Lit (lit "DELETE") +> Rep true 1 None is_space +> Lit (lit "FROM")).

Definition SQL_KONV_RE : regex :=
  DML_START
  +> Rep false 0 (Some 1000) any_char
  +> WordB +> Grp "table" (Lit (lit "KONV")) +> WordB
  +> NotAhead is_word.

(** keyword group of [DECL_KONV_RE] *)
Definition DECL_KEYWORD : regex :=
  Lit (lit "DATA") </> Lit (lit "TYPES") </> Lit (lit "FIELD-SYMBOLS")
  </> Lit (lit "CONSTANTS").

(** the alternation [TABLE\s+OF\s+|\s+] *)
Definition TABLE_OF : regex :=
  (Lit (lit "TABLE") +> Rep true 1 None is_space
   +> Lit (lit "OF") +> Rep true 1 None is_space)
  </> Rep true 1 None is_space.

(** the alternation [KONV|DZAEHK|DZAEKO] *)
Definition DTYPE : regex :=
  Lit (lit "KONV") </> Lit (lit "DZAEHK") </> Lit (lit "DZAEKO").

Definition DECL_KONV_RE : regex :=
  WordB
  +> Grp "full"
       ( DECL_KEYWORD
         +> Rep false 0 None not_dot_nl
         +> WordB +> (Lit (lit "TYPE") </> Lit (lit "LIKE")) +> WordB
         +> Rep true 0 None is_space
         +> Opt TABLE_OF
         +> Grp "dtype" DTYPE
         +> WordB ).

(** ** Match objects and [finditer] *)

Record rmatch : Type := RMatch {
  m_start : nat;
  m_end : nat;
  m_groups : gmap string (nat * nat)
}.

(** [m.span()] *)
Definition span (m : rmatch) : nat * nat := (m_start m, m_end m).

(** [m.group(name)]; the groups read by the program lie on every path of
    their pattern, so the case of a group that did not take part (Python's
    [None]) does not arise and is given the empty text. *)
Definition group (src : str) (m : rmatch) (name : string) : str :=
  match m_groups m !! name with
  | Some (a, b) => slice src a b
  | None => []
  end.

(** the match of [r] that starts exactly at this position, if any *)
Definition match_here (r : regex) (p : nat) (pv : option char) (txt : str)
  : option rmatch :=
  match mrun r {| pos := p; prev := pv; rest := txt; caps := ∅ |} with
  | s' :: _ => Some {| m_start := p; m_end := pos s'; m_groups := caps s' |}
  | [] => None
  end.

(** Left-to-right search for non-overlapping matches.  [skip] counts the
    characters still covered by the previous match; the search resumes at
    that match's end.  Both patterns read at least one character (lemmas
    [sql_nonempty] and [decl_nonempty]), so the rule of [re] for empty
    matches plays no part. *)
Fixpoint scan (r : regex) (skip : nat) (p : nat) (pv : option char)
    (txt : str) {struct txt} : list rmatch :=
  let here := match skip with
              | 0 => match_here r p pv txt
              | S _ => None
              end in
  let continue (k : nat) :=
    match txt with
    | [] => []
    | c :: tl => scan r (Nat.pred k) (S p) (Some c) tl
    end in
  match here with
  | Some m => m :: continue (m_end m - p)
  | None => continue skip
  end.

(** [r.finditer(src)] *)
Definition finditer (r : regex) (src : str) : list rmatch :=
  scan r 0 0 None src.

(** ** Obsolete mappings (SAP Note 2220005) *)

Definition OBSOLETE_TABLE_MAP : gmap str str :=
  {[ lit "KONV" := lit "PRCD_ELEMENTS" ]}.

Definition OBSOLETE_TYPE_MAP : gmap str str :=
  <[ lit "KONV" := lit "PRCD_ELEMENTS" ]>
  (<[ lit "DZAEHK" := lit "VFPRC_COND_COUNT" ]>
  {[ lit "DZAEKO" := lit "VFPRC_COND_COUNT_HEAD" ]}).

(** [d.get(k, default)] with the empty text as default *)
Definition dict_get (d : gmap str str) (k : str) : str := default [] (d !! k).

(** ** Models *)

Record Finding : Type := MkFinding {
  prog_name : option str;
  incl_name : option str;
  types : option str;
  blockname : option str;
  starting_line : option Z;
  ending_line : option Z;
  issues_type : option str;
  severity : option str;
  message : option str;
  suggestion : option str;
  snippet : option str
}.

Record Unit : Type := MkUnit {
  pgm_name : str;
  inc_name : str;
  type : str;
  name : option str;
  start_line : option Z;
  end_line : option Z;
  code : option str;
  findings : option (list Finding)
}.

(** ** Helpers *)

(** Return the full line containing the span (start, end). *)
Definition get_line_snippet (text : str) (start end_ : nat) : str :=
  let line_start := match rfind_nl text start with
                    | None => 0
                    | Some i => i + 1
                    end in
  let line_end := match find_nl text end_ with
                  | None => List.length text
                  | Some j => j
                  end in
  slice text line_start line_end.

(** [x or 0] *)
Definition or_zero (o : option Z) : Z :=
  match o with Some z => z | None => 0%Z end.

(** [x or s] with the empty text for [s] *)
Definition or_empty (o : option str) : str :=
  match o with Some s => s | None => [] end.

(** Build a Finding with absolute line numbers and a single-line snippet.
    Severity is always 'error'. *)
Definition make_finding (unit : Unit) (src : str) (match_start match_end : nat)
    (issues_type message suggestion : str) : Finding :=
  let base_start := or_zero (start_line unit) in
  let line_in_block := (Z.of_nat (count_nl (slice src 0 match_start)) + 1)%Z in
  let snippet_line := get_line_snippet src match_start match_end in
  let snippet_line_count := (Z.of_nat (count_nl snippet_line) + 1)%Z in
  let starting_line_abs := (base_start + line_in_block)%Z in
  let ending_line_abs :=
    (base_start + line_in_block + snippet_line_count)%Z in
  {| prog_name := Some (pgm_name unit);
     incl_name := Some (inc_name unit);
     types := Some (type unit);
     blockname := name unit;
     starting_line := Some starting_line_abs;
     ending_line := Some ending_line_abs;
     issues_type := Some issues_type;
     severity := Some (lit "error");
     message := Some message;
     suggestion := Some suggestion;
     snippet := Some (escape_nl snippet_line) |}.

(** ** Core scanning logic *)

(** body of the loop over [SQL_KONV_RE.finditer(src)] *)
Definition table_finding (unit : Unit) (src : str) (m : rmatch) : Finding :=
  let table := str_upper (group src m "table") in
  let replacement := dict_get OBSOLETE_TABLE_MAP table in
  let '(start_off, end_off) := span m in
  let msg := table ++ lit " table is obsolete in S/4HANA (SAP Note 2220005), "
             ++ lit "replaced by " ++ replacement ++ lit "." in
  let sug := lit "Rewrite the statement using " ++ replacement
             ++ lit " and adjust related logic." in
  make_finding unit src start_off end_off (lit "ObsoleteTableUsage") msg sug.

(** body of the loop over [DECL_KONV_RE.finditer(src)] *)
Definition type_finding (unit : Unit) (src : str) (m : rmatch) : Finding :=
  let dtype := str_upper (group src m "dtype") in
  let replacement := dict_get OBSOLETE_TYPE_MAP dtype in
  let '(start_off, end_off) := span m in
  let msg := dtype ++ lit " type is obsolete (SAP Note 2220005), "
             ++ lit "use " ++ replacement ++ lit " instead." in
  let sug := lit "Change the declaration using " ++ replacement
             ++ lit " and adapt the logic accordingly." in
  make_finding unit src start_off end_off (lit "ObsoleteTypeDeclaration")
    msg sug.

(** the list [findings] at the end of the two loops *)
Definition collect_findings (unit : Unit) : list Finding :=
  let src := or_empty (code unit) in
  let findings := [] in
  let findings :=
    fold_left (fun acc m => acc ++ [table_finding unit src m])
      (finditer SQL_KONV_RE src) findings in
  let findings :=
    fold_left (fun acc m => acc ++ [type_finding unit src m])
      (finditer DECL_KONV_RE src) findings in
  findings.

(** [findings if findings else None] *)
Definition or_none (fs : list Finding) : option (list Finding) :=
  match fs with [] => None | _ :: _ => Some fs end.

Definition set_findings (u : Unit) (fs : option (list Finding)) : Unit :=
  {| pgm_name := pgm_name u; inc_name := inc_name u; type := type u;
     name := name u; start_line := start_line u; end_line := end_line u;
     code := code u; findings := fs |}.

(** the [Unit] built from [unit.model_dump()]: a new record with the same
    field values *)
Definition model_copy (u : Unit) : Unit :=
  {| pgm_name := pgm_name u; inc_name := inc_name u; type := type u;
     name := name u; start_line := start_line u; end_line := end_line u;
     code := code u; findings := findings u |}.

Definition analyze_unit (unit : Unit) : Unit :=
  let findings := collect_findings unit in
  let out := model_copy unit in
  set_findings out (or_none findings).

(** ** Endpoints *)

(** truth value of [res.findings] *)
Definition truthy (o : option (list Finding)) : bool :=
  match o with Some (_ :: _) => true | _ => false end.

(** Scan an array of units; return only those that have findings. *)
Definition scan_kondition_obsolete_array (units : list Unit) : list Unit :=
  fold_left
    (fun results u =>
       let res := analyze_unit u in
       if truthy (findings res) then results ++ [res] else results)
    units [].

(** Scan a single unit; always return the unit with findings attached. *)
Definition scan_kondition_obsolete_single (unit : Unit) : Unit :=
  analyze_unit unit.

(** ** Units as Python objects

    [analyze_unit] receives a reference to a [Unit] object, builds a new
    object from its dump and assigns the new object's [findings].  The
    store maps object identities to the current field values. *)

Module Store.

Definition new_object (h : gmap nat Unit) (u : Unit) : gmap nat Unit * nat :=
  let l := fresh (dom h) in (<[l := u]> h, l).

(** [out.findings = v] *)
Definition assign_findings (h : gmap nat Unit) (l : nat)
    (v : option (list Finding)) : gmap nat Unit :=
  alter (fun o => set_findings o v) l h.

(** [analyze_unit] on the store: the result is the new store and the
    identity of the returned object; [None] when [unit] is dangling. *)
Definition run_analyze_unit (h : gmap nat Unit) (unit : nat)
  : option (gmap nat Unit * nat) :=
  match h !! unit with
  | None => None
  | Some u =>
      let findings := collect_findings u in
      let '(h1, out) := new_object h (model_copy u) in
      Some (assign_findings h1 out (or_none findings), out)
  end.

End Store.

(** ** Vocabulary of the properties *)

(** every match of either pattern, in the order the scan visits them *)
Definition all_matches (src : str) : list rmatch :=
  finditer SQL_KONV_RE src ++ finditer DECL_KONV_RE src.

(** [f] is one of the findings attached to the scanned unit *)
Definition emitted (u : Unit) (f : Finding) : Prop :=
  exists fs, findings (analyze_unit u) = Some fs /\ In f fs.

Definition has_nl (s : str) : bool := existsb is_nl s.

(** the finding that the scan builds for a match, by kind of pattern *)
Definition finding_of (u : Unit) (m : rmatch + rmatch) : Finding :=
  match m with
  | inl m => table_finding u (or_empty (code u)) m
  | inr m => type_finding u (or_empty (code u)) m
  end.

Definition the_match (m : rmatch + rmatch) : rmatch :=
  match m with inl m => m | inr m => m end.

Definition tagged_matches (src : str) : list (rmatch + rmatch) :=
  map inl (finditer SQL_KONV_RE src) ++ map inr (finditer DECL_KONV_RE src).

(** ** Sample units *)

Definition unit_103 : Unit :=
  {| pgm_name := lit "ZPRICING"; inc_name := lit "ZPRICING_F01";
     type := lit "FORM"; name := Some (lit "READ_CONDITIONS");
     start_line := Some 100%Z; end_line := Some 102%Z;
     code := Some (lit "FORM read_conditions." ++ [nl]
                   ++ lit "  CLEAR gt_cond." ++ [nl]
                   ++ lit "  DELETE FROM konv WHERE knumv = lv_knumv.");
     findings := None |}.


(** ** Vocabulary of the matcher's properties *)

(** the character before the position reached after reading [w] *)
Definition last_or (o : option char) (w : str) : option char :=
  match last w with Some c => Some c | None => o end.

(** [s] moved over the text [w], which leaves [t] to read *)
Definition jump (s : mstate) (w t : str) : mstate :=
  {| pos := List.length w + pos s; prev := last_or (prev s) w; rest := t;
     caps := caps s |}.

(** [s'] is [s] moved over [w], whatever groups were closed on the way *)
Definition steps (s : mstate) (w : str) (s' : mstate) : Prop :=
  rest s = w ++ rest s' /\ pos s' = List.length w + pos s /\
  prev s' = last_or (prev s) w.

(** the search position [(p, pv, txt)] lies in [src] *)
Definition position (src : str) (p : nat) (pv : option char) (txt : str)
  : Prop :=
  exists done, src = done ++ txt /\ p = List.length done /\ pv = last done.

(** [txt] begins with the literal [w], case-insensitively; the remainder *)
Fixpoint ci_prefix (w txt : str) : option str :=
  match w with
  | [] => Some txt
  | p :: w' =>
      match txt with
      | c :: tl => if ci_char p c then ci_prefix w' tl else None
      | [] => None
      end
  end.

(** the search continued after the current character *)
Definition scan_tail (r : regex) (k p : nat) (txt : str) : list rmatch :=
  match txt with
  | [] => []
  | c :: tl => scan r (Nat.pred k) (S p) (Some c) tl
  end.

(** the offsets from [p] on at which the pattern matches *)
Fixpoint starts_from (r : regex) (p : nat) (pv : option char) (txt : str)
  : list nat :=
  match match_here r p pv txt with Some _ => [p] | None => [] end
  ++ match txt with
     | [] => []
     | c :: tl => starts_from r (S p) (Some c) tl
     end.

(** the offsets of [src] at which the pattern matches *)
Definition match_starts (r : regex) (src : str) : list nat :=
  starts_from r 0 None src.

(** [lo <= c <= hi] *)
Definition in_range (lo hi : N) (c : char) : bool :=
  ((lo <=? c) && (c <=? hi))%N.

(** the code points below 128 *)
Definition ascii_chars : list char := map N.of_nat (seq 0 128).

(** the code points of a range of a table *)
Definition range_points (r : N * N) : list char :=
  let '(lo, hi) := r in
  map (fun k => (lo + N.of_nat k)%N) (seq 0 (S (N.to_nat (hi - lo)))).

(** the code points that a run of a table maps *)
Definition run_points (r : N * N * N * N) : list char :=
  let '(lo, hi, step, _) := r in
  map (fun k => (lo + step * N.of_nat k)%N)
      (seq 0 (S (N.to_nat ((hi - lo) / step)))).

(** the code points that [tolower] changes *)
Definition LOWER_SOURCES : list char := flat_map run_points LOWER.

(** the code points that [str.upper] changes *)
Definition UPPER_SOURCES : list char :=
  map fst UPPER_LONG ++ flat_map run_points UPPER.

(** a list that holds every character whose lower case is below 512 *)
Definition fold_candidates : list char :=
  map N.of_nat (seq 0 512)
  ++ List.filter (fun c => (tolower c <? 512)%N) LOWER_SOURCES.

(** a letter A-Z other than I *)
Definition letter_not_I (c : char) : bool :=
  in_range 65 90 c && negb (c =? 73)%N.

(** a word character below 128 *)
Definition ascii_word (c : char) : bool := (c <? 128)%N && is_word c.

(** KELVIN SIGN, LATIN SMALL LETTER LONG S, LATIN CAPITAL LETTER I WITH DOT
    ABOVE and LATIN SMALL LETTER DOTLESS I *)
Definition KELVIN_SIGN : char := 8490%N.
Definition LONG_S : char := 383%N.
Definition DOTTED_I : char := 304%N.
Definition DOTLESS_I : char := 305%N.

(** the characters that a pattern character [p] below 128 matches: itself
    when it is no letter, else the letter in both cases and, for I, K and S,
    the further code points that fold to it *)
Definition ascii_class (p : char) : list char :=
  let lo := if ((65 <=? p) && (p <=? 90))%N then (p + 32)%N else p in
  if ((97 <=? lo) && (lo <=? 122))%N
  then [(lo - 32)%N; lo]
       ++ (if (lo =? 105)%N then [DOTTED_I; DOTLESS_I]
           else if (lo =? 107)%N then [KELVIN_SIGN]
           else if (lo =? 115)%N then [LONG_S]
           else [])
  else [p].

(** ** Vocabulary of the claims *)

(** The unit's code occupies the lines [start_line .. end_line] of its file,
    one line per newline-separated segment of the text. *)
Definition line_metadata_accurate (u : Unit) (s e : Z) : Prop :=
  start_line u = Some s /\ end_line u = Some e /\
  e = (s + Z.of_nat (count_nl (or_empty (code u))))%Z.

(** [l] lies within [s .. e] or immediately after it *)
Definition within_or_just_after (s e : Z) (l : option Z) : Prop :=
  exists z, l = Some z /\ (s <= z <= e + 1)%Z.

Definition unit_of_code (s e : Z) (c : str) : Unit :=
  {| pgm_name := lit "ZPRICING"; inc_name := lit "ZPRICING_F01";
     type := lit "FORM"; name := Some (lit "READ_CONDITIONS");
     start_line := Some s; end_line := Some e; code := Some c;
     findings := None |}.

Definition unit_one_line : Unit :=
  unit_of_code 10 10 (lit "DELETE FROM konv WHERE knumv = lv_knumv.").

Definition store_103 : gmap nat Unit :=
  {[ 7 := set_findings unit_103 (Some []) ]}.

(** [w'] is the literal [w] up to case *)
Definition ci_eq (w w' : str) : Prop := ci_prefix w w' = Some [].

(** a non-empty run of white space *)
Definition spaces (w : str) : Prop := w <> [] /\ forallb is_space w = true.

(** the text ends with a character that is not a word character *)
Definition ends_non_word (w : str) : Prop :=
  exists c, last w = Some c /\ is_word c = false.

(** the statement-opening keyword sequences of the DML matcher *)
Definition dml_start (kw : str) : Prop :=
  (exists a b c, kw = a ++ b ++ c /\ ci_eq (lit "SELECT") a /\ b <> [] /\
                 ci_eq (lit "FROM") c)
  \/ (exists a b c, kw = a ++ b ++ c /\ ci_eq (lit "INSERT") a /\ spaces b /\
                    ci_eq (lit "INTO") c)
  \/ ci_eq (lit "UPDATE") kw
  \/ (exists a b c, kw = a ++ b ++ c /\ ci_eq (lit "DELETE") a /\ spaces b /\
                    ci_eq (lit "FROM") c).

(** At offset [p] of [src] a DML statement opens and is followed, at most
    1000 characters later, by KONV as a word of its own. *)
Definition dml_statement_on_konv (src : str) (p : nat) : Prop :=
  exists pre kw gap id post,
    src = pre ++ kw ++ gap ++ id ++ post /\ p = List.length pre /\
    dml_start kw /\ List.length gap <= 1000 /\ ends_non_word gap /\
    ci_eq (lit "KONV") id /\ is_word_opt (head post) = false.

Definition obsolete_ids : list str :=
  [lit "KONV"; lit "DZAEHK"; lit "DZAEKO"].

Fixpoint str_eqb (a b : str) : bool :=
  match a, b with
  | [], [] => true
  | x :: a', y :: b' => N.eqb x y && str_eqb a' b'
  | _, _ => false
  end.

Definition has_issue (t : string) (f : Finding) : bool :=
  match issues_type f with
  | Some i => str_eqb i (lit t)
  | None => false
  end.

(** at the start of [txt] the identifier [id], if present, runs on into a
    longer word *)
Definition followed_by_word (txt id : str) : bool :=
  match ci_prefix id txt with
  | Some (c :: _) => is_word c
  | Some [] => false
  | None => true
  end.

(** every occurrence of an obsolete identifier in [txt] is the beginning of
    a longer word *)
Fixpoint only_as_prefix (txt : str) : bool :=
  forallb (followed_by_word txt) obsolete_ids
  && match txt with
     | [] => true
     | _ :: tl => only_as_prefix tl
     end.


(** the declaration-opening keywords *)
Definition decl_keyword (kw : str) : Prop :=
  ci_eq (lit "DATA") kw \/ ci_eq (lit "TYPES") kw
  \/ ci_eq (lit "FIELD-SYMBOLS") kw \/ ci_eq (lit "CONSTANTS") kw.

Definition type_or_like (w : str) : Prop :=
  ci_eq (lit "TYPE") w \/ ci_eq (lit "LIKE") w.

(** the words TABLE and OF, each followed by white space *)
Definition table_of_words (w : str) : Prop :=
  exists a s1 b s2, w = a ++ s1 ++ b ++ s2 /\ ci_eq (lit "TABLE") a /\
                    spaces s1 /\ ci_eq (lit "OF") b /\ spaces s2.

(** the optional qualifier TABLE OF *)
Definition table_of (w : str) : Prop := w = [] \/ table_of_words w.

(** [[^.]] *)
Definition not_dot (c : char) : bool := negb (N.eqb c 46%N).

(** At offset [p] of [src] a declaration keyword opens a word and is
    followed, over characters of the class [body_char] only, by a TYPE or
    LIKE clause, optionally TABLE OF, that names the obsolete identifier
    [id] as a word of its own. *)
Definition declares (body_char : char -> bool) (src : str) (p : nat)
    (id : str) : Prop :=
  exists pre kw body tl ws tof idt post,
    src = pre ++ kw ++ body ++ tl ++ ws ++ tof ++ idt ++ post /\
    p = List.length pre /\ is_word_opt (last pre) = false /\
    decl_keyword kw /\
    forallb body_char body = true /\ ends_non_word body /\
    type_or_like tl /\ spaces ws /\ table_of tof /\
    In id obsolete_ids /\ ci_eq id idt /\ is_word_opt (head post) = false.

(** the message and suggestion of a declaration finding for the obsolete
    type [id] and the replacement [repl] *)
Definition type_message (id repl : str) : str :=
  id ++ lit " type is obsolete (SAP Note 2220005), use " ++ repl
  ++ lit " instead.".

Definition type_suggestion (repl : str) : str :=
  lit "Change the declaration using " ++ repl
  ++ lit " and adapt the logic accordingly.".

Definition type_replacements : list (str * str) :=
  [(lit "KONV", lit "PRCD_ELEMENTS");
   (lit "DZAEHK", lit "VFPRC_COND_COUNT");
   (lit "DZAEKO", lit "VFPRC_COND_COUNT_HEAD")].

Definition unit_two_lines : Unit :=
  unit_of_code 10 11
    (lit "DATA: lv_kbetr TYPE kbetr," ++ [nl]
     ++ lit "      lt_konv TYPE TABLE OF konv.").

Definition unit_chained : Unit :=
  unit_of_code 10 10
    (lit "DATA: lt_konv TYPE TABLE OF konv, ls_cnt TYPE dzaehk.").

(** the findings attached by the scan, the empty list when absent *)
Definition findings_list (u : Unit) : list Finding :=
  match findings (analyze_unit u) with Some fs => fs | None => [] end.





Definition unit_prefixes : Unit :=
  unit_of_code 10 11
    (lit "SELECT * FROM konvx INTO TABLE lt_x." ++ [nl]
     ++ lit "DATA ls_cnt TYPE dzaehk_t. TYPES ty TYPE TABLE OF dzaeko2.").

(** ** Vocabulary of further properties *)

(** [m.group(0)]: the text of the match *)
Definition matched_text (src : str) (m : rmatch) : str :=
  slice src (m_start m) (m_end m).

(** the spans come in increasing order and none overlaps a later one *)
Definition spans_in_order (ms : list rmatch) : Prop :=
  ForallOrdPairs (fun a b => m_end a <= m_start b) ms.

(** [a <= b] on reported line numbers *)
Definition line_le (a b : option Z) : Prop :=
  match a, b with
  | Some x, Some y => (x <= y)%Z
  | _, _ => False
  end.

Definition lines_in_order (fs : list Finding) : Prop :=
  ForallOrdPairs (fun f g => line_le (starting_line f) (starting_line g)) fs.

Definition set_start_line (u : Unit) (v : option Z) : Unit :=
  {| pgm_name := pgm_name u; inc_name := inc_name u; type := type u;
     name := name u; start_line := v; end_line := end_line u;
     code := code u; findings := findings u |}.

Definition set_code (u : Unit) (v : option str) : Unit :=
  {| pgm_name := pgm_name u; inc_name := inc_name u; type := type u;
     name := name u; start_line := start_line u; end_line := end_line u;
     code := v; findings := findings u |}.

(** the finding with both line numbers moved by [d] *)
Definition shift_lines (d : Z) (f : Finding) : Finding :=
  {| prog_name := prog_name f; incl_name := incl_name f; types := types f;
     blockname := blockname f;
     starting_line := option_map (Z.add d) (starting_line f);
     ending_line := option_map (Z.add d) (ending_line f);
     issues_type := issues_type f; severity := severity f;
     message := message f; suggestion := suggestion f;
     snippet := snippet f |}.

(** the letters A-Z turned into a-z, every other character kept *)
Definition ascii_lower (c : char) : char :=
  if ((65 <=? c) && (c <=? 90))%N then (c + 32)%N else c.

(** the text with its letters A-Z in lower case *)
Definition lower_letters (s : str) : str := map ascii_lower s.

(** the finding with the letters A-Z of its snippet in lower case *)
Definition lower_snippet (f : Finding) : Finding :=
  {| prog_name := prog_name f; incl_name := incl_name f; types := types f;
     blockname := blockname f;
     starting_line := starting_line f; ending_line := ending_line f;
     issues_type := issues_type f; severity := severity f;
     message := message f; suggestion := suggestion f;
     snippet := option_map lower_letters (snippet f) |}.

(** every character class of the pattern gives the same answer on a letter
    A-Z and on its lower case *)
Fixpoint case_blind (r : regex) : Prop :=
  match r with
  | Eps | Lit _ | WordB => True
  | Seq r1 r2 | Alt r1 r2 => case_blind r1 /\ case_blind r2
  | Rep _ _ _ f | NotAhead f => forall c, f (ascii_lower c) = f c
  | Opt r | Grp _ r => case_blind r
  end.

(** the matcher state over the text with its letters A-Z in lower case *)
Definition lower_state (s : mstate) : mstate :=
  {| pos := pos s; prev := option_map ascii_lower (prev s);
     rest := lower_letters (rest s); caps := caps s |}.

(** the part of [DECL_KONV_RE] after the lazy body: the TYPE or LIKE clause
    that names the obsolete type *)
Definition DECL_CLAUSE : regex :=
  WordB +> (Lit (lit "TYPE") </> Lit (lit "LIKE")) +> WordB
  +> Rep true 0 None is_space
  +> Opt TABLE_OF
  +> Grp "dtype" DTYPE
  +> WordB.


(** [src] reads, after [pre], as a declaration keyword [kw], a body without
    full stop and newline, TYPE or LIKE, blanks, the optional TABLE OF and
    the obsolete type [id] as a word of its own, written [idt] *)
Definition decl_reading (src pre kw body tl ws tof id idt post : str)
  : Prop :=
  src = pre ++ kw ++ body ++ tl ++ ws ++ tof ++ idt ++ post /\
  decl_keyword kw /\ forallb not_dot_nl body = true /\ ends_non_word body /\
  type_or_like tl /\ spaces ws /\ table_of tof /\
  In id obsolete_ids /\ ci_eq id idt /\ is_word_opt (head post) = false.


Definition unit_kelvin_type : Unit :=
  unit_of_code 10 10 (lit "DATA x TYPE dzaeh" ++ [KELVIN_SIGN] ++ lit ".").
(** ** Basic facts about texts *)

Lemma count_nl_app (a b : str) : count_nl (a ++ b) = count_nl a + count_nl b.
Proof.
  unfold count_nl. rewrite List.filter_app, List.length_app. reflexivity.
Qed.

Lemma slice_0 (s : str) (n : nat) : slice s 0 n = firstn n s.
Proof. unfold slice. rewrite Nat.sub_0_r. reflexivity. Qed.

Lemma has_nl_false_count (s : str) : has_nl s = false -> count_nl s = 0.
Proof.
  unfold has_nl, count_nl. induction s as [|c s IH]; simpl; [reflexivity|].
  destruct (is_nl c); simpl; [discriminate|exact IH].
Qed.

Lemma count_nl_0_has_nl (s : str) : count_nl s = 0 -> has_nl s = false.
Proof.
  unfold has_nl, count_nl. induction s as [|c s IH]; simpl; [reflexivity|].
  destruct (is_nl c); simpl; [discriminate|exact IH].
Qed.

Lemma has_nl_cons (c : char) (s : str) :
  has_nl (c :: s) = is_nl c || has_nl s.
Proof. reflexivity. Qed.

Lemma has_nl_app (a b : str) : has_nl (a ++ b) = has_nl a || has_nl b.
Proof. unfold has_nl. apply existsb_app. Qed.

(** ** The two loops as maps *)

Lemma fold_snoc {A B : Type} (g : A -> B) (l : list A) (acc : list B) :
  fold_left (fun acc m => acc ++ [g m]) l acc = acc ++ map g l.
Proof.
  revert acc. induction l as [|x l IH]; intros acc; simpl.
  - now rewrite app_nil_r.
  - rewrite IH, <- app_assoc. reflexivity.
Qed.

Lemma collect_findings_maps (u : Unit) :
  collect_findings u =
    map (table_finding u (or_empty (code u)))
        (finditer SQL_KONV_RE (or_empty (code u)))
    ++ map (type_finding u (or_empty (code u)))
           (finditer DECL_KONV_RE (or_empty (code u))).
Proof. unfold collect_findings. rewrite !fold_snoc. reflexivity. Qed.

Lemma collect_findings_tagged (u : Unit) :
  collect_findings u = map (finding_of u) (tagged_matches (or_empty (code u))).
Proof.
  rewrite collect_findings_maps. unfold tagged_matches.
  rewrite List.map_app, !List.map_map. reflexivity.
Qed.

Lemma the_match_tagged (src : str) :
  map the_match (tagged_matches src) = all_matches src.
Proof.
  unfold tagged_matches, all_matches.
  rewrite List.map_app, !List.map_map, !List.map_id. reflexivity.
Qed.

Lemma or_none_spec (fs : list Finding) :
  (or_none fs = None <-> fs = []) /\ or_none fs <> Some [] /\
  (forall l, or_none fs = Some l -> l = fs).
Proof.
  destruct fs; simpl; repeat split; intros; try congruence.
Qed.

Lemma emitted_collect (u : Unit) (f : Finding) :
  emitted u f <-> In f (collect_findings u).
Proof.
  unfold emitted, analyze_unit. simpl. split.
  - intros (fs & H & Hin). apply or_none_spec in H. now subst.
  - intros Hin. exists (collect_findings u). split; [|exact Hin].
    destruct (collect_findings u); [destruct Hin|reflexivity].
Qed.

Lemma emitted_tagged (u : Unit) (f : Finding) :
  emitted u f <->
  exists m, In m (tagged_matches (or_empty (code u))) /\ f = finding_of u m.
Proof.
  rewrite emitted_collect, collect_findings_tagged, in_map_iff.
  split; intros (m & H1 & H2); exists m; auto.
Qed.

Lemma collect_findings_ignores_findings (u : Unit) (v : option (list Finding)) :
  collect_findings (set_findings u v) = collect_findings u.
Proof. reflexivity. Qed.

(** ** Lines of a text *)

Lemma slice_middle (x y z : str) :
  slice (x ++ y ++ z) (List.length x) (List.length y + List.length x) = y.
Proof.
  unfold slice. rewrite drop_app_length.
  replace (List.length y + List.length x - List.length x) with (List.length y)
    by lia.
  apply take_app_length.
Qed.

Lemma split3 (text : str) (a b : nat) :
  a <= b <= List.length text ->
  text = firstn a text ++ slice text a b ++ skipn b text /\
  List.length (firstn a text) = a /\ List.length (slice text a b) = b - a.
Proof.
  intros H. unfold slice. repeat split.
  - rewrite <- (firstn_skipn a text) at 1. f_equal.
    rewrite <- (firstn_skipn (b - a) (skipn a text)) at 1. f_equal.
    rewrite skipn_skipn. f_equal. lia.
  - rewrite List.length_firstn. lia.
  - rewrite List.length_firstn, List.length_skipn. lia.
Qed.

Lemma rindex_nl_spec (l : str) :
  match rindex_nl l with
  | None => has_nl l = false
  | Some i => exists a b, l = a ++ nl :: b /\ List.length a = i /\
                          has_nl b = false
  end.
Proof.
  induction l as [|c l IH]; cbn [rindex_nl]; [reflexivity|].
  destruct (rindex_nl l) as [i|].
  - destruct IH as (a & b & -> & <- & Hb). exists (c :: a), b. auto.
  - destruct (is_nl c) eqn:E.
    + apply N.eqb_eq in E. subst. exists [], l. auto.
    + rewrite has_nl_cons, E. exact IH.
Qed.

Lemma index_nl_spec (l : str) :
  match index_nl l with
  | None => has_nl l = false
  | Some j => exists a b, l = a ++ nl :: b /\ List.length a = j /\
                          has_nl a = false
  end.
Proof.
  induction l as [|c l IH]; cbn [index_nl]; [reflexivity|].
  destruct (is_nl c) eqn:E.
  - apply N.eqb_eq in E. subst. exists [], l. auto.
  - destruct (index_nl l) as [j|]; cbn [option_map].
    + destruct IH as (a & b & -> & <- & Ha). exists (c :: a), b.
      repeat split. rewrite has_nl_cons, E. exact Ha.
    + rewrite has_nl_cons, E. exact IH.
Qed.

(** The extracted line of a span [M] between [A] and [D]: the end of [A]
    after its last newline, [M], and the beginning of [D] before its first
    newline. *)
Lemma snippet_parts (A M D : str) :
  exists pre a d post,
    A = pre ++ a /\ D = d ++ post /\ has_nl a = false /\ has_nl d = false /\
    (pre = [] \/ exists pre', pre = pre' ++ [nl]) /\
    (post = [] \/ exists post', post = nl :: post') /\
    get_line_snippet (A ++ M ++ D) (List.length A)
      (List.length M + List.length A) = a ++ M ++ d.
Proof.
  unfold get_line_snippet, rfind_nl, find_nl.
  rewrite take_app_length.
  replace (skipn (List.length M + List.length A) (A ++ M ++ D)) with D.
  2:{ rewrite List.app_assoc.
      replace (List.length M + List.length A) with (List.length (A ++ M))
        by (rewrite List.length_app; lia).
      now rewrite drop_app_length. }
  pose proof (rindex_nl_spec A) as HA. pose proof (index_nl_spec D) as HD.
  destruct (rindex_nl A) as [i|]; destruct (index_nl D) as [j|]; simpl.
  - destruct HA as (a0 & a & -> & <- & Ha).
    destruct HD as (d & post & -> & <- & Hd).
    exists (a0 ++ [nl]), a, d, (nl :: post).
    split; [now rewrite <- List.app_assoc|]. split; [reflexivity|].
    split; [exact Ha|]. split; [exact Hd|].
    split; [right; eauto|]. split; [right; eauto|].
    replace ((a0 ++ nl :: a) ++ M ++ d ++ nl :: post)
      with ((a0 ++ [nl]) ++ (a ++ M ++ d) ++ nl :: post)
      by (now rewrite <- !List.app_assoc).
    transitivity (slice ((a0 ++ [nl]) ++ (a ++ M ++ d) ++ (nl :: post)) (List.length (a0 ++ [nl]))
                    (List.length (a ++ M ++ d) + List.length (a0 ++ [nl])));
      [|apply slice_middle].
    f_equal; rewrite !List.length_app; simpl; lia.
  - destruct HA as (a0 & a & -> & <- & Ha).
    exists (a0 ++ [nl]), a, D, [].
    split; [now rewrite <- List.app_assoc|].
    split; [now rewrite List.app_nil_r|].
    split; [exact Ha|]. split; [exact HD|].
    split; [right; eauto|]. split; [now left|].
    replace ((a0 ++ nl :: a) ++ M ++ D)
      with ((a0 ++ [nl]) ++ (a ++ M ++ D) ++ [])
      by (now rewrite List.app_nil_r, <- !List.app_assoc).
    transitivity (slice ((a0 ++ [nl]) ++ (a ++ M ++ D) ++ []) (List.length (a0 ++ [nl]))
                    (List.length (a ++ M ++ D) + List.length (a0 ++ [nl])));
      [|apply slice_middle].
    f_equal; rewrite !List.length_app; simpl; lia.
  - destruct HD as (d & post & -> & <- & Hd).
    exists [], A, d, (nl :: post).
    split; [reflexivity|]. split; [reflexivity|].
    split; [exact HA|]. split; [exact Hd|].
    split; [now left|]. split; [right; eauto|].
    replace (A ++ M ++ d ++ nl :: post)
      with ([] ++ (A ++ M ++ d) ++ nl :: post)
      by (now rewrite <- !List.app_assoc).
    transitivity (slice (@nil char ++ (A ++ M ++ d) ++ (nl :: post)) (List.length (@nil char))
                    (List.length (A ++ M ++ d) + List.length (@nil char)));
      [|apply slice_middle].
    f_equal; rewrite !List.length_app; simpl; lia.
  - exists [], A, D, [].
    split; [reflexivity|]. split; [now rewrite List.app_nil_r|].
    split; [exact HA|]. split; [exact HD|].
    split; [now left|]. split; [now left|].
    replace (A ++ M ++ D) with ([] ++ (A ++ M ++ D) ++ []) at 1
      by (simpl; rewrite List.app_nil_r; reflexivity).
    transitivity (slice (@nil char ++ (A ++ M ++ D) ++ []) (List.length (@nil char))
                    (List.length (A ++ M ++ D) + List.length (@nil char)));
      [|apply slice_middle].
    f_equal; rewrite !List.length_app; simpl; lia.
Qed.

Lemma escape_nl_cons (c : char) (s : str) :
  escape_nl (c :: s) = (if is_nl c then lit "\n" else [c]) ++ escape_nl s.
Proof. reflexivity. Qed.

Lemma escape_nl_no_nl (s : str) : has_nl (escape_nl s) = false.
Proof.
  induction s as [|c s IH]; [reflexivity|].
  rewrite escape_nl_cons, has_nl_app, IH.
  destruct (is_nl c) eqn:E; [reflexivity|].
  rewrite has_nl_cons, E. reflexivity.
Qed.

Lemma escape_nl_id (s : str) : has_nl s = false -> escape_nl s = s.
Proof.
  induction s as [|c s IH]; [reflexivity|].
  rewrite has_nl_cons, escape_nl_cons.
  destruct (is_nl c); [discriminate|]. intros H. now rewrite IH.
Qed.

Lemma escape_nl_app (a b : str) :
  escape_nl (a ++ b) = escape_nl a ++ escape_nl b.
Proof. unfold escape_nl. apply flat_map_app. Qed.

Lemma get_line_snippet_spec (text : str) (a b : nat) :
  a <= b <= List.length text ->
  let line := get_line_snippet text a b in
  exists pre post,
    text = pre ++ line ++ post /\
    (pre = [] \/ exists pre', pre = pre' ++ [nl]) /\
    (post = [] \/ exists post', post = nl :: post') /\
    List.length pre <= a /\ b <= List.length pre + List.length line /\
    count_nl (slice text 0 a) = count_nl pre /\
    count_nl line = count_nl (slice text a b) /\
    (has_nl (slice text a b) = false -> has_nl line = false).
Proof.
  intros H line. destruct (split3 text a b H) as (E & La & Lm).
  remember (firstn a text) as A eqn:EA'.
  remember (slice text a b) as M eqn:EM'.
  remember (skipn b text) as D eqn:ED'.
  destruct (snippet_parts A M D)
    as (pre & x & d & post & EA & ED & Hx & Hd & Hpre & Hpost & Hs).
  rewrite <- E, La, Lm in Hs. replace (b - a + a) with b in Hs by lia.
  fold line in Hs. exists pre, post.
  split; [rewrite Hs, E, EA, ED, <- !List.app_assoc; reflexivity|].
  split; [exact Hpre|]. split; [exact Hpost|].
  split; [rewrite <- La, EA, List.length_app; lia|].
  split; [rewrite Hs, !List.length_app;
          assert (List.length A = List.length pre + List.length x)
            by (rewrite EA, List.length_app; reflexivity); lia|].
  split; [rewrite slice_0, <- EA', EA, count_nl_app,
            (has_nl_false_count x Hx); lia|].
  split; [rewrite Hs, !count_nl_app, (has_nl_false_count x Hx),
            (has_nl_false_count d Hd); lia|].
  intros HM. rewrite Hs, !has_nl_app, Hx, HM, Hd. reflexivity.
Qed.
(** ** Characters *)

Lemma in_range_points (lo hi c : N) :
  (lo <= c <= hi)%N -> In c (range_points (lo, hi)).
Proof.
  intros H. unfold range_points. apply in_map_iff.
  exists (N.to_nat (c - lo)). split; [rewrite N2Nat.id; lia|].
  apply in_seq. lia.
Qed.

Lemma in_ranges_points (l : list (N * N)) (c : char) :
  in_ranges l c = true -> In c (flat_map range_points l).
Proof.
  induction l as [|[lo hi] l IH]; cbn [in_ranges flat_map]; [discriminate|].
  destruct (N.ltb_spec c lo); [discriminate|].
  destruct (N.leb_spec c hi); intros H'; apply in_app_iff.
  - left. apply in_range_points. lia.
  - right. now apply IH.
Qed.

Lemma in_run_points (lo hi step image c : N) :
  (lo <= c <= hi)%N -> ((c - lo) mod step = 0)%N ->
  In c (run_points (lo, hi, step, image)).
Proof.
  intros H Hm. unfold run_points. apply in_map_iff.
  exists (N.to_nat ((c - lo) / step)). split.
  - rewrite N2Nat.id. destruct (N.eq_dec step 0%N) as [->|Hs].
    + destruct (c - lo)%N eqn:E; [lia|simpl in Hm; discriminate].
    + pose proof (N.Div0.div_mod (c - lo) step) as E. rewrite Hm in E.
      set (q := ((c - lo) / step)%N) in *.
      set (m := (step * q)%N) in *. clearbody m. clear Hm. lia.
  - apply in_seq. split; [apply Nat.le_0_l|].
    assert (Hq : ((c - lo) / step <= (hi - lo) / step)%N)
      by (apply N.Div0.div_le_mono; lia).
    set (q1 := ((c - lo) / step)%N) in *.
    set (q2 := ((hi - lo) / step)%N) in *. clearbody q1 q2. simpl. lia.
Qed.

Lemma run_lookup_points (l : list (N * N * N * N)) (c v : char) :
  run_lookup l c = Some v -> In c (flat_map run_points l).
Proof.
  induction l as [|[[[lo hi] step] image] l IH]; cbn [run_lookup flat_map];
    [discriminate|].
  destruct (N.ltb_spec c lo); [discriminate|].
  destruct ((c <=? hi) && ((c - lo) mod step =? 0))%N eqn:E; intros H';
    apply in_app_iff.
  - left. apply andb_true_iff in E as (E1 & E2).
    apply N.leb_le in E1. apply N.eqb_eq in E2.
    apply in_run_points; [lia|exact E2].
  - right. now apply IH.
Qed.

Lemma tolower_cases (c : char) : tolower c = c \/ In c LOWER_SOURCES.
Proof.
  unfold tolower, LOWER_SOURCES.
  destruct (run_lookup LOWER c) as [v|] eqn:E; [right|now left].
  eapply run_lookup_points, E.
Qed.

Lemma fold_candidates_complete (c : char) :
  (tolower c < 512)%N -> In c fold_candidates.
Proof.
  intros H. unfold fold_candidates. apply in_app_iff.
  destruct (tolower_cases c) as [E|E].
  - left. rewrite E in H. apply in_map_iff.
    exists (N.to_nat c). split; [apply N2Nat.id|]. apply in_seq. lia.
  - right. apply filter_In. split; [exact E|]. now apply N.ltb_lt.
Qed.

Lemma ascii_chars_complete (p : char) : (p < 128)%N -> In p ascii_chars.
Proof.
  intros H. unfold ascii_chars. apply in_map_iff.
  exists (N.to_nat p). split; [apply N2Nat.id|]. apply in_seq. lia.
Qed.

(** a pattern character below 128 is matched by characters whose lower
    case is below 512 only *)
Lemma ci_char_fold (p c : char) :
  (p < 128)%N -> ci_char p c = true -> (tolower c < 512)%N.
Proof.
  intros Hp Hc.
  assert (H : forallb (fun p => forallb (fun t => (t <? 512)%N)
                (tolower p :: case_fixes (tolower p))) ascii_chars = true)
    by (vm_compute; reflexivity).
  rewrite forallb_forall in H.
  specialize (H p (ascii_chars_complete p Hp)).
  rewrite forallb_forall in H.
  unfold ci_char in Hc. destruct (iscased p).
  - cbv zeta in Hc. apply N.ltb_lt, H. apply orb_true_iff in Hc as [Hc|Hc].
    + apply N.eqb_eq in Hc. rewrite Hc. now left.
    + apply existsb_exists in Hc as (x & Hx & E). apply N.eqb_eq in E.
      subst x. now right.
  - apply N.eqb_eq in Hc. subst c. apply N.ltb_lt, H. now left.
Qed.

(** what a pattern character below 128 matches *)
Lemma ci_char_ascii (p c : char) :
  (p < 128)%N -> ci_char p c = true -> In c (ascii_class p).
Proof.
  intros Hp Hc.
  assert (H : forallb (fun c => forallb (fun p =>
                implb (ci_char p c) (existsb (N.eqb c) (ascii_class p)))
                ascii_chars) fold_candidates = true)
    by (vm_compute; reflexivity).
  rewrite forallb_forall in H.
  specialize (H c (fold_candidates_complete c (ci_char_fold p c Hp Hc))).
  rewrite forallb_forall in H.
  specialize (H p (ascii_chars_complete p Hp)).
  rewrite Hc in H. cbn [implb] in H.
  apply existsb_exists in H as (x & Hx & E). apply N.eqb_eq in E. now subst.
Qed.

(** a property of every pair of a pattern character below 128 and a
    character it matches, checked on the finitely many pairs *)
Lemma for_ascii_class (P : char -> char -> bool) :
  forallb (fun p => forallb (P p) (ascii_class p)) ascii_chars = true ->
  forall p c, (p < 128)%N -> ci_char p c = true -> P p c = true.
Proof.
  intros H p c Hp Hc. rewrite forallb_forall in H.
  specialize (H p (ascii_chars_complete p Hp)).
  rewrite forallb_forall in H. apply H. now apply ci_char_ascii.
Qed.

Lemma ascii_class_matches (p c : char) :
  (p < 128)%N -> In c (ascii_class p) -> ci_char p c = true.
Proof.
  intros Hp Hc.
  assert (H : forallb (fun p => forallb (ci_char p) (ascii_class p))
                ascii_chars = true) by (vm_compute; reflexivity).
  rewrite forallb_forall in H.
  specialize (H p (ascii_chars_complete p Hp)).
  rewrite forallb_forall in H. now apply H.
Qed.

Lemma ci_char_word (p c : char) :
  (p < 128)%N -> ci_char p c = true -> is_word c = is_word p.
Proof.
  intros Hp Hc. apply Bool.eqb_prop.
  exact (for_ascii_class (fun p c => Bool.eqb (is_word c) (is_word p))
           ltac:(vm_compute; reflexivity) p c Hp Hc).
Qed.

(** a letter A-Z other than I is matched by characters whose upper case is
    that letter, and by the Kelvin sign, which [str.upper] leaves as it is *)
Lemma ci_char_upper (p c : char) :
  ci_char p c = true -> letter_not_I p = true -> c <> KELVIN_SIGN ->
  upper c = [p].
Proof.
  intros Hc Hr Hk.
  assert (Hp : (p < 128)%N).
  { unfold letter_not_I, in_range in Hr.
    apply andb_true_iff in Hr as (Hr & _).
    apply andb_true_iff in Hr as (_ & Hr). apply N.leb_le in Hr. lia. }
  pose proof (for_ascii_class
    (fun p c => implb (letter_not_I p)
                  ((c =? KELVIN_SIGN)%N
                   || match upper c with
                      | [u] => (u =? p)%N
                      | _ => false
                      end))
    ltac:(vm_compute; reflexivity) p c Hp Hc) as H.
  cbv beta in H. rewrite Hr in H. cbn [implb] in H.
  apply orb_true_iff in H as [H|H].
  - apply N.eqb_eq in H. contradiction.
  - destruct (upper c) as [|u [|]]; try discriminate.
    apply N.eqb_eq in H. now subst.
Qed.

Lemma upper_kelvin : upper KELVIN_SIGN = [KELVIN_SIGN].
Proof. vm_compute. reflexivity. Qed.

Lemma str_upper_kelvin (a : str) :
  In KELVIN_SIGN a -> In KELVIN_SIGN (str_upper a).
Proof.
  intros H. unfold str_upper. apply in_flat_map. exists KELVIN_SIGN.
  split; [exact H|]. rewrite upper_kelvin. now left.
Qed.

Lemma is_nl_eq (c : char) : is_nl c = true <-> c = nl.
Proof. apply N.eqb_eq. Qed.

(** ** The matcher moves forward through the text *)

Lemma last_or_app (o : option char) (w1 w2 : str) :
  last_or (last_or o w1) w2 = last_or o (w1 ++ w2).
Proof. unfold last_or. rewrite last_app. destruct (last w2); reflexivity. Qed.

Lemma last_or_cons (o : option char) (c : char) (w : str) :
  last_or o (c :: w) = last_or (Some c) w.
Proof. apply (eq_sym (last_or_app o [c] w)). Qed.

Lemma adv_jump (s : mstate) (c : char) (tl : str) : adv s c tl = jump s [c] tl.
Proof. reflexivity. Qed.

Lemma jump_jump (s : mstate) (w1 t1 w2 t2 : str) :
  jump (jump s w1 t1) w2 t2 = jump s (w1 ++ w2) t2.
Proof.
  unfold jump. simpl. rewrite last_or_app, List.length_app. f_equal. lia.
Qed.

Lemma jump_nil (s : mstate) : jump s [] (rest s) = s.
Proof. destruct s. reflexivity. Qed.

Lemma steps_refl (s : mstate) : steps s [] s.
Proof. repeat split. Qed.

Lemma steps_trans (s s1 s2 : mstate) (w1 w2 : str) :
  steps s w1 s1 -> steps s1 w2 s2 -> steps s (w1 ++ w2) s2.
Proof.
  intros (H1 & H2 & H3) (H4 & H5 & H6). repeat split.
  - rewrite H1, H4, List.app_assoc. reflexivity.
  - rewrite H5, H2, List.length_app. lia.
  - rewrite H6, H3. apply last_or_app.
Qed.

Lemma steps_jump (s : mstate) (w t : str) :
  rest s = w ++ t -> steps s w (jump s w t).
Proof. intros H. repeat split. exact H. Qed.

Lemma steps_set_cap (s s' : mstate) (w : str) (n : string) (sp : nat * nat) :
  steps s w s' -> steps s w (set_cap n sp s').
Proof. intros H. exact H. Qed.

Lemma steps_pos (s s' : mstate) (w : str) : steps s w s' -> pos s <= pos s'.
Proof. intros (_ & H & _). lia. Qed.

(** *** Literals *)

Lemma ci_prefix_spec (w : str) : forall txt t,
  ci_prefix w txt = Some t ->
  exists w', txt = w' ++ t /\ List.length w' = List.length w /\
             Forall2 (fun p c => ci_char p c = true) w w'.
Proof.
  induction w as [|p w IH]; intros txt t H; simpl in H.
  - inversion H. exists []. repeat split. constructor.
  - destruct txt as [|c tl]; [discriminate|].
    destruct (ci_char p c) eqn:E; [|discriminate].
    apply IH in H as (w' & -> & Hl & HF). exists (c :: w').
    repeat split; simpl; [congruence|]. constructor; assumption.
Qed.

Lemma ci_prefix_complete (w : str) : forall w' t,
  Forall2 (fun p c => ci_char p c = true) w w' ->
  ci_prefix w (w' ++ t) = Some t.
Proof.
  induction w as [|p w IH]; intros w' t HF; inversion HF; subst; simpl.
  - reflexivity.
  - rewrite H1. apply IH. assumption.
Qed.

Lemma run_lit_spec (w : str) : forall s s',
  run_lit w s = Some s' ->
  exists w', ci_prefix w (rest s) = Some (rest s') /\
             rest s = w' ++ rest s' /\ List.length w' = List.length w /\
             Forall2 (fun p c => ci_char p c = true) w w' /\
             s' = jump s w' (rest s').
Proof.
  induction w as [|p w IH]; intros s s' H; simpl in H.
  - inversion H; subst. exists []. repeat split; [constructor|].
    symmetry. apply jump_nil.
  - destruct (rest s) as [|c tl] eqn:E; [discriminate|].
    destruct (ci_char p c) eqn:Ec; [|discriminate].
    apply IH in H as (w' & H1 & H2 & H3 & H4 & H5). simpl in H1, H2.
    exists (c :: w'). simpl. rewrite Ec. repeat split.
    + exact H1.
    + now rewrite H2.
    + now rewrite H3.
    + constructor; assumption.
    + rewrite H5 at 1. rewrite adv_jump, jump_jump. reflexivity.
Qed.

Lemma run_lit_complete (w : str) : forall s w' t,
  rest s = w' ++ t ->
  Forall2 (fun p c => ci_char p c = true) w w' ->
  run_lit w s = Some (jump s w' t).
Proof.
  induction w as [|p w IH]; intros s w' t Hr HF; inversion HF; subst; simpl.
  - simpl in Hr. rewrite <- Hr. now rewrite jump_nil.
  - rewrite Hr. simpl. rewrite H1.
    rewrite (IH (adv s y (l' ++ t)) l' t eq_refl H3).
    rewrite adv_jump, jump_jump. reflexivity.
Qed.

(** *** Repetitions of a character class *)

Lemma rep_states_spec (f : char -> bool) (n : nat) : forall k s s',
  In s' (skipn k (rep_states f n s)) ->
  exists w, rest s = w ++ rest s' /\ forallb f w = true /\
            k <= List.length w <= n /\ s' = jump s w (rest s').
Proof.
  induction n as [|n IH]; intros k s s' H.
  - destruct k as [|k]; simpl in H; [|rewrite skipn_nil in H; destruct H].
    destruct H as [<-|[]]. exists []. repeat split; try (simpl; lia).
    symmetry. apply jump_nil.
  - cbn [rep_states] in H.
    assert (Htl : In s' (skipn (Nat.pred k)
                     match rest s with
                     | [] => []
                     | c :: tl => if f c then rep_states f n (adv s c tl) else []
                     end) ->
                 exists w, rest s = w ++ rest s' /\ forallb f w = true /\
                   S (Nat.pred k) <= List.length w <= S n /\
                   s' = jump s w (rest s')).
    { intros Hin. destruct (rest s) as [|c tl] eqn:E;
        [rewrite skipn_nil in Hin; destruct Hin|].
      destruct (f c) eqn:Ef; [|rewrite skipn_nil in Hin; destruct Hin].
      apply IH in Hin as (w & H1 & H2 & H3 & H4). simpl in H1.
      exists (c :: w). simpl. rewrite Ef, H2. repeat split; try lia.
      - now rewrite H1.
      - rewrite H4 at 1. rewrite adv_jump, jump_jump. reflexivity. }
    destruct k as [|k].
    + simpl in H. destruct H as [<-|H].
      * exists []. repeat split; try (simpl; lia). symmetry. apply jump_nil.
      * destruct (Htl H) as (w & H1 & H2 & H3 & H4).
        exists w. repeat split; try assumption; lia.
    + simpl in H. destruct (Htl H) as (w & H1 & H2 & H3 & H4).
      exists w. repeat split; try assumption; simpl in H3; lia.
Qed.

Lemma rep_states_complete (f : char -> bool) : forall w n s t,
  rest s = w ++ t -> forallb f w = true -> List.length w <= n ->
  nth_error (rep_states f n s) (List.length w) = Some (jump s w t).
Proof.
  induction w as [|c w IH]; intros n s t Hr Hf Hn.
  - simpl in Hr. rewrite <- Hr, jump_nil. destruct n; reflexivity.
  - destruct n as [|n]; [simpl in Hn; lia|].
    simpl in Hf. apply andb_true_iff in Hf as (Hc & Hf).
    cbn [rep_states List.length nth_error]. rewrite Hr. simpl. rewrite Hc.
    rewrite (IH n (adv s c (w ++ t)) t eq_refl Hf) by (simpl in Hn; lia).
    rewrite adv_jump, jump_jump. reflexivity.
Qed.

(** *** Membership in [mrun], constructor by constructor *)

Lemma in_mrun_seq (r1 r2 : regex) (s s' : mstate) :
  In s' (mrun (Seq r1 r2) s) <->
  exists s1, In s1 (mrun r1 s) /\ In s' (mrun r2 s1).
Proof. simpl. apply in_flat_map. Qed.

Lemma in_mrun_alt (r1 r2 : regex) (s s' : mstate) :
  In s' (mrun (Alt r1 r2) s) <-> In s' (mrun r1 s) \/ In s' (mrun r2 s).
Proof. simpl. apply in_app_iff. Qed.

Lemma in_mrun_lit (w : str) (s s' : mstate) :
  In s' (mrun (Lit w) s) <-> run_lit w s = Some s'.
Proof.
  simpl. destruct (run_lit w s); simpl; split;
    intros H; try (destruct H as [->|[]]); try (inversion H); auto; easy.
Qed.

Lemma in_mrun_rep (g : bool) (lo : nat) (hi : option nat) (f : char -> bool)
    (s s' : mstate) :
  In s' (mrun (Rep g lo hi f) s) <->
  In s' (skipn lo (rep_states f (rep_bound hi s) s)).
Proof. simpl. destruct g; [symmetry; apply in_rev|reflexivity]. Qed.

Lemma in_mrun_opt (r : regex) (s s' : mstate) :
  In s' (mrun (Opt r) s) <-> In s' (mrun r s) \/ s' = s.
Proof. simpl. rewrite in_app_iff. simpl. intuition. Qed.

Lemma in_mrun_wordb (s s' : mstate) :
  In s' (mrun WordB s) <-> s' = s /\ at_boundary s = true.
Proof. simpl. destruct (at_boundary s); simpl; intuition; discriminate. Qed.

Lemma in_mrun_notahead (f : char -> bool) (s s' : mstate) :
  In s' (mrun (NotAhead f) s) <->
  s' = s /\ match rest s with c :: _ => f c = false | [] => True end.
Proof.
  simpl. destruct (rest s) as [|c tl]; [simpl; intuition|].
  destruct (f c); simpl; intuition; discriminate.
Qed.

Lemma in_mrun_grp (n : string) (r : regex) (s s' : mstate) :
  In s' (mrun (Grp n r) s) <->
  exists s1, In s1 (mrun r s) /\ s' = set_cap n (pos s, pos s1) s1.
Proof.
  simpl. rewrite in_map_iff. split; intros (s1 & H1 & H2); exists s1; auto.
Qed.

Lemma mrun_steps (r : regex) : forall s s',
  In s' (mrun r s) -> exists w, steps s w s'.
Proof.
  induction r as [|w|r1 IH1 r2 IH2|r1 IH1 r2 IH2|g lo hi f|r IH| |f|n r IH];
    intros s s' H.
  - destruct H as [<-|[]]. exists []. apply steps_refl.
  - apply in_mrun_lit, run_lit_spec in H as (w' & _ & H & _ & _ & ->).
    exists w'. now apply steps_jump.
  - apply in_mrun_seq in H as (s1 & H1 & H2).
    apply IH1 in H1 as (w1 & H1). apply IH2 in H2 as (w2 & H2).
    exists (w1 ++ w2). eapply steps_trans; eassumption.
  - apply in_mrun_alt in H as [H|H]; eauto.
  - apply in_mrun_rep, rep_states_spec in H as (w & H & _ & _ & ->).
    exists w. now apply steps_jump.
  - apply in_mrun_opt in H as [H| ->]; [eauto|]. exists []. apply steps_refl.
  - apply in_mrun_wordb in H as (-> & _). exists []. apply steps_refl.
  - apply in_mrun_notahead in H as (-> & _). exists []. apply steps_refl.
  - apply in_mrun_grp in H as (s1 & H1 & ->). apply IH in H1 as (w & H1).
    exists w. apply steps_set_cap. exact H1.
Qed.

(** ** Properties of the search *)

Lemma position_start (src : str) : position src 0 None src.
Proof. exists []. repeat split. Qed.

Lemma position_next (src : str) (p : nat) (pv : option char) (c : char)
    (tl : str) :
  position src p pv (c :: tl) -> position src (S p) (Some c) tl.
Proof.
  intros (done & -> & -> & ->). exists (done ++ [c]). repeat split.
  - now rewrite <- List.app_assoc.
  - rewrite List.length_app. simpl. lia.
  - now rewrite last_snoc.
Qed.

Lemma scan_eq (r : regex) (skip p : nat) (pv : option char) (txt : str) :
  scan r skip p pv txt =
  match match skip with 0 => match_here r p pv txt | S _ => None end with
  | Some m => m :: scan_tail r (m_end m - p) p txt
  | None => scan_tail r skip p txt
  end.
Proof. destruct txt; reflexivity. Qed.

Lemma match_here_start (r : regex) (p : nat) (pv : option char) (txt : str)
    (m : rmatch) :
  match_here r p pv txt = Some m -> m_start m = p.
Proof.
  unfold match_here. destruct (mrun r _); intros H; inversion H. reflexivity.
Qed.

Lemma match_here_state (r : regex) (p : nat) (pv : option char) (txt : str)
    (m : rmatch) :
  match_here r p pv txt = Some m ->
  exists s', In s' (mrun r {| pos := p; prev := pv; rest := txt; caps := ∅ |})
             /\ m_end m = pos s' /\ m_groups m = caps s'.
Proof.
  unfold match_here. destruct (mrun r _) as [|s' l]; intros H; inversion H.
  exists s'. repeat split. now left.
Qed.

Lemma match_here_some (r : regex) (p : nat) (pv : option char) (txt : str)
    (s' : mstate) :
  In s' (mrun r {| pos := p; prev := pv; rest := txt; caps := ∅ |}) ->
  exists m, match_here r p pv txt = Some m.
Proof.
  unfold match_here. destruct (mrun r _) as [|s1 l]; [intros []|]. eauto.
Qed.

Lemma match_here_bounds (r : regex) (src : str) (p : nat) (pv : option char)
    (txt : str) (m : rmatch) :
  position src p pv txt -> match_here r p pv txt = Some m ->
  m_start m = p /\ p <= m_end m <= List.length src.
Proof.
  intros (done & -> & -> & ->) H. split; [eapply match_here_start; eauto|].
  apply match_here_state in H as (s' & Hin & -> & _).
  apply mrun_steps in Hin as (w & H1 & H2 & _). simpl in *.
  rewrite H2, List.length_app, H1, List.length_app. lia.
Qed.

Lemma scan_sound (r : regex) (src : str) : forall txt skip p pv,
  position src p pv txt ->
  forall m, In m (scan r skip p pv txt) ->
  exists p' pv' txt',
    position src p' pv' txt' /\ match_here r p' pv' txt' = Some m.
Proof.
  induction txt as [|c tl IH]; intros skip p pv Hpos m Hin;
    rewrite scan_eq in Hin.
  - destruct skip; simpl in Hin; [|destruct Hin].
    destruct (match_here r p pv []) eqn:E; [|destruct Hin].
    destruct Hin as [<-|[]]. eauto.
  - assert (Htl : forall k, In m (scan_tail r k p (c :: tl)) ->
              exists p' pv' txt',
                position src p' pv' txt' /\ match_here r p' pv' txt' = Some m).
    { intros k Hk. apply (IH _ _ _ (position_next _ _ _ _ _ Hpos) _ Hk). }
    destruct skip; [|eauto].
    destruct (match_here r p pv (c :: tl)) eqn:E; [|eauto].
    destruct Hin as [<-|Hin]; eauto.
Qed.

Lemma finditer_sound (r : regex) (src : str) (m : rmatch) :
  In m (finditer r src) ->
  exists p pv txt, position src p pv txt /\ match_here r p pv txt = Some m.
Proof. apply scan_sound, position_start. Qed.

Lemma finditer_bounds (r : regex) (src : str) (m : rmatch) :
  In m (finditer r src) -> m_start m <= m_end m <= List.length src.
Proof.
  intros H. apply finditer_sound in H as (p & pv & txt & Hpos & Hm).
  destruct (match_here_bounds _ _ _ _ _ _ Hpos Hm) as (-> & H). exact H.
Qed.

Lemma scan_covers (r : regex)
    (Hne : forall p pv txt m, match_here r p pv txt = Some m -> p < m_end m) :
  forall w skip p pv txt' m0,
    skip <= List.length w ->
    match_here r (List.length w + p) (last_or pv w) txt' = Some m0 ->
    exists m, In m (scan r skip p pv (w ++ txt')) /\
              m_start m <= List.length w + p < m_end m.
Proof.
  induction w as [|c w IH]; intros skip p pv txt' m0 Hs Hm; rewrite scan_eq.
  - simpl in Hs. assert (skip = 0) as -> by lia.
    change (match_here r p pv txt' = Some m0) in Hm.
    change ([] ++ txt') with txt'. rewrite Hm.
    exists m0. split; [now left|].
    rewrite (match_here_start _ _ _ _ _ Hm). pose proof (Hne _ _ _ _ Hm).
    simpl. lia.
  - assert (Hm' : match_here r (List.length w + S p) (last_or (Some c) w) txt'
                  = Some m0).
    { rewrite <- (last_or_cons pv). simpl in Hm.
      replace (List.length w + S p) with (S (List.length w + p)) by lia.
      exact Hm. }
    assert (Htl : forall k, k <= S (List.length w) ->
              exists m, In m (scan_tail r k p ((c :: w) ++ txt')) /\
                        m_start m <= List.length (c :: w) + p < m_end m).
    { intros k Hk. destruct (IH (Nat.pred k) (S p) (Some c) txt' m0) as (m & H1 & H2);
        [lia|exact Hm'|].
      exists m. split; [exact H1|]. simpl. lia. }
    destruct skip as [|skip].
    + destruct (match_here r p pv ((c :: w) ++ txt')) as [m|] eqn:E.
      * destruct (Nat.lt_ge_cases (List.length (c :: w) + p) (m_end m)) as [Hlt|Hge].
        -- exists m. split; [now left|].
           rewrite (match_here_start _ _ _ _ _ E). lia.
        -- destruct (Htl (m_end m - p)) as (m' & H1 & H2); [simpl in *; lia|].
           exists m'. split; [now right|exact H2].
      * apply Htl. lia.
    + apply Htl. simpl in Hs. lia.
Qed.

Lemma finditer_covers (r : regex) (src : str)
    (Hne : forall p pv txt m, match_here r p pv txt = Some m -> p < m_end m)
    (done txt : str) (m0 : rmatch) :
  src = done ++ txt ->
  match_here r (List.length done) (last done) txt = Some m0 ->
  exists m, In m (finditer r src) /\ m_start m <= List.length done < m_end m.
Proof.
  intros -> Hm. unfold finditer.
  destruct (scan_covers r Hne done 0 0 None txt m0) as (m & H1 & H2).
  - lia.
  - rewrite Nat.add_0_r. unfold last_or. destruct (last done) eqn:E; exact Hm.
  - exists m. split; [exact H1|lia].
Qed.

Lemma scan_starts_sublist (r : regex) : forall txt skip p pv,
  sublist (map m_start (scan r skip p pv txt)) (starts_from r p pv txt).
Proof.
  induction txt as [|c tl IH]; intros skip p pv; rewrite scan_eq;
    cbn [starts_from scan_tail].
  - destruct skip; destruct (match_here r p pv []) eqn:E; simpl;
      try rewrite (match_here_start _ _ _ _ _ E);
      repeat constructor.
  - destruct skip; destruct (match_here r p pv (c :: tl)) eqn:E; simpl;
      try rewrite (match_here_start _ _ _ _ _ E);
      repeat constructor; apply IH.
Qed.

Lemma starts_from_spec (r : regex) (src : str) : forall txt p pv q,
  position src p pv txt ->
  In q (starts_from r p pv txt) ->
  exists pv' txt' m, position src q pv' txt' /\
                     match_here r q pv' txt' = Some m.
Proof.
  induction txt as [|c tl IH]; intros p pv q Hpos Hin; cbn [starts_from] in Hin;
    apply in_app_iff in Hin as [Hin|Hin].
  - destruct (match_here r p pv []) eqn:E; [|destruct Hin].
    destruct Hin as [<-|[]]. eauto.
  - destruct Hin.
  - destruct (match_here r p pv (c :: tl)) eqn:E; [|destruct Hin].
    destruct Hin as [<-|[]]. eauto.
  - apply (IH _ _ _ (position_next _ _ _ _ _ Hpos) Hin).
Qed.

Lemma starts_from_complete (r : regex) : forall w p pv txt m,
  match_here r (List.length w + p) (last_or pv w) txt = Some m ->
  In (List.length w + p) (starts_from r p pv (w ++ txt)).
Proof.
  induction w as [|c w IH]; intros p pv txt m Hm.
  - change (match_here r p pv txt = Some m) in Hm. simpl.
    destruct txt; cbn [starts_from]; rewrite Hm; now left.
  - cbn [app starts_from]. apply in_app_iff. right.
    replace (List.length (c :: w) + p) with (List.length w + S p)
      by (simpl; lia).
    apply (IH _ _ _ m). rewrite <- (last_or_cons pv).
    replace (List.length w + S p) with (List.length (c :: w) + p)
      by (simpl; lia).
    exact Hm.
Qed.

(** ** Reading the patterns piece by piece *)

Lemma ci_eq_prefix (w a t : str) :
  ci_eq w a -> ci_prefix w (a ++ t) = Some t.
Proof.
  intros H. apply ci_prefix_spec in H as (w' & E & _ & HF).
  rewrite List.app_nil_r in E. subst. now apply ci_prefix_complete.
Qed.

Lemma ci_eq_forall2 (w a : str) :
  ci_eq w a <-> Forall2 (fun p c => ci_char p c = true) w a.
Proof.
  split.
  - intros H. apply ci_prefix_spec in H as (w' & E & _ & HF).
    rewrite List.app_nil_r in E. now subst.
  - intros H. unfold ci_eq. rewrite <- (List.app_nil_r a).
    now apply ci_prefix_complete.
Qed.

Lemma ci_eq_length (w a : str) : ci_eq w a -> List.length a = List.length w.
Proof.
  intros H. apply ci_prefix_spec in H as (w' & E & L & _).
  rewrite List.app_nil_r in E. now subst.
Qed.

Lemma ci_eq_words (w a : str) :
  ci_eq w a -> forallb ascii_word w = true -> forallb is_word a = true.
Proof.
  rewrite ci_eq_forall2. induction 1 as [|p c w a Hc HF IH]; simpl;
    [reflexivity|].
  rewrite andb_true_iff. intros (Hp & Hw).
  apply andb_true_iff in Hp as (Hp & Hpw). apply N.ltb_lt in Hp.
  rewrite (ci_char_word _ _ Hp Hc), Hpw. simpl. now apply IH.
Qed.

Lemma ci_eq_upper (w a : str) :
  ci_eq w a -> forallb letter_not_I w = true -> ~ In KELVIN_SIGN a ->
  str_upper a = w.
Proof.
  rewrite ci_eq_forall2. induction 1 as [|p c w a Hc HF IH]; simpl;
    [reflexivity|].
  rewrite andb_true_iff. intros (Hp & Hw) Hk.
  rewrite (ci_char_upper _ _ Hc Hp) by (intros ->; apply Hk; now left).
  rewrite IH; [reflexivity|exact Hw|]. intros Hin. apply Hk. now right.
Qed.

Lemma words_head (a t : str) :
  a <> [] -> forallb is_word a = true -> is_word_opt (head (a ++ t)) = true.
Proof.
  destruct a as [|c a]; [congruence|]. simpl.
  rewrite andb_true_iff. now intros _ (H & _).
Qed.

Lemma words_last (o : option char) (a : str) :
  a <> [] -> forallb is_word a = true -> is_word_opt (last_or o a) = true.
Proof.
  intros Hne Hw. unfold last_or.
  destruct a as [|c a _] using rev_ind; [congruence|].
  rewrite last_snoc. rewrite forallb_app in Hw.
  apply andb_true_iff in Hw as (_ & Hw). simpl in Hw.
  now apply andb_true_iff in Hw as (Hw & _).
Qed.

Lemma last_or_non_word (o : option char) (a b : str) :
  a <> [] -> forallb is_word a = true ->
  is_word_opt (last_or o (a ++ b)) = false <-> ends_non_word b.
Proof.
  intros Hne Hw. rewrite <- last_or_app. unfold ends_non_word.
  pose proof (words_last o a Hne Hw) as Ha.
  unfold last_or at 1. destruct (last b) as [c|] eqn:E; simpl.
  - split; [eauto|]. now intros (c' & [= <-] & H).
  - rewrite Ha. split; [discriminate|]. now intros (c' & [=] & _).
Qed.

Lemma in_skipn_nth {A : Type} (l : list A) : forall lo n x,
  nth_error l n = Some x -> lo <= n -> In x (skipn lo l).
Proof.
  induction l as [|y l IH]; intros lo n x Hn Hlo.
  - destruct n; discriminate.
  - destruct lo as [|lo]; [eapply nth_error_In; eassumption|].
    destruct n as [|n]; [lia|]. simpl in *. eapply IH; [eassumption|lia].
Qed.

Lemma lit_inv (x : str) (s s' : mstate) :
  In s' (mrun (Lit x) s) ->
  exists a t, rest s = a ++ t /\ ci_eq x a /\ s' = jump s a t.
Proof.
  intros H. apply in_mrun_lit, run_lit_spec in H as (a & _ & H1 & _ & H2 & H3).
  exists a, (rest s').
  repeat split; [exact H1|now apply ci_eq_forall2|exact H3].
Qed.

Lemma lit_intro (x : str) (s : mstate) (a t : str) :
  rest s = a ++ t -> ci_eq x a -> In (jump s a t) (mrun (Lit x) s).
Proof.
  intros Hr Hc. apply in_mrun_lit, run_lit_complete; [exact Hr|].
  now apply ci_eq_forall2.
Qed.

Lemma rep_inv (g : bool) (lo : nat) (hi : option nat) (f : char -> bool)
    (s s' : mstate) :
  In s' (mrun (Rep g lo hi f) s) ->
  exists b t, rest s = b ++ t /\ forallb f b = true /\
              lo <= List.length b /\
              (forall h, hi = Some h -> List.length b <= h) /\
              s' = jump s b t.
Proof.
  intros H. apply in_mrun_rep, rep_states_spec in H as (b & H1 & H2 & H3 & H4).
  exists b, (rest s'). repeat split; try assumption; [lia|].
  intros h ->. simpl in H3. lia.
Qed.

Lemma rep_intro (g : bool) (lo : nat) (hi : option nat) (f : char -> bool)
    (s : mstate) (b t : str) :
  rest s = b ++ t -> forallb f b = true -> lo <= List.length b ->
  (forall h, hi = Some h -> List.length b <= h) ->
  In (jump s b t) (mrun (Rep g lo hi f) s).
Proof.
  intros Hr Hf Hlo Hhi. apply in_mrun_rep.
  apply (in_skipn_nth _ lo (List.length b)); [|exact Hlo].
  apply rep_states_complete; [exact Hr|exact Hf|].
  destruct hi as [h|]; simpl; [now apply Hhi|].
  rewrite Hr, List.length_app. lia.
Qed.

Lemma nonempty_length {A : Type} (l : list A) : l <> [] <-> 1 <= List.length l.
Proof. destruct l; simpl; split; intros; try congruence; lia. Qed.

Lemma lit_rep_lit_inv (x y : str) (g : bool) (f : char -> bool)
    (s s' : mstate) :
  In s' (mrun (Lit x +> Rep g 1 None f +> Lit y) s) ->
  exists a b c t, rest s = (a ++ b ++ c) ++ t /\ ci_eq x a /\ b <> [] /\
                  forallb f b = true /\ ci_eq y c /\
                  s' = jump s (a ++ b ++ c) t.
Proof.
  intros H. apply in_mrun_seq in H as (s1 & H1 & H).
  apply in_mrun_seq in H as (s2 & H2 & H3).
  apply lit_inv in H1 as (a & t1 & Ha & Hca & ->).
  apply rep_inv in H2 as (b & t2 & Hb & Hfb & Hlb & _ & ->).
  apply lit_inv in H3 as (c & t3 & Hc & Hcc & ->).
  simpl in *. exists a, b, c, t3. repeat split; try assumption.
  - rewrite Ha, Hb, Hc, <- !List.app_assoc. reflexivity.
  - now apply nonempty_length.
  - rewrite !jump_jump. reflexivity.
Qed.

Lemma lit_rep_lit_intro (x y : str) (g : bool) (f : char -> bool)
    (s : mstate) (a b c t : str) :
  rest s = (a ++ b ++ c) ++ t -> ci_eq x a -> b <> [] ->
  forallb f b = true -> ci_eq y c ->
  In (jump s (a ++ b ++ c) t) (mrun (Lit x +> Rep g 1 None f +> Lit y) s).
Proof.
  intros Hr Ha Hb Hf Hc. rewrite <- !List.app_assoc in Hr.
  apply in_mrun_seq. exists (jump s a (b ++ c ++ t)).
  split; [now apply lit_intro|].
  apply in_mrun_seq. exists (jump (jump s a (b ++ c ++ t)) b (c ++ t)).
  split; [apply rep_intro; try easy; now apply nonempty_length|].
  rewrite <- (jump_jump s a (b ++ c ++ t) (b ++ c) t).
  rewrite <- (jump_jump (jump s a (b ++ c ++ t)) b (c ++ t) c t).
  now apply lit_intro.
Qed.

Lemma any_char_true (w : str) : forallb any_char w = true.
Proof.
  induction w as [|c w IH]; simpl; [reflexivity|]. rewrite IH.
  unfold any_char. now destruct (is_space c).
Qed.

Lemma dml_start_inv (s s' : mstate) :
  In s' (mrun DML_START s) ->
  exists kw t, rest s = kw ++ t /\ dml_start kw /\ s' = jump s kw t.
Proof.
  unfold DML_START. intros H.
  apply in_mrun_alt in H as [H|H];
    [|apply in_mrun_alt in H as [H|H];
      [|apply in_mrun_alt in H as [H|H]]].
  - apply lit_rep_lit_inv in H as (a & b & c & t & H1 & H2 & H3 & _ & H4 & H5).
    exists (a ++ b ++ c), t. repeat split; try assumption.
    left. exists a, b, c. auto.
  - apply lit_rep_lit_inv in H as (a & b & c & t & H1 & H2 & H3 & Hf & H4 & H5).
    exists (a ++ b ++ c), t. repeat split; try assumption.
    right; left. exists a, b, c. repeat split; auto.
  - apply lit_inv in H as (a & t & H1 & H2 & H3). exists a, t.
    repeat split; auto. right; right; left. exact H2.
  - apply lit_rep_lit_inv in H as (a & b & c & t & H1 & H2 & H3 & Hf & H4 & H5).
    exists (a ++ b ++ c), t. repeat split; try assumption.
    right; right; right. exists a, b, c. repeat split; auto.
Qed.

Lemma dml_start_intro (s : mstate) (kw t : str) :
  rest s = kw ++ t -> dml_start kw -> In (jump s kw t) (mrun DML_START s).
Proof.
  unfold DML_START. intros Hr [H|[H|[H|H]]].
  - destruct H as (a & b & c & -> & Ha & Hb & Hc).
    apply in_mrun_alt. left.
    apply lit_rep_lit_intro; auto using any_char_true.
  - destruct H as (a & b & c & -> & Ha & (Hb & Hf) & Hc).
    apply in_mrun_alt. right. apply in_mrun_alt. left.
    now apply lit_rep_lit_intro.
  - apply in_mrun_alt. right. apply in_mrun_alt. right.
    apply in_mrun_alt. left. now apply lit_intro.
  - destruct H as (a & b & c & -> & Ha & (Hb & Hf) & Hc).
    apply in_mrun_alt. right. apply in_mrun_alt. right.
    apply in_mrun_alt. right. now apply lit_rep_lit_intro.
Qed.

Lemma dml_start_word_end (kw : str) :
  dml_start kw ->
  exists a b, kw = a ++ b /\ b <> [] /\ forallb is_word b = true.
Proof.
  intros [H|[H|[H|H]]].
  - destruct H as (a & b & c & -> & _ & _ & Hc). exists (a ++ b), c.
    split; [now rewrite <- List.app_assoc|].
    split; [apply nonempty_length; rewrite (ci_eq_length _ _ Hc); simpl; lia|].
    now apply (ci_eq_words _ _ Hc).
  - destruct H as (a & b & c & -> & _ & _ & Hc). exists (a ++ b), c.
    split; [now rewrite <- List.app_assoc|].
    split; [apply nonempty_length; rewrite (ci_eq_length _ _ Hc); simpl; lia|].
    now apply (ci_eq_words _ _ Hc).
  - exists [], kw. split; [reflexivity|].
    split; [apply nonempty_length; rewrite (ci_eq_length _ _ H); simpl; lia|].
    now apply (ci_eq_words _ _ H).
  - destruct H as (a & b & c & -> & _ & _ & Hc). exists (a ++ b), c.
    split; [now rewrite <- List.app_assoc|].
    split; [apply nonempty_length; rewrite (ci_eq_length _ _ Hc); simpl; lia|].
    now apply (ci_eq_words _ _ Hc).
Qed.

Lemma dml_start_nonempty (kw : str) : dml_start kw -> 1 <= List.length kw.
Proof.
  intros H. apply dml_start_word_end in H as (a & b & -> & Hb & _).
  apply nonempty_length in Hb. rewrite List.length_app. lia.
Qed.

Lemma dml_start_last (o : option char) (kw gap : str) :
  dml_start kw ->
  is_word_opt (last_or o (kw ++ gap)) = false <-> ends_non_word gap.
Proof.
  intros H. apply dml_start_word_end in H as (a & b & -> & Hb & Hw).
  rewrite <- List.app_assoc, <- last_or_app.
  now apply last_or_non_word.
Qed.

(** ** The DML pattern *)

Lemma head_non_word (t : str) :
  match t with c :: _ => is_word c = false | [] => True end <->
  is_word_opt (head t) = false.
Proof. destruct t; simpl; intuition. Qed.

Lemma konv_word : forallb is_word (lit "KONV") = true.
Proof. reflexivity. Qed.

Lemma ci_eq_nonempty (w a : str) : ci_eq w a -> w <> [] -> a <> [].
Proof.
  intros H Hw ->. apply ci_eq_length in H. destruct w; [congruence|].
  discriminate.
Qed.

Lemma sql_inv (s s' : mstate) :
  In s' (mrun SQL_KONV_RE s) ->
  exists kw gap id t,
    rest s = kw ++ gap ++ id ++ t /\ dml_start kw /\
    List.length gap <= 1000 /\ ends_non_word gap /\
    ci_eq (lit "KONV") id /\ is_word_opt (head t) = false /\
    rest s' = t /\
    pos s' = List.length id + (List.length gap + (List.length kw + pos s)) /\
    caps s' !! "table"%string
    = Some (List.length gap + (List.length kw + pos s),
            List.length id + (List.length gap + (List.length kw + pos s))).
Proof.
  unfold SQL_KONV_RE. intros H.
  apply in_mrun_seq in H as (s1 & H1 & H).
  apply in_mrun_seq in H as (s2 & H2 & H).
  apply in_mrun_seq in H as (s3 & H3 & H).
  apply in_mrun_seq in H as (s4 & H4 & H).
  apply in_mrun_seq in H as (s5 & H5 & H6).
  apply dml_start_inv in H1 as (kw & t1 & Hkw & Hd & ->).
  apply rep_inv in H2 as (gap & t2 & Hgap & _ & _ & Hhi & ->).
  apply in_mrun_wordb in H3 as (-> & Hb1).
  apply in_mrun_grp in H4 as (s4' & H4 & ->).
  apply lit_inv in H4 as (id & t & Hid & Hci & ->).
  apply in_mrun_wordb in H5 as (-> & Hb2).
  apply in_mrun_notahead in H6 as (-> & Hna).
  unfold at_boundary in Hb1, Hb2.
  cbn [jump set_cap rest pos prev caps] in *. subst t1 t2.
  exists kw, gap, id, t.
  assert (Hne : id <> []) by (apply (ci_eq_nonempty _ _ Hci); discriminate).
  pose proof (ci_eq_words _ _ Hci konv_word) as Hw.
  rewrite (words_head id t Hne Hw), last_or_app in Hb1.
  split; [exact Hkw|]. split; [exact Hd|].
  split; [now apply Hhi|].
  split; [apply (dml_start_last (prev s) kw gap Hd);
          destruct (is_word_opt (last_or (prev s) (kw ++ gap)));
          [discriminate|reflexivity]|].
  split; [exact Hci|]. split; [now apply head_non_word|].
  split; [reflexivity|]. split; [reflexivity|].
  apply lookup_insert_eq.
Qed.

Lemma sql_intro (s : mstate) (kw gap id t : str) :
  rest s = kw ++ gap ++ id ++ t -> dml_start kw ->
  List.length gap <= 1000 -> ends_non_word gap ->
  ci_eq (lit "KONV") id -> is_word_opt (head t) = false ->
  exists s', In s' (mrun SQL_KONV_RE s).
Proof.
  intros Hr Hd Hlen Hgap Hci Ht.
  assert (Hne : id <> []) by (apply (ci_eq_nonempty _ _ Hci); discriminate).
  pose proof (ci_eq_words _ _ Hci konv_word) as Hw.
  set (s1 := jump s kw (gap ++ id ++ t)).
  set (s2 := jump s1 gap (id ++ t)).
  set (s3 := jump s2 id t).
  set (s4 := set_cap "table" (pos s2, pos s3) s3).
  exists s4. unfold SQL_KONV_RE.
  apply in_mrun_seq. exists s1. split; [now apply dml_start_intro|].
  apply in_mrun_seq. exists s2.
  split; [apply rep_intro; try easy; [apply any_char_true|lia|now intros h [= <-]]|].
  apply in_mrun_seq. exists s2. split.
  { apply in_mrun_wordb. split; [reflexivity|]. unfold at_boundary.
    cbn [s2 s1 jump rest prev]. rewrite (words_head id t Hne Hw), last_or_app.
    apply (dml_start_last (prev s) kw gap Hd) in Hgap. now rewrite Hgap. }
  apply in_mrun_seq. exists s4. split.
  { apply in_mrun_grp. exists s3. split; [now apply lit_intro|reflexivity]. }
  apply in_mrun_seq. exists s4. split.
  { apply in_mrun_wordb. split; [reflexivity|]. unfold at_boundary.
    cbn [s4 s3 set_cap jump rest prev]. rewrite (words_last _ id Hne Hw), Ht.
    reflexivity. }
  apply in_mrun_notahead. split; [reflexivity|].
  cbn [s4 s3 set_cap jump rest]. now apply head_non_word.
Qed.

Lemma sql_nonempty (p : nat) (pv : option char) (txt : str) (m : rmatch) :
  match_here SQL_KONV_RE p pv txt = Some m -> p < m_end m.
Proof.
  intros H. apply match_here_state in H as (s' & Hin & -> & _).
  apply sql_inv in Hin as (kw & gap & id & t & _ & Hd & _ & _ & _ & _ & _ & Hp & _).
  apply dml_start_nonempty in Hd. simpl in Hp. lia.
Qed.

Lemma last_or_none (w : str) : last_or None w = last w.
Proof. unfold last_or. now destruct (last w). Qed.

Lemma sql_starts (src : str) (p : nat) :
  In p (match_starts SQL_KONV_RE src) <-> dml_statement_on_konv src p.
Proof.
  split.
  - intros H.
    apply (starts_from_spec _ src _ _ _ _ (position_start src)) in H
      as (pv & txt & m & (done & -> & -> & ->) & Hm).
    apply match_here_state in Hm as (s' & Hin & _).
    apply sql_inv in Hin
      as (kw & gap & id & t & Hr & Hd & Hl & Hg & Hc & Ht & _).
    simpl in Hr. exists done, kw, gap, id, t. subst txt. auto 10.
  - intros (pre & kw & gap & id & post & -> & -> & Hd & Hl & Hg & Hc & Ht).
    destruct (sql_intro {| pos := List.length pre; prev := last pre;
                           rest := kw ++ gap ++ id ++ post; caps := ∅ |}
                kw gap id post eq_refl Hd Hl Hg Hc Ht) as (s' & Hin).
    apply match_here_some in Hin as (m & Hm).
    unfold match_starts.
    rewrite <- (Nat.add_0_r (List.length pre)).
    apply (starts_from_complete _ pre 0 None _ m).
    now rewrite Nat.add_0_r, last_or_none.
Qed.

Lemma sql_group (src : str) (m : rmatch) :
  In m (finditer SQL_KONV_RE src) ->
  ci_eq (lit "KONV") (group src m "table").
Proof.
  intros H. apply finditer_sound in H
    as (p & pv & txt & (done & -> & -> & ->) & Hm).
  apply match_here_state in Hm as (s' & Hin & _ & Hg).
  apply sql_inv in Hin
    as (kw & gap & id & t & Hr & _ & _ & _ & Hc & _ & _ & _ & Hcap).
  simpl in Hr, Hcap. subst txt. unfold group. rewrite Hg, Hcap.
  replace (done ++ kw ++ gap ++ id ++ t)
    with ((done ++ kw ++ gap) ++ id ++ t)
    by (now rewrite <- !List.app_assoc).
  replace (List.length gap + (List.length kw + List.length done))
    with (List.length (done ++ kw ++ gap))
    by (rewrite !List.length_app; lia).
  rewrite slice_middle. exact Hc.
Qed.

(** the upper case of a text read as one of the obsolete names: the name
    itself, unless the text holds the Kelvin sign *)
Lemma obsolete_id_upper (id idt : str) :
  In id obsolete_ids -> ci_eq id idt -> ~ In KELVIN_SIGN idt ->
  str_upper idt = id.
Proof.
  unfold obsolete_ids. intros [<-|[<-|[<-|[]]]] Hc Hk;
    now apply ci_eq_upper.
Qed.

Lemma kelvin_no_key (k : str) :
  In KELVIN_SIGN k -> ~ In k obsolete_ids.
Proof.
  unfold obsolete_ids. intros Hk [<-|[<-|[<-|[]]]];
    vm_compute in Hk; intuition discriminate.
Qed.

(** ** The declaration pattern *)

Lemma space_not_word (c : char) : is_space c = true -> is_word c = false.
Proof.
  intros H. apply in_ranges_points in H.
  assert (Hall : forallb (fun c => negb (is_word c))
                   (flat_map range_points WHITE_SPACE) = true)
    by (vm_compute; reflexivity).
  rewrite forallb_forall in Hall. apply negb_true_iff. now apply Hall.
Qed.

Lemma spaces_head (w t : str) :
  spaces w -> is_word_opt (head (w ++ t)) = false.
Proof.
  intros (Hne & Hf). destruct w as [|c w]; [congruence|]. simpl in *.
  apply andb_true_iff in Hf as (Hc & _). now apply space_not_word.
Qed.

Lemma spaces_app (a b : str) :
  forallb is_space a = true -> spaces b -> spaces (a ++ b).
Proof.
  intros Ha (Hb & Hf). split.
  - intros H. apply app_eq_nil in H as (_ & H). contradiction.
  - rewrite forallb_app, Ha, Hf. reflexivity.
Qed.

Lemma decl_keyword_inv (s s' : mstate) :
  In s' (mrun DECL_KEYWORD s) ->
  exists kw t, rest s = kw ++ t /\ decl_keyword kw /\ s' = jump s kw t.
Proof.
  unfold DECL_KEYWORD, decl_keyword. intros H.
  apply in_mrun_alt in H as [H|H];
    [|apply in_mrun_alt in H as [H|H];
      [|apply in_mrun_alt in H as [H|H]]];
    apply lit_inv in H as (a & t & H1 & H2 & H3); exists a, t; auto 6.
Qed.

Lemma decl_keyword_intro (s : mstate) (kw t : str) :
  rest s = kw ++ t -> decl_keyword kw -> In (jump s kw t) (mrun DECL_KEYWORD s).
Proof.
  unfold DECL_KEYWORD. intros Hr [H|[H|[H|H]]].
  - apply in_mrun_alt. left. now apply lit_intro.
  - apply in_mrun_alt. right. apply in_mrun_alt. left. now apply lit_intro.
  - apply in_mrun_alt. right. apply in_mrun_alt. right.
    apply in_mrun_alt. left. now apply lit_intro.
  - apply in_mrun_alt. right. apply in_mrun_alt. right.
    apply in_mrun_alt. right. now apply lit_intro.
Qed.

Lemma ci_eq_word_end (w kw : str) :
  ci_eq w kw ->
  (exists a b, w = a ++ b /\ b <> [] /\ forallb ascii_word b = true) ->
  exists a b, kw = a ++ b /\ b <> [] /\ forallb is_word b = true.
Proof.
  rewrite ci_eq_forall2. intros HF (a & b & -> & Hb & Hw).
  apply Forall2_app_inv_l in HF as (a' & b' & Ha & Hb' & ->).
  exists a', b'. split; [reflexivity|].
  apply Forall2_flip in Hb'.
  assert (Hc : ci_eq b b') by (apply ci_eq_forall2;
    clear -Hb'; induction Hb'; constructor; assumption).
  split; [now apply (ci_eq_nonempty _ _ Hc)|now apply (ci_eq_words _ _ Hc)].
Qed.

Lemma decl_keyword_word_ends (kw : str) :
  decl_keyword kw ->
  (exists a b, kw = a ++ b /\ b <> [] /\ forallb is_word b = true) /\
  (forall t, is_word_opt (head (kw ++ t)) = true).
Proof.
  intros H. split.
  - destruct H as [H|[H|[H|H]]]; apply (ci_eq_word_end _ _ H).
    + exists [], (lit "DATA"). repeat split. discriminate.
    + exists [], (lit "TYPES"). repeat split. discriminate.
    + exists (lit "FIELD-"), (lit "SYMBOLS"). repeat split. discriminate.
    + exists [], (lit "CONSTANTS"). repeat split. discriminate.
  - intros t.
    assert (Hh : exists c kw', kw = c :: kw' /\ is_word c = true).
    { destruct H as [H|[H|[H|H]]]; apply ci_eq_forall2 in H;
        inversion H as [|p c w kw' Hc HF]; subst;
        exists c, kw'; (split; [reflexivity|]);
        now rewrite ((fun Hp => ci_char_word _ _ Hp Hc) eq_refl). }
    destruct Hh as (c & kw' & -> & Hc). exact Hc.
Qed.

Lemma type_or_like_inv (s s' : mstate) :
  In s' (mrun (Lit (lit "TYPE") </> Lit (lit "LIKE")) s) ->
  exists tl t, rest s = tl ++ t /\ type_or_like tl /\ s' = jump s tl t.
Proof.
  unfold type_or_like. intros H.
  apply in_mrun_alt in H as [H|H];
    apply lit_inv in H as (a & t & H1 & H2 & H3); exists a, t; auto.
Qed.

Lemma type_or_like_words (tl : str) :
  type_or_like tl -> tl <> [] /\ forallb is_word tl = true.
Proof.
  intros [H|H]; (split; [apply (ci_eq_nonempty _ _ H); discriminate|]);
    now apply (ci_eq_words _ _ H).
Qed.

Lemma table_of_inv (s s' : mstate) :
  In s' (mrun TABLE_OF s) ->
  exists w t, rest s = w ++ t /\ s' = jump s w t /\
              (table_of_words w \/ spaces w).
Proof.
  unfold TABLE_OF. intros H. apply in_mrun_alt in H as [H|H].
  - apply in_mrun_seq in H as (s1 & H1 & H).
    apply in_mrun_seq in H as (s2 & H2 & H).
    apply in_mrun_seq in H as (s3 & H3 & H4).
    apply lit_inv in H1 as (a & t1 & Ha & Hca & ->).
    apply rep_inv in H2 as (b & t2 & Hb & Hfb & Hlb & _ & ->).
    apply lit_inv in H3 as (c & t3 & Hc & Hcc & ->).
    apply rep_inv in H4 as (d & t4 & Hd & Hfd & Hld & _ & ->).
    cbn [jump rest] in *. subst t1 t2 t3.
    exists (a ++ b ++ c ++ d), t4.
    split; [rewrite Ha, <- !List.app_assoc; reflexivity|].
    split; [rewrite !jump_jump; reflexivity|].
    left. exists a, b, c, d. repeat split; auto; now apply nonempty_length.
  - apply rep_inv in H as (b & t & Hb & Hfb & Hlb & _ & ->).
    exists b, t. repeat split; auto. right. split; [|exact Hfb].
    now apply nonempty_length.
Qed.

Lemma table_of_words_intro (s : mstate) (w t : str) :
  rest s = w ++ t -> table_of_words w -> In (jump s w t) (mrun TABLE_OF s).
Proof.
  intros Hr (a & b & c & d & -> & Ha & (Hb & Hfb) & Hc & (Hd & Hfd)).
  rewrite <- !List.app_assoc in Hr.
  unfold TABLE_OF. apply in_mrun_alt. left.
  apply in_mrun_seq. exists (jump s a (b ++ c ++ d ++ t)).
  split; [now apply lit_intro|].
  apply in_mrun_seq. eexists (jump _ b (c ++ d ++ t)).
  split; [apply rep_intro; try easy; now apply nonempty_length|].
  apply in_mrun_seq. eexists (jump _ c (d ++ t)).
  split; [now apply lit_intro|].
  rewrite <- (jump_jump s a (b ++ c ++ d ++ t) (b ++ c ++ d) t).
  rewrite <- (jump_jump (jump s a (b ++ c ++ d ++ t)) b (c ++ d ++ t)
                (c ++ d) t).
  rewrite <- (jump_jump (jump (jump s a (b ++ c ++ d ++ t)) b (c ++ d ++ t))
                c (d ++ t) d t).
  apply rep_intro; try easy. now apply nonempty_length.
Qed.

Lemma dtype_inv (s s' : mstate) :
  In s' (mrun DTYPE s) ->
  exists id idt t, rest s = idt ++ t /\ In id obsolete_ids /\ ci_eq id idt /\
                   s' = jump s idt t.
Proof.
  unfold DTYPE, obsolete_ids. intros H.
  apply in_mrun_alt in H as [H|H]; [|apply in_mrun_alt in H as [H|H]];
    apply lit_inv in H as (a & t & H1 & H2 & H3);
    eexists _, a, t; (split; [exact H1|]);
    (split; [|split; [exact H2|exact H3]]); simpl; auto.
Qed.

Lemma dtype_intro (s : mstate) (id idt t : str) :
  rest s = idt ++ t -> In id obsolete_ids -> ci_eq id idt ->
  In (jump s idt t) (mrun DTYPE s).
Proof.
  unfold DTYPE, obsolete_ids. intros Hr [<-|[<-|[<-|[]]]] Hc.
  - apply in_mrun_alt. left. now apply lit_intro.
  - apply in_mrun_alt. right. apply in_mrun_alt. left. now apply lit_intro.
  - apply in_mrun_alt. right. apply in_mrun_alt. right. now apply lit_intro.
Qed.

Lemma obsolete_id_words (id idt : str) :
  In id obsolete_ids -> ci_eq id idt ->
  idt <> [] /\ forallb is_word idt = true /\
  forallb letter_not_I id = true.
Proof.
  unfold obsolete_ids. intros [<-|[<-|[<-|[]]]] Hc;
    (split; [apply (ci_eq_nonempty _ _ Hc); discriminate|]);
    (split; [now apply (ci_eq_words _ _ Hc)|reflexivity]).
Qed.

Lemma xorb_true_r_false (b : bool) : xorb b true = true -> b = false.
Proof. now destruct b. Qed.

Lemma xorb_true_l_false (b : bool) : xorb true b = true -> b = false.
Proof. now destruct b. Qed.

Lemma word_end_last (o : option char) (kw gap : str) :
  (exists a b, kw = a ++ b /\ b <> [] /\ forallb is_word b = true) ->
  is_word_opt (last_or o (kw ++ gap)) = false <-> ends_non_word gap.
Proof.
  intros (a & b & -> & Hb & Hw).
  rewrite <- List.app_assoc, <- last_or_app.
  now apply last_or_non_word.
Qed.

Lemma table_of_words_head (w t : str) :
  table_of_words w -> is_word_opt (head (w ++ t)) = true.
Proof.
  intros (a & b & c & d & -> & Ha & _). rewrite <- List.app_assoc.
  apply words_head; [apply (ci_eq_nonempty _ _ Ha); discriminate|].
  now apply (ci_eq_words _ _ Ha).
Qed.

Lemma nil_or_spaces (w : str) :
  forallb is_space w = true -> w = [] \/ spaces w.
Proof.
  intros H. destruct w as [|c w]; [now left|]. right. split; [discriminate|].
  exact H.
Qed.

Lemma decl_inv (s s' : mstate) :
  In s' (mrun DECL_KONV_RE s) ->
  exists kw body tl ws tof id idt t n,
    rest s = kw ++ body ++ tl ++ ws ++ tof ++ idt ++ t /\
    is_word_opt (prev s) = false /\ decl_keyword kw /\
    forallb not_dot_nl body = true /\ ends_non_word body /\
    type_or_like tl /\ spaces ws /\ table_of tof /\
    In id obsolete_ids /\ ci_eq id idt /\ is_word_opt (head t) = false /\
    n = List.length (kw ++ body ++ tl ++ ws ++ tof) + pos s /\
    pos s' = List.length idt + n /\
    caps s' !! "dtype"%string = Some (n, List.length idt + n).
Proof.
  unfold DECL_KONV_RE. intros H.
  apply in_mrun_seq in H as (s0 & H0 & H).
  apply in_mrun_wordb in H0 as (-> & Hb0).
  apply in_mrun_grp in H as (sE & H & ->).
  apply in_mrun_seq in H as (s1 & H1 & H).
  apply in_mrun_seq in H as (s2 & H2 & H).
  apply in_mrun_seq in H as (s3 & H3 & H).
  apply in_mrun_seq in H as (s4 & H4 & H).
  apply in_mrun_seq in H as (s5 & H5 & H).
  apply in_mrun_seq in H as (s6 & H6 & H).
  apply in_mrun_seq in H as (s7 & H7 & H).
  apply in_mrun_seq in H as (s8 & H8 & H9).
  apply decl_keyword_inv in H1 as (kw & t1 & Hkw & Hd & ->).
  apply rep_inv in H2 as (body & t2 & Hbody & Hfb & _ & _ & ->).
  apply in_mrun_wordb in H3 as (-> & Hb3).
  apply type_or_like_inv in H4 as (tl & t4 & Htl & Htol & ->).
  apply in_mrun_wordb in H5 as (-> & Hb5).
  apply rep_inv in H6 as (ws1 & t6 & Hws & Hfws & _ & _ & ->).
  apply in_mrun_grp in H8 as (s8' & H8 & ->).
  apply dtype_inv in H8 as (id & idt & t & Hidt & Hin & Hci & ->).
  apply in_mrun_wordb in H9 as (-> & Hb9).
  unfold at_boundary in Hb0, Hb3, Hb5, Hb9.
  cbn [jump set_cap rest pos prev caps] in *. subst t1 t2 t4.
  destruct (decl_keyword_word_ends kw Hd) as (Hkwe & Hkwh).
  destruct (type_or_like_words tl Htol) as (Htlne & Htlw).
  destruct (obsolete_id_words id idt Hin Hci) as (Hidne & Hidw & _).
  rewrite Hkw, Hkwh in Hb0. apply xorb_true_r_false in Hb0.
  rewrite (words_head tl _ Htlne Htlw), last_or_app in Hb3.
  apply xorb_true_r_false, (word_end_last _ _ _ Hkwe) in Hb3.
  rewrite (words_last _ tl Htlne Htlw) in Hb5.
  apply xorb_true_l_false in Hb5.
  rewrite (words_last _ idt Hidne Hidw) in Hb9.
  apply xorb_true_l_false in Hb9.
  assert (Hcap : forall sp n, n = pos s7 ->
            <["full"%string := sp]>
              (<["dtype"%string := (pos s7, List.length idt + pos s7)]> (caps s7))
            !! "dtype"%string = Some (n, List.length idt + n)).
  { intros sp n ->. rewrite lookup_insert_ne by discriminate.
    apply lookup_insert_eq. }
  apply in_mrun_opt in H7 as [H7| ->].
  - apply table_of_inv in H7 as (w & t7 & Hw & -> & Hshape).
    cbn [jump set_cap rest pos prev caps] in *. subst t7 t6.
    destruct Hshape as [Hshape|Hshape].
    + destruct (nil_or_spaces ws1 Hfws) as [->|Hsp].
      * simpl in Hb5. rewrite (table_of_words_head w _ Hshape) in Hb5.
        discriminate.
      * exists kw, body, tl, ws1, w, id, idt, t. eexists.
        split; [exact Hkw|]. split; [exact Hb0|]. split; [exact Hd|].
        split; [exact Hfb|]. split; [exact Hb3|]. split; [exact Htol|].
        split; [exact Hsp|]. split; [now right|]. split; [exact Hin|].
        split; [exact Hci|]. split; [exact Hb9|].
        split; [reflexivity|].
        assert (E : List.length (kw ++ body ++ tl ++ ws1 ++ w) + pos s
                    = List.length w + (List.length ws1 + (List.length tl
                        + (List.length body + (List.length kw + pos s)))))
          by (rewrite !List.length_app; lia).
        split; [rewrite E; reflexivity|]. apply Hcap. exact E.
    + exists kw, body, tl, (ws1 ++ w), [], id, idt, t. eexists.
      split; [rewrite Hkw, <- !List.app_assoc; reflexivity|].
      split; [exact Hb0|]. split; [exact Hd|].
      split; [exact Hfb|]. split; [exact Hb3|]. split; [exact Htol|].
      split; [now apply spaces_app|]. split; [now left|]. split; [exact Hin|].
      split; [exact Hci|]. split; [exact Hb9|].
      split; [reflexivity|].
      assert (E : List.length (kw ++ body ++ tl ++ (ws1 ++ w) ++ []) + pos s
                  = List.length w + (List.length ws1 + (List.length tl
                      + (List.length body + (List.length kw + pos s)))))
        by (rewrite !List.length_app; simpl; lia).
      split; [rewrite E; reflexivity|]. apply Hcap. exact E.
  - cbn [jump set_cap rest pos prev caps] in *. subst t6.
    destruct (nil_or_spaces ws1 Hfws) as [->|Hsp].
    + simpl in Hb5. rewrite (words_head idt t Hidne Hidw) in Hb5.
      discriminate.
    + exists kw, body, tl, ws1, [], id, idt, t. eexists.
      split; [exact Hkw|]. split; [exact Hb0|]. split; [exact Hd|].
      split; [exact Hfb|]. split; [exact Hb3|]. split; [exact Htol|].
      split; [exact Hsp|]. split; [now left|]. split; [exact Hin|].
      split; [exact Hci|]. split; [exact Hb9|].
      split; [reflexivity|].
      assert (E : List.length (kw ++ body ++ tl ++ ws1 ++ []) + pos s
                  = List.length ws1 + (List.length tl
                      + (List.length body + (List.length kw + pos s))))
        by (rewrite !List.length_app; simpl; lia).
      split; [rewrite E; reflexivity|]. apply Hcap. exact E.
Qed.

Lemma opt_table_of_intro (s : mstate) (tof t : str) :
  rest s = tof ++ t -> table_of tof ->
  In (jump s tof t) (mrun (Opt TABLE_OF) s).
Proof.
  intros Hr [->|H]; apply in_mrun_opt.
  - right. simpl in Hr. rewrite <- Hr. apply jump_nil.
  - left. now apply table_of_words_intro.
Qed.

Lemma decl_intro (s : mstate) (kw body tl ws tof id idt t : str) :
  rest s = kw ++ body ++ tl ++ ws ++ tof ++ idt ++ t ->
  is_word_opt (prev s) = false -> decl_keyword kw ->
  forallb not_dot_nl body = true -> ends_non_word body ->
  type_or_like tl -> spaces ws -> table_of tof ->
  In id obsolete_ids -> ci_eq id idt -> is_word_opt (head t) = false ->
  exists s', In s' (mrun DECL_KONV_RE s).
Proof.
  intros Hr Hprev Hd Hfb Hbody Htol Hws Htof Hin Hci Ht.
  destruct (decl_keyword_word_ends kw Hd) as (Hkwe & Hkwh).
  destruct (type_or_like_words tl Htol) as (Htlne & Htlw).
  destruct (obsolete_id_words id idt Hin Hci) as (Hidne & Hidw & _).
  set (s1 := jump s kw (body ++ tl ++ ws ++ tof ++ idt ++ t)).
  set (s2 := jump s1 body (tl ++ ws ++ tof ++ idt ++ t)).
  set (s4 := jump s2 tl (ws ++ tof ++ idt ++ t)).
  set (s6 := jump s4 ws (tof ++ idt ++ t)).
  set (s7 := jump s6 tof (idt ++ t)).
  set (s8' := jump s7 idt t).
  set (s8 := set_cap "dtype" (pos s7, pos s8') s8').
  exists (set_cap "full" (pos s, pos s8) s8). unfold DECL_KONV_RE.
  apply in_mrun_seq. exists s. split.
  { apply in_mrun_wordb. split; [reflexivity|]. unfold at_boundary.
    now rewrite Hr, Hkwh, Hprev. }
  apply in_mrun_grp. exists s8. split; [|reflexivity].
  apply in_mrun_seq. exists s1. split; [now apply decl_keyword_intro|].
  apply in_mrun_seq. exists s2.
  split; [apply rep_intro; [reflexivity|exact Hfb|lia|discriminate]|].
  apply in_mrun_seq. exists s2. split.
  { apply in_mrun_wordb. split; [reflexivity|]. unfold at_boundary.
    cbn [s2 s1 jump rest prev].
    rewrite (words_head tl _ Htlne Htlw), last_or_app.
    apply (word_end_last (prev s) _ _ Hkwe) in Hbody. now rewrite Hbody. }
  apply in_mrun_seq. exists s4. split.
  { destruct Htol as [H|H]; apply in_mrun_alt; [left|right];
      now apply lit_intro. }
  apply in_mrun_seq. exists s4. split.
  { apply in_mrun_wordb. split; [reflexivity|]. unfold at_boundary.
    cbn [s4 jump rest prev].
    now rewrite (words_last _ tl Htlne Htlw), (spaces_head ws _ Hws). }
  apply in_mrun_seq. exists s6.
  split; [apply rep_intro; [reflexivity|apply Hws|lia|discriminate]|].
  apply in_mrun_seq. exists s7. split; [now apply opt_table_of_intro|].
  apply in_mrun_seq. exists s8. split.
  { apply in_mrun_grp. exists s8'. split; [|reflexivity].
    now apply (dtype_intro s7 id). }
  apply in_mrun_wordb. split; [reflexivity|]. unfold at_boundary.
  cbn [s8 s8' set_cap jump rest prev].
  now rewrite (words_last _ idt Hidne Hidw), Ht.
Qed.

Lemma decl_nonempty (p : nat) (pv : option char) (txt : str) (m : rmatch) :
  match_here DECL_KONV_RE p pv txt = Some m -> p < m_end m.
Proof.
  intros H. apply match_here_state in H as (s' & Hin & -> & _).
  apply decl_inv in Hin
    as (kw & body & tl & ws & tof & id & idt & t & n & _ & _ & _ & _ & _ & _
        & _ & _ & Hid & Hci & _ & -> & -> & _).
  destruct (obsolete_id_words id idt Hid Hci) as (Hne & _).
  apply nonempty_length in Hne. simpl. lia.
Qed.

Lemma decl_starts (src : str) (p : nat) :
  In p (match_starts DECL_KONV_RE src) <->
  exists id, declares not_dot_nl src p id.
Proof.
  split.
  - intros H.
    apply (starts_from_spec _ src _ _ _ _ (position_start src)) in H
      as (pv & txt & m & (done & -> & -> & ->) & Hm).
    apply match_here_state in Hm as (s' & Hin & _).
    apply decl_inv in Hin
      as (kw & body & tl & ws & tof & id & idt & t & n & Hr & H1 & H2 & H3
          & H4 & H5 & H6 & H7 & H8 & H9 & H10 & _).
    simpl in Hr, H1. subst txt. exists id.
    exists done, kw, body, tl, ws, tof, idt, t. auto 15.
  - intros (id & pre & kw & body & tl & ws & tof & idt & post & -> & -> & H1
            & H2 & H3 & H4 & H5 & H6 & H7 & H8 & H9 & H10).
    destruct (decl_intro
                {| pos := List.length pre; prev := last pre;
                   rest := kw ++ body ++ tl ++ ws ++ tof ++ idt ++ post;
                   caps := ∅ |}
                kw body tl ws tof id idt post eq_refl H1 H2 H3 H4 H5 H6 H7 H8
                H9 H10) as (s' & Hin).
    apply match_here_some in Hin as (m & Hm).
    unfold match_starts.
    rewrite <- (Nat.add_0_r (List.length pre)).
    apply (starts_from_complete _ pre 0 None _ m).
    now rewrite Nat.add_0_r, last_or_none.
Qed.

Lemma decl_group (src : str) (m : rmatch) :
  In m (finditer DECL_KONV_RE src) ->
  exists id, In id obsolete_ids /\ ci_eq id (group src m "dtype").
Proof.
  intros H. apply finditer_sound in H
    as (p & pv & txt & (done & -> & -> & ->) & Hm).
  apply match_here_state in Hm as (s' & Hin & _ & Hg).
  apply decl_inv in Hin
    as (kw & body & tl & ws & tof & id & idt & t & n & Hr & _ & _ & _ & _ & _
        & _ & _ & Hid & Hci & _ & Hn & _ & Hcap).
  simpl in Hr, Hn. subst txt. exists id. split; [exact Hid|].
  unfold group. rewrite Hg, Hcap.
  replace (done ++ kw ++ body ++ tl ++ ws ++ tof ++ idt ++ t)
    with ((done ++ kw ++ body ++ tl ++ ws ++ tof) ++ idt ++ t)
    by (now rewrite <- !List.app_assoc).
  replace n with (List.length (done ++ kw ++ body ++ tl ++ ws ++ tof))
    by (rewrite Hn, !List.length_app; lia).
  rewrite slice_middle. exact Hci.
Qed.

(** ** Obsolete identifiers that only begin a longer word *)

Lemma only_as_prefix_at (x y : str) :
  only_as_prefix (x ++ y) = true ->
  forallb (followed_by_word y) obsolete_ids = true.
Proof.
  induction x as [|c x IH]; intros H.
  - destruct y; cbn [app only_as_prefix] in H;
      now apply andb_true_iff in H as (H & _).
  - cbn [app only_as_prefix] in H. apply andb_true_iff in H as (_ & H).
    now apply IH.
Qed.

Lemma only_as_prefix_no_word (src x idt t id : str) :
  only_as_prefix src = true -> src = x ++ idt ++ t ->
  In id obsolete_ids -> ci_eq id idt -> is_word_opt (head t) = false ->
  False.
Proof.
  intros H -> Hin Hci Ht. apply only_as_prefix_at in H.
  rewrite forallb_forall in H. specialize (H id Hin).
  unfold followed_by_word in H. rewrite (ci_eq_prefix _ _ t Hci) in H.
  destruct t as [|c t]; [discriminate|]. simpl in Ht. congruence.
Qed.

(** ** What a reported match is *)

Lemma sql_hit (src : str) (m : rmatch) :
  In m (finditer SQL_KONV_RE src) -> dml_statement_on_konv src (m_start m).
Proof.
  intros H. apply finditer_sound in H as (p & pv & txt & Hpos & Hm).
  rewrite (match_here_start _ _ _ _ _ Hm). apply sql_starts.
  destruct Hpos as (done & -> & -> & ->). unfold match_starts.
  rewrite <- (Nat.add_0_r (List.length done)).
  apply (starts_from_complete _ done 0 None _ m).
  now rewrite Nat.add_0_r, last_or_none.
Qed.

Lemma decl_hit (src : str) (m : rmatch) :
  In m (finditer DECL_KONV_RE src) ->
  exists id, In id obsolete_ids /\ declares not_dot_nl src (m_start m) id /\
             ci_eq id (group src m "dtype").
Proof.
  intros H. apply finditer_sound in H
    as (p & pv & txt & (done & -> & -> & ->) & Hm).
  rewrite (match_here_start _ _ _ _ _ Hm).
  apply match_here_state in Hm as (s' & Hin & _ & Hg).
  apply decl_inv in Hin
    as (kw & body & tl & ws & tof & id & idt & t & n & Hr & H1 & H2 & H3
        & H4 & H5 & H6 & H7 & Hid & Hci & H10 & Hn & _ & Hcap).
  simpl in Hr, Hn, H1. subst txt. exists id. split; [exact Hid|]. split.
  - exists done, kw, body, tl, ws, tof, idt, t. auto 15.
  - unfold group. rewrite Hg, Hcap.
    replace (done ++ kw ++ body ++ tl ++ ws ++ tof ++ idt ++ t)
      with ((done ++ kw ++ body ++ tl ++ ws ++ tof) ++ idt ++ t)
      by (now rewrite <- !List.app_assoc).
    replace n with (List.length (done ++ kw ++ body ++ tl ++ ws ++ tof))
      by (rewrite Hn, !List.length_app; lia).
    rewrite slice_middle. exact Hci.
Qed.

Lemma findings_list_collect (u : Unit) : findings_list u = collect_findings u.
Proof.
  unfold findings_list, analyze_unit. simpl.
  now destruct (collect_findings u).
Qed.


Lemma emitted_type (u : Unit) (m : rmatch) :
  In m (finditer DECL_KONV_RE (or_empty (code u))) ->
  emitted u (type_finding u (or_empty (code u)) m).
Proof.
  intros H. apply emitted_tagged. exists (inr m). split; [|reflexivity].
  unfold tagged_matches. apply in_app_iff. right. now apply in_map.
Qed.

Lemma has_issue_table (u : Unit) (src : str) (m : rmatch) :
  has_issue "ObsoleteTableUsage" (table_finding u src m) = true /\
  has_issue "ObsoleteTypeDeclaration" (table_finding u src m) = false.
Proof. split; reflexivity. Qed.


(** ** The replacement lookups *)

Lemma type_map_lookup (k : str) :
  dict_get OBSOLETE_TYPE_MAP k
  = if decide (k = lit "KONV") then lit "PRCD_ELEMENTS"
    else if decide (k = lit "DZAEHK") then lit "VFPRC_COND_COUNT"
    else if decide (k = lit "DZAEKO") then lit "VFPRC_COND_COUNT_HEAD"
    else [].
Proof.
  unfold dict_get, OBSOLETE_TYPE_MAP.
  destruct (decide (k = lit "KONV")) as [->|H1];
    [now rewrite lookup_insert_eq|].
  rewrite lookup_insert_ne by congruence.
  destruct (decide (k = lit "DZAEHK")) as [->|H2];
    [now rewrite lookup_insert_eq|].
  rewrite lookup_insert_ne by congruence.
  destruct (decide (k = lit "DZAEKO")) as [->|H3];
    [now rewrite lookup_singleton_eq|].
  now rewrite lookup_singleton_ne by congruence.
Qed.

Lemma table_map_lookup (k : str) :
  dict_get OBSOLETE_TABLE_MAP k
  = if decide (k = lit "KONV") then lit "PRCD_ELEMENTS" else [].
Proof.
  unfold dict_get, OBSOLETE_TABLE_MAP.
  destruct (decide (k = lit "KONV")) as [->|H1];
    [now rewrite lookup_singleton_eq|].
  now rewrite lookup_singleton_ne by congruence.
Qed.

Lemma kelvin_lookup (k : str) :
  In KELVIN_SIGN k ->
  dict_get OBSOLETE_TABLE_MAP k = [] /\ dict_get OBSOLETE_TYPE_MAP k = [].
Proof.
  intros Hk. pose proof (kelvin_no_key k Hk) as Hn. unfold obsolete_ids in Hn.
  rewrite table_map_lookup, type_map_lookup.
  repeat (destruct (decide _) as [->|?]; [exfalso; apply Hn; simpl; auto|]).
  split; reflexivity.
Qed.


Lemma type_finding_texts (u : Unit) (src : str) (m : rmatch) (id : str) :
  In id obsolete_ids -> ci_eq id (group src m "dtype") ->
  (~ In KELVIN_SIGN (group src m "dtype") ->
   exists repl, In (id, repl) type_replacements /\
     message (type_finding u src m) = Some (type_message id repl) /\
     suggestion (type_finding u src m) = Some (type_suggestion repl)) /\
  (In KELVIN_SIGN (group src m "dtype") ->
   message (type_finding u src m)
   = Some (type_message (str_upper (group src m "dtype")) []) /\
   suggestion (type_finding u src m) = Some (type_suggestion [])).
Proof.
  intros Hid H. unfold type_finding.
  cbn [span make_finding message suggestion]. split; intros Hk.
  - rewrite (obsolete_id_upper id _ Hid H Hk).
    unfold obsolete_ids in Hid. destruct Hid as [<-|[<-|[<-|[]]]].
    + exists (lit "PRCD_ELEMENTS"). split; [now left|].
      split; vm_compute; reflexivity.
    + exists (lit "VFPRC_COND_COUNT"). split; [right; now left|].
      split; vm_compute; reflexivity.
    + exists (lit "VFPRC_COND_COUNT_HEAD"). split; [right; right; now left|].
      split; vm_compute; reflexivity.
  - destruct (kelvin_lookup _ (str_upper_kelvin _ Hk)) as (_ & ->).
    split; reflexivity.
Qed.

(** ** The group of the whole declaration *)

Lemma decl_full (s s' : mstate) :
  In s' (mrun DECL_KONV_RE s) ->
  caps s' !! "full"%string = Some (pos s, pos s').
Proof.
  unfold DECL_KONV_RE. intros H.
  apply in_mrun_seq in H as (s0 & H0 & H).
  apply in_mrun_wordb in H0 as (-> & _).
  apply in_mrun_grp in H as (sE & _ & ->).
  cbn [set_cap caps pos]. apply lookup_insert_eq.
Qed.

Lemma slice_at (x y z : str) (a b : nat) :
  a = List.length x -> b = List.length y + a -> slice (x ++ y ++ z) a b = y.
Proof. intros -> ->. apply slice_middle. Qed.

(** ** The lazy quantifiers of the DML pattern *)

Lemma mrun_seq_eq (r1 r2 : regex) (s : mstate) :
  mrun (r1 +> r2) s = flat_map (mrun r2) (mrun r1 s).
Proof. reflexivity. Qed.

Lemma mrun_alt_eq (r1 r2 : regex) (s : mstate) :
  mrun (r1 </> r2) s = mrun r1 s ++ mrun r2 s.
Proof. reflexivity. Qed.

Lemma flat_map_head {A B : Type} (f : A -> list B) (l : list A) (h : B)
    (t : list B) :
  flat_map f l = h :: t ->
  exists l1 y l2 t',
    l = l1 ++ y :: l2 /\ (forall z, In z l1 -> f z = []) /\ f y = h :: t'.
Proof.
  induction l as [|a l IH]; intros H; [discriminate|].
  cbn [flat_map] in H. destruct (f a) as [|b fb] eqn:E.
  - destruct (IH H) as (l1 & y & l2 & t' & -> & H1 & H2).
    exists (a :: l1), y, l2, t'. split; [reflexivity|].
    split; [|exact H2]. intros z [<-|Hz]; auto.
  - inversion H; subst. exists [], a, l, fb. split; [reflexivity|].
    split; [intros z []|exact E].
Qed.

Lemma ordered_app {A : Type} (R : A -> A -> Prop) (l1 l2 : list A) :
  ForallOrdPairs R l1 -> ForallOrdPairs R l2 ->
  (forall a b, In a l1 -> In b l2 -> R a b) ->
  ForallOrdPairs R (l1 ++ l2).
Proof.
  intros H1 H2 H12. induction H1 as [|a l Ha Hl IH]; [exact H2|].
  cbn [app]. constructor.
  - apply List.Forall_app. split; [exact Ha|].
    apply List.Forall_forall. intros b Hb. apply H12; [now left|exact Hb].
  - apply IH. intros x y Hx Hy. apply H12; [now right|exact Hy].
Qed.

Lemma ordered_after {A : Type} (R : A -> A -> Prop) (l1 l2 : list A) (y : A) :
  ForallOrdPairs R (l1 ++ y :: l2) -> forall z, In z l2 -> R y z.
Proof.
  induction l1 as [|a l1 IH]; cbn [app]; intros H z Hz;
    inversion H as [|? ? Ha Hl]; subst.
  - rewrite List.Forall_forall in Ha. now apply Ha.
  - now apply IH.
Qed.

Lemma ordered_all {A : Type} (R : A -> A -> Prop) (l : list A) :
  (forall a b, In a l -> In b l -> R a b) -> ForallOrdPairs R l.
Proof.
  induction l as [|a l IH]; intros H; constructor.
  - apply List.Forall_forall. intros b Hb. apply H; [now left|now right].
  - apply IH. intros x y Hx Hy. apply H; now right.
Qed.

Lemma ordered_skipn {A : Type} (R : A -> A -> Prop) (l : list A) : forall n,
  ForallOrdPairs R l -> ForallOrdPairs R (skipn n l).
Proof.
  induction l as [|a l IH]; intros [|n] H; cbn [skipn]; try exact H.
  inversion H; subst. now apply IH.
Qed.

Lemma rep_states_nth (f : char -> bool) : forall n s i z,
  nth_error (rep_states f n s) i = Some z -> pos z = i + pos s.
Proof.
  induction n as [|n IH]; intros s i z H; cbn [rep_states] in H.
  - destruct i as [|i]; [now inversion H|]. destruct i; discriminate.
  - destruct i as [|i]; [now inversion H|]. cbn [nth_error] in H.
    destruct (rest s) as [|c tl]; [destruct i; discriminate|].
    destruct (f c); [|destruct i; discriminate].
    apply IH in H. cbn [adv pos] in H. lia.
Qed.

Lemma rep_states_ascending (f : char -> bool) (n : nat) (s : mstate) :
  ForallOrdPairs (fun a b => pos a < pos b) (rep_states f n s).
Proof.
  revert s. induction n as [|n IH]; intros s; cbn [rep_states].
  - repeat constructor.
  - constructor.
    + destruct (rest s) as [|c tl]; [constructor|].
      destruct (f c); [|constructor].
      apply List.Forall_forall. intros z Hz.
      apply In_nth_error in Hz as (i & Hi). apply rep_states_nth in Hi.
      cbn [adv pos] in Hi. lia.
    + destruct (rest s) as [|c tl]; [constructor|].
      destruct (f c); [apply IH|constructor].
Qed.

Lemma lit_pos (w : str) (s x : mstate) :
  In x (mrun (Lit w) s) -> pos x = List.length w + pos s.
Proof.
  intros H. apply lit_inv in H as (a & t & _ & Hc & ->).
  apply ci_eq_length in Hc. cbn [jump pos]. lia.
Qed.

Lemma lit_unique (w : str) (s x y : mstate) :
  In x (mrun (Lit w) s) -> In y (mrun (Lit w) s) -> x = y.
Proof. rewrite !in_mrun_lit. congruence. Qed.

(** the results of [x.+?y], shortest first *)
Lemma lit_lazy_lit_ordered (x y : str) (f : char -> bool) (s : mstate) :
  ForallOrdPairs (fun a b => pos a <= pos b)
    (mrun (Lit x +> Rep false 1 None f +> Lit y) s).
Proof.
  rewrite mrun_seq_eq.
  assert (H1 : forall z, ForallOrdPairs (fun a b => pos a <= pos b)
                           (mrun (Rep false 1 None f +> Lit y) z)).
  { intros z. rewrite mrun_seq_eq.
    change (mrun (Rep false 1 None f) z)
      with (skipn 1 (rep_states f (rep_bound None z) z)).
    pose proof (ordered_skipn _ _ 1
                  (rep_states_ascending f (rep_bound None z) z)) as Hasc.
    induction Hasc as [|a l Ha Hl IH]; [constructor|].
    cbn [flat_map]. apply ordered_app; [|exact IH|].
    - apply ordered_all. intros u v Hu Hv.
      rewrite (lit_unique _ _ _ _ Hu Hv). lia.
    - intros u v Hu Hv. apply in_flat_map in Hv as (b & Hb & Hv).
      rewrite List.Forall_forall in Ha. specialize (Ha b Hb).
      rewrite (lit_pos _ _ _ Hu), (lit_pos _ _ _ Hv). lia. }
  cbn [mrun]. destruct (run_lit x s) as [s1|]; [|constructor].
  cbn [flat_map]. rewrite List.app_nil_r. apply H1.
Qed.

Lemma nth_error_app_mid {A : Type} (a : list A) (c : A) (b : list A) :
  nth_error (a ++ c :: b) (List.length a) = Some c.
Proof. induction a; simpl; auto. Qed.

Lemma nth_error_app_in {A : Type} (a b : list A) (i : nat) (x : A) :
  nth_error (a ++ b) i = Some x -> i < List.length a -> In x a.
Proof.
  revert i. induction a as [|y a IH]; intros i H Hi; [simpl in Hi; lia|].
  destruct i as [|i]; [inversion H; now left|].
  right. apply (IH i); [exact H|simpl in Hi; lia].
Qed.

(** a run of white space that is followed by a word character has one
    length only *)
Lemma spaces_then_word (b1 c1 t1 b2 c2 t2 : str) :
  b1 ++ c1 ++ t1 = b2 ++ c2 ++ t2 ->
  forallb is_space b1 = true -> forallb is_space b2 = true ->
  is_word_opt (head (c1 ++ t1)) = true ->
  is_word_opt (head (c2 ++ t2)) = true ->
  List.length b1 = List.length b2.
Proof.
  revert b2. induction b1 as [|x b1 IH]; intros b2 E H1 H2 Hc1 Hc2.
  - destruct b2 as [|y b2]; [reflexivity|]. cbn [app] in E.
    rewrite E in Hc1. cbn [head is_word_opt] in Hc1. cbn [forallb] in H2.
    apply andb_true_iff in H2 as (Hy & _). apply space_not_word in Hy.
    congruence.
  - destruct b2 as [|y b2].
    + cbn [app] in E. rewrite <- E in Hc2. cbn [head is_word_opt] in Hc2.
      cbn [forallb] in H1. apply andb_true_iff in H1 as (Hx & _).
      apply space_not_word in Hx. congruence.
    + cbn [app] in E. inversion E; subst. cbn [forallb] in H1, H2.
      apply andb_true_iff in H1 as (_ & H1).
      apply andb_true_iff in H2 as (_ & H2).
      cbn [List.length]. f_equal. now apply (IH b2).
Qed.

Lemma app_same_length {A : Type} (a1 b1 a2 b2 : list A) :
  a1 ++ b1 = a2 ++ b2 -> List.length a1 = List.length a2 ->
  a1 = a2 /\ b1 = b2.
Proof.
  revert a2. induction a1 as [|x a1 IH]; intros [|y a2] E L;
    try discriminate; [now split|].
  cbn [app] in E. inversion E; subst. simpl in L.
  destruct (IH a2 H1) as (-> & ->); [lia|]. now split.
Qed.

(** the results of [x\s+y] all end at the same offset when [y] is a word *)
Lemma lit_spaces_lit_pos (x y : str) (s u v : mstate) :
  y <> [] -> forallb ascii_word y = true ->
  In u (mrun (Lit x +> Rep true 1 None is_space +> Lit y) s) ->
  In v (mrun (Lit x +> Rep true 1 None is_space +> Lit y) s) ->
  pos u = pos v.
Proof.
  intros Hy Hw Hu Hv.
  apply lit_rep_lit_inv in Hu as (a1 & b1 & c1 & t1 & E1 & Ha1 & _ & Hf1 & Hc1 & ->).
  apply lit_rep_lit_inv in Hv as (a2 & b2 & c2 & t2 & E2 & Ha2 & _ & Hf2 & Hc2 & ->).
  cbn [jump pos]. rewrite !List.length_app.
  rewrite (ci_eq_length _ _ Ha1), (ci_eq_length _ _ Ha2),
    (ci_eq_length _ _ Hc1), (ci_eq_length _ _ Hc2).
  rewrite E1, <- !List.app_assoc in E2.
  apply app_same_length in E2 as (_ & E2);
    [|now rewrite (ci_eq_length _ _ Ha1), (ci_eq_length _ _ Ha2)].
  assert (List.length b1 = List.length b2); [|lia].
  apply (spaces_then_word b1 c1 t1 b2 c2 t2 E2 Hf1 Hf2).
  - apply words_head; [now apply (ci_eq_nonempty _ _ Hc1)|
                       now apply (ci_eq_words _ _ Hc1)].
  - apply words_head; [now apply (ci_eq_nonempty _ _ Hc2)|
                       now apply (ci_eq_words _ _ Hc2)].
Qed.

Lemma lit_first (p : char) (w : str) (r : regex) (s x : mstate) :
  In x (mrun (Lit (p :: w)) s) \/ In x (mrun (Lit (p :: w) +> r) s) ->
  exists c tl, rest s = c :: tl /\ ci_char p c = true.
Proof.
  intros [H|H].
  - apply in_mrun_lit in H. cbn [run_lit] in H.
    destruct (rest s) as [|c tl]; [discriminate|].
    destruct (ci_char p c) eqn:E; [eauto|discriminate].
  - apply in_mrun_seq in H as (s1 & H & _).
    apply in_mrun_lit in H. cbn [run_lit] in H.
    destruct (rest s) as [|c tl]; [discriminate|].
    destruct (ci_char p c) eqn:E; [eauto|discriminate].
Qed.

Lemma first_letters_differ (p q c : char) :
  (p < 128)%N -> (q < 128)%N ->
  ci_char p c = true -> ci_char q c = true -> tolower p = tolower q.
Proof.
  intros Hp Hq Hc Hc'. apply (ci_char_ascii q c Hq) in Hc'.
  pose proof (for_ascii_class
    (fun p c => forallb (fun q => implb (existsb (N.eqb c) (ascii_class q))
                                    (tolower p =? tolower q)%N) ascii_chars)
    ltac:(vm_compute; reflexivity) p c Hp Hc) as H.
  cbv beta in H. rewrite forallb_forall in H.
  specialize (H q (ascii_chars_complete q Hq)).
  assert (E : existsb (N.eqb c) (ascii_class q) = true)
    by (apply existsb_exists; exists c; split; [exact Hc'|apply N.eqb_refl]).
  rewrite E in H. now apply N.eqb_eq.
Qed.

(** the keyword spans found at one offset, in the order in which the
    matcher tries them, never get shorter *)
Lemma dml_start_ordered (s : mstate) :
  ForallOrdPairs (fun a b => pos a <= pos b) (mrun DML_START s).
Proof.
  unfold DML_START.
  assert (Hx : forall p q w1 w2 r1 r2 a b,
    (p < 128)%N -> (q < 128)%N -> tolower p <> tolower q ->
    In a (mrun (Lit (p :: w1)) s) \/ In a (mrun (Lit (p :: w1) +> r1) s) ->
    In b (mrun (Lit (q :: w2)) s) \/ In b (mrun (Lit (q :: w2) +> r2) s) ->
    False).
  { intros p q w1 w2 r1 r2 a b Hp Hq Hpq Ha Hb.
    apply lit_first in Ha as (c & tl & E & Hc).
    apply lit_first in Hb as (c' & tl' & E' & Hc').
    rewrite E in E'. inversion E'; subst.
    apply Hpq. eapply first_letters_differ; eassumption. }
  rewrite (mrun_alt_eq _ _ s). apply ordered_app.
  - apply lit_lazy_lit_ordered.
  - rewrite (mrun_alt_eq _ _ s). apply ordered_app.
    + apply ordered_all. intros a b Ha Hb.
      rewrite (lit_spaces_lit_pos (lit "INSERT") (lit "INTO") s a b
                 ltac:(discriminate) eq_refl Ha Hb).
      lia.
    + rewrite (mrun_alt_eq _ _ s). apply ordered_app.
      * apply ordered_all. intros a b Ha Hb.
        rewrite (lit_unique _ _ _ _ Ha Hb). lia.
      * apply ordered_all. intros a b Ha Hb.
        rewrite (lit_spaces_lit_pos (lit "DELETE") (lit "FROM") s a b
                   ltac:(discriminate) eq_refl Ha Hb). lia.
      * intros a b Ha Hb. exfalso.
        eapply (Hx 85%N 68%N (lit "PDATE") (lit "ELETE") Eps _ a b);
          [reflexivity|reflexivity|vm_compute; discriminate|left; exact Ha
           |right; exact Hb].
    + intros a b Ha Hb. exfalso. apply in_mrun_alt in Hb as [Hb|Hb].
      * eapply (Hx 73%N 85%N (lit "NSERT") (lit "PDATE") _ Eps a b);
          [reflexivity|reflexivity|vm_compute; discriminate|right; exact Ha
           |left; exact Hb].
      * eapply (Hx 73%N 68%N (lit "NSERT") (lit "ELETE") _ _ a b);
          [reflexivity|reflexivity|vm_compute; discriminate|right; exact Ha
           |right; exact Hb].
  - intros a b Ha Hb. exfalso.
    apply in_mrun_alt in Hb as [Hb|Hb]; [|apply in_mrun_alt in Hb as [Hb|Hb]].
    + eapply (Hx 83%N 73%N (lit "ELECT") (lit "NSERT") _ _ a b);
        [reflexivity|reflexivity|vm_compute; discriminate|right; exact Ha
           |right; exact Hb].
    + eapply (Hx 83%N 85%N (lit "ELECT") (lit "PDATE") _ Eps a b);
        [reflexivity|reflexivity|vm_compute; discriminate|right; exact Ha
           |left; exact Hb].
    + eapply (Hx 83%N 68%N (lit "ELECT") (lit "ELETE") _ _ a b);
        [reflexivity|reflexivity|vm_compute; discriminate|right; exact Ha
           |right; exact Hb].
Qed.

Lemma konv_tail_pos (s x : mstate) :
  In x (mrun (WordB +> Grp "table" (Lit (lit "KONV")) +> WordB
              +> NotAhead is_word) s) ->
  pos x = 4 + pos s.
Proof.
  intros H. apply in_mrun_seq in H as (s1 & H1 & H).
  apply in_mrun_seq in H as (s2 & H2 & H).
  apply in_mrun_seq in H as (s3 & H3 & H4).
  apply in_mrun_wordb in H1 as (-> & _).
  apply in_mrun_grp in H2 as (s2' & H2 & ->).
  apply lit_pos in H2. apply in_mrun_wordb in H3 as (-> & _).
  apply in_mrun_notahead in H4 as (-> & _). exact H2.
Qed.

(** Among all the ways in which the DML pattern matches from one position,
    the one the matcher takes ends first. *)
Lemma sql_head_min (s0 h : mstate) (t : list mstate) :
  mrun SQL_KONV_RE s0 = h :: t ->
  forall x, In x (mrun SQL_KONV_RE s0) -> pos h <= pos x.
Proof.
  unfold SQL_KONV_RE.
  set (TAILK := (WordB +> Grp "table" (Lit (lit "KONV")) +> WordB
                 +> NotAhead is_word)%re).
  set (GAP := Rep false 0 (Some 1000) any_char).
  intros Hh x Hx.
  rewrite mrun_seq_eq in Hh.
  apply flat_map_head in Hh as (l1 & s1 & l2 & t1 & HL & Hl1 & Hh).
  rewrite mrun_seq_eq in Hh.
  apply flat_map_head in Hh as (r1 & s2 & r2 & t2 & HR & Hr1 & Hh).
  apply in_mrun_seq in Hx as (s1' & Hs1' & Hx).
  pose proof Hx as Hx1.
  apply in_mrun_seq in Hx as (s2' & Hs2' & Hx).
  assert (Hph : pos h = 4 + pos s2)
    by (apply konv_tail_pos; fold TAILK; rewrite Hh; now left).
  rewrite (konv_tail_pos _ _ Hx), Hph.
  destruct (Nat.le_gt_cases (pos s2) (pos s2')) as [Hle|Hlt]; [lia|exfalso].
  (* the keyword of the other match is not shorter *)
  assert (Hord : pos s1 <= pos s1').
  { rewrite HL in Hs1'. apply in_app_iff in Hs1' as [Hin|[<-|Hin]].
    - rewrite (Hl1 _ Hin) in Hx1. destruct Hx1.
    - lia.
    - pose proof (dml_start_ordered s0) as Ho. rewrite HL in Ho.
      apply (ordered_after _ _ _ _ Ho _ Hin). }
  assert (Hs1 : In s1 (mrun DML_START s0))
    by (rewrite HL; apply in_app_iff; right; now left).
  apply dml_start_inv in Hs1 as (kw & ta & Ekw & _ & ->).
  apply dml_start_inv in Hs1' as (kw' & tb & Ekw' & _ & ->).
  apply rep_inv in Hs2' as (gap' & tg' & Eg' & _ & _ & _ & ->).
  change (mrun GAP (jump s0 kw ta))
    with (rep_states any_char 1000 (jump s0 kw ta)) in HR.
  pose proof (nth_error_app_mid r1 s2 r2) as Hn2. rewrite <- HR in Hn2.
  apply rep_states_nth in Hn2.
  assert (Hlen2 : List.length (rep_states any_char 1000 (jump s0 kw ta)) <= 1001).
  { clear. generalize (jump s0 kw ta). generalize 1000.
    induction n as [|n IH]; intros s; cbn [rep_states]; [simpl; lia|].
    destruct (rest s) as [|c tl]; [simpl; lia|].
    destruct (any_char c); [|simpl; lia].
    specialize (IH (adv s c tl)). simpl in *. lia. }
  rewrite HR, List.length_app in Hlen2. cbn [List.length] in Hlen2.
  cbn [jump pos rest] in *.
  (* the state of the other match lies among those tried before [s2] *)
  set (wg := skipn (List.length kw) (kw' ++ gap')).
  assert (Eall : kw ++ ta = kw' ++ gap' ++ tg')
    by (rewrite <- Ekw, Ekw', Eg'; reflexivity).
  assert (Ewg : kw ++ wg = kw' ++ gap' /\ ta = wg ++ tg').
  { assert (E1 : skipn (List.length kw) ((kw' ++ gap') ++ tg') = ta).
    { rewrite <- List.app_assoc, <- Eall. apply drop_app_length. }
    rewrite List.skipn_app in E1.
    replace (List.length kw - List.length (kw' ++ gap')) with 0 in E1
      by (rewrite List.length_app; lia).
    rewrite List.skipn_O in E1. fold wg in E1. split; [|now rewrite E1].
    rewrite <- E1, !List.app_assoc in Eall.
    now apply app_inv_tail in Eall. }
  destruct Ewg as (Ewg & Eta).
  assert (Lwg : List.length wg + List.length kw
                = List.length gap' + List.length kw').
  { apply (f_equal (@List.length char)) in Ewg.
    rewrite !List.length_app in Ewg. lia. }
  pose proof (rep_states_complete any_char wg 1000 (jump s0 kw ta) tg'
                Eta (any_char_true wg) ltac:(lia)) as Hnth.
  rewrite jump_jump, Ewg, <- (jump_jump s0 kw' tb gap' tg'), HR in Hnth.
  apply nth_error_app_in in Hnth; [|lia].
  rewrite (Hr1 _ Hnth) in Hx. destruct Hx.
Qed.

Lemma sql_intro_pos (s : mstate) (kw gap id t : str) :
  rest s = kw ++ gap ++ id ++ t -> dml_start kw ->
  List.length gap <= 1000 -> ends_non_word gap ->
  ci_eq (lit "KONV") id -> is_word_opt (head t) = false ->
  exists s', In s' (mrun SQL_KONV_RE s) /\
             pos s' = List.length id + (List.length gap
                                        + (List.length kw + pos s)).
Proof.
  intros Hr Hd Hlen Hgap Hci Ht.
  assert (Hne : id <> []) by (apply (ci_eq_nonempty _ _ Hci); discriminate).
  pose proof (ci_eq_words _ _ Hci konv_word) as Hw.
  set (s1 := jump s kw (gap ++ id ++ t)).
  set (s2 := jump s1 gap (id ++ t)).
  set (s3 := jump s2 id t).
  set (s4 := set_cap "table" (pos s2, pos s3) s3).
  exists s4. split; [|reflexivity]. unfold SQL_KONV_RE.
  apply in_mrun_seq. exists s1. split; [now apply dml_start_intro|].
  apply in_mrun_seq. exists s2.
  split; [apply rep_intro; try easy; [apply any_char_true|lia
                                      |now intros h [= <-]]|].
  apply in_mrun_seq. exists s2. split.
  { apply in_mrun_wordb. split; [reflexivity|]. unfold at_boundary.
    cbn [s2 s1 jump rest prev]. rewrite (words_head id t Hne Hw), last_or_app.
    apply (dml_start_last (prev s) kw gap Hd) in Hgap. now rewrite Hgap. }
  apply in_mrun_seq. exists s4. split.
  { apply in_mrun_grp. exists s3. split; [now apply lit_intro|reflexivity]. }
  apply in_mrun_seq. exists s4. split.
  { apply in_mrun_wordb. split; [reflexivity|]. unfold at_boundary.
    cbn [s4 s3 set_cap jump rest prev]. rewrite (words_last _ id Hne Hw), Ht.
    reflexivity. }
  apply in_mrun_notahead. split; [reflexivity|].
  cbn [s4 s3 set_cap jump rest]. now apply head_non_word.
Qed.

(** ** The lazy body of the declaration pattern *)

Lemma decl_clause_split :
  DECL_KONV_RE
  = (WordB +> Grp "full" (DECL_KEYWORD +> Rep false 0 None not_dot_nl
                          +> DECL_CLAUSE))%re.
Proof. reflexivity. Qed.

Lemma clause_inv (s x : mstate) :
  In x (mrun DECL_CLAUSE s) ->
  exists tl ws tof id idt t n,
    rest s = tl ++ ws ++ tof ++ idt ++ t /\
    is_word_opt (prev s) = false /\
    type_or_like tl /\ spaces ws /\ table_of tof /\
    In id obsolete_ids /\ ci_eq id idt /\ is_word_opt (head t) = false /\
    n = List.length (tl ++ ws ++ tof) + pos s /\
    pos x = List.length idt + n /\
    caps x !! "dtype"%string = Some (n, List.length idt + n).
Proof.
  unfold DECL_CLAUSE. intros H.
  apply in_mrun_seq in H as (s3 & H3 & H).
  apply in_mrun_seq in H as (s4 & H4 & H).
  apply in_mrun_seq in H as (s5 & H5 & H).
  apply in_mrun_seq in H as (s6 & H6 & H).
  apply in_mrun_seq in H as (s7 & H7 & H).
  apply in_mrun_seq in H as (s8 & H8 & H9).
  apply in_mrun_wordb in H3 as (-> & Hb3).
  apply type_or_like_inv in H4 as (tl & t4 & Htl & Htol & ->).
  apply in_mrun_wordb in H5 as (-> & Hb5).
  apply rep_inv in H6 as (ws1 & t6 & Hws & Hfws & _ & _ & ->).
  apply in_mrun_grp in H8 as (s8' & H8 & ->).
  apply dtype_inv in H8 as (id & idt & t & Hidt & Hin & Hci & ->).
  apply in_mrun_wordb in H9 as (-> & Hb9).
  unfold at_boundary in Hb3, Hb5, Hb9.
  cbn [jump set_cap rest pos prev caps] in *. subst t4.
  destruct (type_or_like_words tl Htol) as (Htlne & Htlw).
  destruct (obsolete_id_words id idt Hin Hci) as (Hidne & Hidw & _).
  rewrite Htl, (words_head tl _ Htlne Htlw) in Hb3.
  apply xorb_true_r_false in Hb3.
  rewrite (words_last _ tl Htlne Htlw) in Hb5.
  apply xorb_true_l_false in Hb5.
  rewrite (words_last _ idt Hidne Hidw) in Hb9.
  apply xorb_true_l_false in Hb9.
  assert (Hcap : forall n, n = pos s7 ->
            <["dtype"%string := (pos s7, List.length idt + pos s7)]> (caps s7)
            !! "dtype"%string = Some (n, List.length idt + n))
    by (intros n ->; apply lookup_insert_eq).
  apply in_mrun_opt in H7 as [H7| ->].
  - apply table_of_inv in H7 as (w & t7 & Hw & -> & Hshape).
    cbn [jump set_cap rest pos prev caps] in *. subst t7 t6.
    destruct Hshape as [Hshape|Hshape].
    + destruct (nil_or_spaces ws1 Hfws) as [->|Hsp].
      * simpl in Hb5. rewrite (table_of_words_head w _ Hshape) in Hb5.
        discriminate.
      * exists tl, ws1, w, id, idt, t. eexists.
        split; [exact Htl|]. split; [exact Hb3|]. split; [exact Htol|].
        split; [exact Hsp|]. split; [now right|]. split; [exact Hin|].
        split; [exact Hci|]. split; [exact Hb9|]. split; [reflexivity|].
        assert (E : List.length (tl ++ ws1 ++ w) + pos s
                    = List.length w + (List.length ws1
                                       + (List.length tl + pos s)))
          by (rewrite !List.length_app; lia).
        split; [rewrite E; reflexivity|]. apply Hcap. exact E.
    + exists tl, (ws1 ++ w), [], id, idt, t. eexists.
      split; [rewrite Htl, <- !List.app_assoc; reflexivity|].
      split; [exact Hb3|]. split; [exact Htol|].
      split; [now apply spaces_app|]. split; [now left|]. split; [exact Hin|].
      split; [exact Hci|]. split; [exact Hb9|]. split; [reflexivity|].
      assert (E : List.length (tl ++ (ws1 ++ w) ++ []) + pos s
                  = List.length w + (List.length ws1
                                     + (List.length tl + pos s)))
        by (rewrite !List.length_app; simpl; lia).
      split; [rewrite E; reflexivity|]. apply Hcap. exact E.
  - cbn [jump set_cap rest pos prev caps] in *. subst t6.
    destruct (nil_or_spaces ws1 Hfws) as [->|Hsp].
    + simpl in Hb5. rewrite (words_head idt t Hidne Hidw) in Hb5.
      discriminate.
    + exists tl, ws1, [], id, idt, t. eexists.
      split; [exact Htl|]. split; [exact Hb3|]. split; [exact Htol|].
      split; [exact Hsp|]. split; [now left|]. split; [exact Hin|].
      split; [exact Hci|]. split; [exact Hb9|]. split; [reflexivity|].
      assert (E : List.length (tl ++ ws1 ++ []) + pos s
                  = List.length ws1 + (List.length tl + pos s))
        by (rewrite !List.length_app; simpl; lia).
      split; [rewrite E; reflexivity|]. apply Hcap. exact E.
Qed.

Lemma clause_intro (s : mstate) (tl ws tof id idt t : str) :
  rest s = tl ++ ws ++ tof ++ idt ++ t ->
  is_word_opt (prev s) = false ->
  type_or_like tl -> spaces ws -> table_of tof ->
  In id obsolete_ids -> ci_eq id idt -> is_word_opt (head t) = false ->
  exists x, In x (mrun DECL_CLAUSE s).
Proof.
  intros Hr Hprev Htol Hws Htof Hin Hci Ht.
  destruct (type_or_like_words tl Htol) as (Htlne & Htlw).
  destruct (obsolete_id_words id idt Hin Hci) as (Hidne & Hidw & _).
  set (s4 := jump s tl (ws ++ tof ++ idt ++ t)).
  set (s6 := jump s4 ws (tof ++ idt ++ t)).
  set (s7 := jump s6 tof (idt ++ t)).
  set (s8' := jump s7 idt t).
  set (s8 := set_cap "dtype" (pos s7, pos s8') s8').
  exists s8. unfold DECL_CLAUSE.
  apply in_mrun_seq. exists s. split.
  { apply in_mrun_wordb. split; [reflexivity|]. unfold at_boundary.
    now rewrite Hr, (words_head tl _ Htlne Htlw), Hprev. }
  apply in_mrun_seq. exists s4. split.
  { destruct Htol as [H|H]; apply in_mrun_alt; [left|right];
      now apply lit_intro. }
  apply in_mrun_seq. exists s4. split.
  { apply in_mrun_wordb. split; [reflexivity|]. unfold at_boundary.
    cbn [s4 jump rest prev].
    now rewrite (words_last _ tl Htlne Htlw), (spaces_head ws _ Hws). }
  apply in_mrun_seq. exists s6.
  split; [apply rep_intro; [reflexivity|apply Hws|lia|discriminate]|].
  apply in_mrun_seq. exists s7. split; [now apply opt_table_of_intro|].
  apply in_mrun_seq. exists s8. split.
  { apply in_mrun_grp. exists s8'. split; [|reflexivity].
    now apply (dtype_intro s7 id). }
  apply in_mrun_wordb. split; [reflexivity|]. unfold at_boundary.
  cbn [s8 s8' set_cap jump rest prev].
  now rewrite (words_last _ idt Hidne Hidw), Ht.
Qed.

Lemma decl_keyword_unique (s a b : mstate) :
  In a (mrun DECL_KEYWORD s) -> In b (mrun DECL_KEYWORD s) -> a = b.
Proof.
  unfold DECL_KEYWORD. intros Ha Hb.
  assert (Hx : forall p q w1 w2 a b,
    (p < 128)%N -> (q < 128)%N -> tolower p <> tolower q ->
    In a (mrun (Lit (p :: w1)) s) -> In b (mrun (Lit (q :: w2)) s) -> False).
  { intros p q w1 w2 a' b' Hp Hq Hpq Ha' Hb'.
    apply (fun H => lit_first p w1 Eps s a' (or_introl H)) in Ha'
      as (c & tl & E & Hc).
    apply (fun H => lit_first q w2 Eps s b' (or_introl H)) in Hb'
      as (c' & tl' & E' & Hc').
    rewrite E in E'. inversion E'; subst.
    apply Hpq. eapply first_letters_differ; eassumption. }
  apply in_mrun_alt in Ha as [Ha|Ha];
    [|apply in_mrun_alt in Ha as [Ha|Ha];
      [|apply in_mrun_alt in Ha as [Ha|Ha]]];
    (apply in_mrun_alt in Hb as [Hb|Hb];
     [|apply in_mrun_alt in Hb as [Hb|Hb];
       [|apply in_mrun_alt in Hb as [Hb|Hb]]]);
    try (eapply lit_unique; eassumption); exfalso.
  - eapply (Hx 68%N 84%N (lit "ATA") (lit "YPES"));
      first [eassumption | reflexivity | vm_compute; discriminate].
  - eapply (Hx 68%N 70%N (lit "ATA") (lit "IELD-SYMBOLS"));
      first [eassumption | reflexivity | vm_compute; discriminate].
  - eapply (Hx 68%N 67%N (lit "ATA") (lit "ONSTANTS"));
      first [eassumption | reflexivity | vm_compute; discriminate].
  - eapply (Hx 84%N 68%N (lit "YPES") (lit "ATA"));
      first [eassumption | reflexivity | vm_compute; discriminate].
  - eapply (Hx 84%N 70%N (lit "YPES") (lit "IELD-SYMBOLS"));
      first [eassumption | reflexivity | vm_compute; discriminate].
  - eapply (Hx 84%N 67%N (lit "YPES") (lit "ONSTANTS"));
      first [eassumption | reflexivity | vm_compute; discriminate].
  - eapply (Hx 70%N 68%N (lit "IELD-SYMBOLS") (lit "ATA"));
      first [eassumption | reflexivity | vm_compute; discriminate].
  - eapply (Hx 70%N 84%N (lit "IELD-SYMBOLS") (lit "YPES"));
      first [eassumption | reflexivity | vm_compute; discriminate].
  - eapply (Hx 70%N 67%N (lit "IELD-SYMBOLS") (lit "ONSTANTS"));
      first [eassumption | reflexivity | vm_compute; discriminate].
  - eapply (Hx 67%N 68%N (lit "ONSTANTS") (lit "ATA"));
      first [eassumption | reflexivity | vm_compute; discriminate].
  - eapply (Hx 67%N 84%N (lit "ONSTANTS") (lit "YPES"));
      first [eassumption | reflexivity | vm_compute; discriminate].
  - eapply (Hx 67%N 70%N (lit "ONSTANTS") (lit "IELD-SYMBOLS"));
      first [eassumption | reflexivity | vm_compute; discriminate].
Qed.

(** The first result of the declaration pattern stops its lazy body at the
    first place where the TYPE or LIKE clause can be read. *)
Lemma decl_head_first (s0 h : mstate) (t : list mstate) :
  mrun DECL_KONV_RE s0 = h :: t ->
  exists kw body t2 x,
    rest s0 = kw ++ body ++ t2 /\ decl_keyword kw /\
    forallb not_dot_nl body = true /\
    In x (mrun DECL_CLAUSE (jump s0 (kw ++ body) t2)) /\
    pos h = pos x /\
    caps h !! "dtype"%string = caps x !! "dtype"%string /\
    forall kw' body' t',
      rest s0 = kw' ++ body' ++ t' -> decl_keyword kw' ->
      forallb not_dot_nl body' = true ->
      (exists x', In x' (mrun DECL_CLAUSE (jump s0 (kw' ++ body') t'))) ->
      List.length (kw ++ body) <= List.length (kw' ++ body').
Proof.
  rewrite decl_clause_split.
  set (BODY := Rep false 0 None not_dot_nl).
  intros Hh. rewrite mrun_seq_eq in Hh.
  apply flat_map_head in Hh as (w1 & y & w2 & t0 & HW & _ & Hh).
  assert (Hy : In y (mrun WordB s0))
    by (rewrite HW; apply in_app_iff; right; now left).
  apply in_mrun_wordb in Hy as (-> & _).
  assert (Hg : In h (mrun (Grp "full" (DECL_KEYWORD +> BODY +> DECL_CLAUSE)) s0))
    by (rewrite Hh; now left).
  change (mrun (Grp "full" (DECL_KEYWORD +> BODY +> DECL_CLAUSE)) s0)
    with (map (fun s' => set_cap "full" (pos s0, pos s') s')
              (mrun (DECL_KEYWORD +> BODY +> DECL_CLAUSE) s0)) in Hh.
  destruct (mrun (DECL_KEYWORD +> BODY +> DECL_CLAUSE) s0) as [|x tx] eqn:Hx;
    [discriminate|].
  cbn [map] in Hh. injection Hh as Hhx _. clear Hg.
  rewrite mrun_seq_eq in Hx.
  apply flat_map_head in Hx as (l1 & s1 & l2 & t1 & HL & _ & Hx).
  rewrite mrun_seq_eq in Hx.
  apply flat_map_head in Hx as (r1 & s2 & r2 & t2 & HR & Hr1 & Hx).
  assert (Hs1 : In s1 (mrun DECL_KEYWORD s0))
    by (rewrite HL; apply in_app_iff; right; now left).
  pose proof Hs1 as Hs1k.
  apply decl_keyword_inv in Hs1k as (kw & ta & Ekw & Hkw & ->).
  assert (Hs2 : In s2 (mrun BODY (jump s0 kw ta)))
    by (rewrite HR; apply in_app_iff; right; now left).
  apply rep_inv in Hs2 as (body & tb & Eb & Hfb & _ & _ & ->).
  cbn [jump rest] in Eb.
  change (mrun BODY (jump s0 kw ta))
    with (rep_states not_dot_nl (List.length ta) (jump s0 kw ta)) in HR.
  pose proof (nth_error_app_mid r1 (jump (jump s0 kw ta) body tb) r2) as Hn2.
  rewrite <- HR in Hn2. apply rep_states_nth in Hn2.
  cbn [jump pos] in Hn2.
  exists kw, body, tb, x.
  split; [now rewrite Ekw, Eb|]. split; [exact Hkw|]. split; [exact Hfb|].
  split; [rewrite <- (jump_jump s0 kw ta body tb), Hx; now left|].
  split; [now rewrite <- Hhx|].
  split; [rewrite <- Hhx; cbn [set_cap caps];
          now rewrite lookup_insert_ne by discriminate|].
  intros kw' body' t' E' Hkw' Hfb' (x' & Hx').
  rewrite List.length_app, List.length_app.
  pose proof (decl_keyword_intro s0 kw' (body' ++ t') E' Hkw') as Hs1'.
  pose proof (decl_keyword_unique _ _ _ Hs1 Hs1') as Ej.
  assert (Eta : ta = body' ++ t') by (now apply (f_equal rest) in Ej).
  assert (Elen : List.length kw = List.length kw').
  { apply (f_equal pos) in Ej. cbn [jump pos] in Ej. lia. }
  destruct (Nat.le_gt_cases (List.length body) (List.length body'))
    as [Hle|Hlt]; [lia|exfalso].
  pose proof (rep_states_complete not_dot_nl body' (List.length ta)
                (jump s0 kw ta) t' Eta Hfb') as Hnth.
  rewrite HR in Hnth.
  apply nth_error_app_in in Hnth;
    [|rewrite Eta, List.length_app; lia| lia].
  rewrite Ej, jump_jump in Hnth.
  rewrite (Hr1 _ Hnth) in Hx'. destruct Hx'.
Qed.

(** ** What a reported match reads *)



(** a reported declaration match is a reading of the text from its start,
    at the beginning of a word; it ends with the captured type name, and no
    reading from the same start has a shorter body *)
Lemma decl_hit_reading (src : str) (m : rmatch) :
  In m (finditer DECL_KONV_RE src) ->
  exists pre kw body tl ws tof id idt post,
    decl_reading src pre kw body tl ws tof id idt post /\
    List.length pre = m_start m /\ is_word_opt (last pre) = false /\
    m_end m = List.length (pre ++ kw ++ body ++ tl ++ ws ++ tof ++ idt) /\
    group src m "dtype" = idt /\
    forall kw' body' tl' ws' tof' id' idt' post',
      decl_reading src pre kw' body' tl' ws' tof' id' idt' post' ->
      List.length (kw ++ body) <= List.length (kw' ++ body').
Proof.
  intros Hm.
  apply finditer_sound in Hm as (p & pv & txt & (done & -> & -> & ->) & Hm).
  pose proof (match_here_start _ _ _ _ _ Hm) as Hst.
  unfold match_here in Hm.
  set (s0 := {| pos := List.length done; prev := last done; rest := txt;
                caps := ∅ |}) in *.
  destruct (mrun DECL_KONV_RE s0) as [|h t] eqn:Eh; [discriminate|].
  injection Hm as <-. cbn [m_start m_end] in *.
  assert (Hb0 : is_word_opt (last done) = false).
  { assert (Hin : In h (mrun DECL_KONV_RE s0)) by (rewrite Eh; now left).
    apply decl_inv in Hin
      as (? & ? & ? & ? & ? & ? & ? & ? & ? & _ & Hb0 & _). exact Hb0. }
  apply decl_head_first in Eh
    as (kw & body & t2 & x & Er & Hkw & Hfb & Hx & Hpos & Hcap & Hmin).
  apply clause_inv in Hx
    as (tl & ws & tof & id & idt & post & n & Et2 & Hprev & Htl & Hws & Htof
        & Hid & Hci & Hpost & Hn & Hpx & Hcx).
  cbn [s0 jump rest pos prev] in Er, Et2, Hprev, Hn. subst txt t2.
  destruct (decl_keyword_word_ends kw Hkw) as (Hkwe & _).
  apply (word_end_last (last done) kw body Hkwe) in Hprev.
  exists done, kw, body, tl, ws, tof, id, idt, post.
  split; [unfold decl_reading; auto 15|]. split; [reflexivity|].
  split; [exact Hb0|].
  split; [rewrite Hpos, Hpx, Hn, !List.length_app; lia|].
  split.
  { unfold group. cbn [m_groups]. rewrite Hcap, Hcx.
    replace (done ++ kw ++ body ++ tl ++ ws ++ tof ++ idt ++ post)
      with ((done ++ kw ++ body ++ tl ++ ws ++ tof) ++ idt ++ post)
      by (now rewrite <- !List.app_assoc).
    apply slice_at; [|reflexivity].
    rewrite Hn, !List.length_app. lia. }
  intros kw' body' tl' ws' tof' id' idt' post'
         (E & Hkw' & Hfb' & Hb' & Htl' & Hws' & Htof' & Hid' & Hci' & Hpost').
  apply app_inv_head in E.
  apply (Hmin kw' body' (tl' ++ ws' ++ tof' ++ idt' ++ post') E Hkw' Hfb').
  destruct (decl_keyword_word_ends kw' Hkw') as (Hkwe' & _).
  apply (clause_intro _ tl' ws' tof' id' idt' post');
    try assumption; [reflexivity|].
  cbn [s0 jump prev].
  now apply (word_end_last (last done) kw' body' Hkwe').
Qed.

(** ** Line numbers (C3) *)

Lemma unit_103_emits :
  exists f, emitted unit_103 f /\ starting_line f = Some 103%Z.
Proof.
  eexists. split.
  - eexists. split; [vm_compute; reflexivity|left; reflexivity].
  - reflexivity.
Defined.

(** C3: with declared start line [s], the match at offset [m_start m] gives
    [starting_line = s + (newlines before the offset) + 1] and
    [ending_line = starting_line + (newlines in the extracted line) + 1];
    each emitted finding comes from such a match and each match has its
    finding.  With [s = 100] and two newlines before the match the starting
    line is 103, and a one-line snippet ends one line after it starts. *)
Theorem C3_line_numbers (u : Unit) (s : Z) :
  start_line u = Some s ->
  let src := or_empty (code u) in
  let before m := Z.of_nat (count_nl (slice src 0 (m_start m))) in
  let inside m :=
    Z.of_nat (count_nl (get_line_snippet src (m_start m) (m_end m))) in
  let lines_ok m f :=
    starting_line f = Some (s + before m + 1)%Z /\
    ending_line f = Some ((s + before m + 1) + inside m + 1)%Z /\
    (s = 100%Z -> before m = 2%Z -> starting_line f = Some 103%Z) /\
    (inside m = 0%Z ->
     ending_line f = option_map (fun l => (l + 1)%Z) (starting_line f)) in
  (forall f, emitted u f -> exists m, In m (all_matches src) /\ lines_ok m f)
  /\ (forall m, In m (all_matches src) -> exists f, emitted u f /\ lines_ok m f).
Proof.
  intros Hs src before inside lines_ok.
  assert (Hok : forall t, lines_ok (the_match t) (finding_of u t)).
  { intros t. unfold lines_ok, before, inside.
    destruct t as [m|m]; simpl; unfold table_finding, type_finding; simpl;
      rewrite Hs; simpl; fold src;
      (repeat split; [f_equal; lia|f_equal; lia|intros -> ->; reflexivity|
                      intros ->; f_equal; lia]). }
  split.
  - intros f Hf. apply emitted_tagged in Hf as (t & Hin & ->).
    exists (the_match t). split; [|apply Hok].
    rewrite <- the_match_tagged. apply in_map. exact Hin.
  - intros m Hm. rewrite <- the_match_tagged in Hm.
    apply in_map_iff in Hm as (t & <- & Hin).
    exists (finding_of u t). split; [|apply Hok].
    apply emitted_tagged. exists t. auto.
Qed.

Lemma C3_line_numbers_witness :
  exists f, emitted unit_103 f /\
  exists m, In m (all_matches (or_empty (code unit_103))) /\
    starting_line f
    = Some (100 + Z.of_nat (count_nl (slice (or_empty (code unit_103)) 0
                                        (m_start m))) + 1)%Z.
Proof.
  destruct unit_103_emits as (f & Hf & _). exists f. split; [exact Hf|].
  destruct (proj1 (C3_line_numbers unit_103 100%Z eq_refl) f Hf)
    as (m & Hin & H1 & _).
  exists m. split; [exact Hin|exact H1].
Defined.

(** ** Absence encoding of the single scan (C6) *)

(** C6: the single scan returns the unit record with its identity, position
    and code fields; its [findings] is never the empty sequence, is [None]
    exactly when neither pattern matched, and otherwise holds one finding
    per match. *)
Theorem C6_single_scan_absence (u : Unit) :
  let out := scan_kondition_obsolete_single u in
  let src := or_empty (code u) in
  (pgm_name out = pgm_name u /\ inc_name out = inc_name u /\
   type out = type u /\ name out = name u /\
   start_line out = start_line u /\ end_line out = end_line u /\
   code out = code u) /\
  findings out <> Some [] /\
  (findings out = None <-> all_matches src = []) /\
  (findings out <> None <-> exists m, In m (all_matches src)) /\
  (forall fs, findings out = Some fs ->
     List.length fs = List.length (all_matches src)).
Proof.
  intros out src. unfold out, scan_kondition_obsolete_single, analyze_unit.
  simpl. split; [repeat split|].
  pose proof (or_none_spec (collect_findings u)) as (Hnone & Hne & Hs).
  assert (Hlen : List.length (collect_findings u)
                 = List.length (all_matches src)).
  { rewrite collect_findings_tagged, List.length_map, <- the_match_tagged,
      List.length_map. reflexivity. }
  assert (Hnil : collect_findings u = [] <-> all_matches src = []).
  { split; intros H; apply List.length_zero_iff_nil;
      apply List.length_zero_iff_nil in H; lia. }
  split; [exact Hne|]. split; [now rewrite Hnone|]. split.
  - rewrite Hnone, Hnil. destruct (all_matches src) as [|m l].
    + split; [congruence|intros (m & [])].
    + split; [intros _; exists m; now left|congruence].
  - intros fs Hfs. apply Hs in Hfs. now subst.
Qed.

(** ** Batch filtering (C5) *)

Lemma truthy_analyze (u : Unit) :
  truthy (findings (analyze_unit u))
  = negb (Nat.eqb (List.length (all_matches (or_empty (code u)))) 0).
Proof.
  unfold analyze_unit. simpl.
  assert (Hlen : List.length (collect_findings u)
                 = List.length (all_matches (or_empty (code u)))).
  { rewrite collect_findings_tagged, List.length_map, <- the_match_tagged,
      List.length_map. reflexivity. }
  rewrite <- Hlen. destruct (collect_findings u); reflexivity.
Qed.

Lemma batch_loop (units : list Unit) (acc : list Unit) :
  fold_left
    (fun results u =>
       let res := analyze_unit u in
       if truthy (findings res) then results ++ [res] else results)
    units acc
  = acc ++ List.filter (fun r => truthy (findings r)) (map analyze_unit units).
Proof.
  revert acc.
  induction units as [|u units IH]; intros acc; cbn [fold_left map List.filter].
  - now rewrite app_nil_r.
  - destruct (truthy (findings (analyze_unit u))); rewrite IH.
    + rewrite <- List.app_assoc. reflexivity.
    + reflexivity.
Qed.

(** C5: the batch response is the input sequence restricted to the units
    with at least one finding, in input order, each replaced by its scanned
    copy; a scanned unit without findings does not occur in it. *)
Theorem C5_batch_filter (units : list Unit) :
  let flagged u := truthy (findings (analyze_unit u)) in
  scan_kondition_obsolete_array units
  = map analyze_unit (List.filter flagged units)
  /\ (forall r, In r (scan_kondition_obsolete_array units) <->
        exists u, In u units /\ r = analyze_unit u /\
                  exists f fs, findings r = Some (f :: fs))
  /\ (forall u, In u units -> findings (analyze_unit u) = None ->
        ~ In (analyze_unit u) (scan_kondition_obsolete_array units)).
Proof.
  intros flagged.
  assert (Heq : scan_kondition_obsolete_array units
                = map analyze_unit (List.filter flagged units)).
  { unfold scan_kondition_obsolete_array. rewrite batch_loop. simpl.
    induction units as [|u units IH]; cbn [map List.filter]; [reflexivity|].
    unfold flagged at 1.
    destruct (truthy (findings (analyze_unit u))); cbn [map]; now rewrite IH. }
  assert (Hin : forall r, In r (scan_kondition_obsolete_array units) <->
        exists u, In u units /\ r = analyze_unit u /\
                  exists f fs, findings r = Some (f :: fs)).
  { intros r. rewrite Heq, in_map_iff. split.
    - intros (u & <- & Hu). apply List.filter_In in Hu as (Hu & Hfl).
      exists u. repeat split; [exact Hu|]. unfold flagged in Hfl.
      destruct (findings (analyze_unit u)) as [[|f fs]|]; try discriminate.
      now exists f, fs.
    - intros (u & Hu & -> & f & fs & Hf). exists u. split; [reflexivity|].
      apply List.filter_In. split; [exact Hu|]. unfold flagged.
      now rewrite Hf. }
  split; [exact Heq|]. split; [exact Hin|].
  intros u _ Hnone Habs.
  apply Hin in Habs as (_ & _ & _ & f & fs & Hf). congruence.
Qed.

(** ** Scanning on the store *)

Lemma analyze_unit_copy (u : Unit) :
  analyze_unit u = set_findings (model_copy u) (or_none (collect_findings u)).
Proof. reflexivity. Qed.

Lemma run_analyze_unit_spec (h : gmap nat Unit) (l : nat) (u : Unit) :
  h !! l = Some u ->
  exists out,
    Store.run_analyze_unit h l = Some (<[out := analyze_unit u]> h, out)
    /\ h !! out = None /\ out <> l.
Proof.
  intros Hl. unfold Store.run_analyze_unit, Store.new_object,
    Store.assign_findings. rewrite Hl.
  exists (fresh (dom h)).
  assert (Hfresh : h !! fresh (dom h) = None)
    by (apply not_elem_of_dom, is_fresh).
  split; [|split; [exact Hfresh|congruence]].
  rewrite alter_insert_eq. reflexivity.
Qed.

(** ** Determinism and idempotence (C9) *)

(** C9: the result of a scan is a function of the unit alone, it does not
    depend on findings already attached to it, scanning a scanned unit
    changes nothing, and two successive scans of one stored unit return
    equal records. *)
Theorem C9_deterministic_idempotent (u : Unit) :
  (forall u', u' = u -> analyze_unit u' = analyze_unit u) /\
  (forall v, analyze_unit (set_findings u v) = analyze_unit u) /\
  findings (analyze_unit (analyze_unit u)) = findings (analyze_unit u) /\
  analyze_unit (analyze_unit u) = analyze_unit u /\
  (forall (h : gmap nat Unit) (l : nat), h !! l = Some u ->
     exists h1 o1 h2 o2,
       Store.run_analyze_unit h l = Some (h1, o1) /\
       Store.run_analyze_unit h1 l = Some (h2, o2) /\
       h1 !! o1 = Some (analyze_unit u) /\
       h2 !! o2 = Some (analyze_unit u) /\
       h2 !! o1 = Some (analyze_unit u)).
Proof.
  split; [intros u' ->; reflexivity|].
  split; [reflexivity|]. split; [reflexivity|]. split; [reflexivity|].
  intros h l Hl.
  destruct (run_analyze_unit_spec h l u Hl) as (o1 & H1 & Hf1 & Hn1).
  assert (Hl1 : <[o1 := analyze_unit u]> h !! l = Some u)
    by (rewrite lookup_insert_ne; [exact Hl|exact Hn1]).
  destruct (run_analyze_unit_spec _ l u Hl1) as (o2 & H2 & Hf2 & Hn2).
  eexists _, o1, _, o2. split; [exact H1|]. split; [exact H2|].
  split; [apply lookup_insert_eq|]. split; [apply lookup_insert_eq|].
  rewrite lookup_insert_ne; [apply lookup_insert_eq|].
  intros ->. rewrite lookup_insert_eq in Hf2. discriminate.
Qed.

(** ** Frame of the scan (C10) *)

(** C10: scanning the object [l] leaves every existing object of the store
    as it was, the argument included; the result is a new object whose
    fields other than [findings] are those of the argument and whose
    [findings] is the freshly computed sequence (or [None]), whatever the
    argument carried there. *)
Theorem C10_frame (h : gmap nat Unit) (l : nat) (u : Unit) :
  h !! l = Some u ->
  exists h' out o,
    Store.run_analyze_unit h l = Some (h', out) /\
    h !! out = None /\
    (forall l', l' <> out -> h' !! l' = h !! l') /\
    h' !! l = Some u /\
    h' !! out = Some o /\ o = analyze_unit u /\
    pgm_name o = pgm_name u /\ inc_name o = inc_name u /\
    type o = type u /\ name o = name u /\
    start_line o = start_line u /\ end_line o = end_line u /\
    code o = code u /\
    findings o = or_none (collect_findings u) /\
    (forall v, findings (analyze_unit (set_findings u v)) = findings o).
Proof.
  intros Hl.
  destruct (run_analyze_unit_spec h l u Hl) as (out & Hrun & Hfresh & Hne).
  exists (<[out := analyze_unit u]> h), out, (analyze_unit u).
  split; [exact Hrun|]. split; [exact Hfresh|].
  split; [intros l' Hl'; apply lookup_insert_ne; congruence|].
  split; [rewrite lookup_insert_ne; [exact Hl|exact Hne]|].
  split; [apply lookup_insert_eq|].
  repeat split.
Qed.

Lemma C10_frame_witness :
  exists h' out o,
    Store.run_analyze_unit store_103 7 = Some (h', out) /\
    store_103 !! out = None /\
    (forall l', l' <> out -> h' !! l' = store_103 !! l') /\
    h' !! 7 = Some (set_findings unit_103 (Some [])) /\
    h' !! out = Some o /\ o = analyze_unit (set_findings unit_103 (Some [])).
Proof.
  destruct (C10_frame store_103 7 (set_findings unit_103 (Some [])) eq_refl)
    as (h' & out & o & H1 & H2 & H3 & H4 & H5 & H6 & _).
  exists h', out, o. repeat split; assumption.
Defined.

(** ** Snippets (C7) *)

Lemma all_matches_bounds (src : str) (m : rmatch) :
  In m (all_matches src) -> m_start m <= m_end m <= List.length src.
Proof.
  unfold all_matches. rewrite in_app_iff.
  intros [H|H]; eapply finditer_bounds; eassumption.
Qed.

Lemma emitted_match (u : Unit) (f : Finding) :
  emitted u f ->
  exists m, In m (all_matches (or_empty (code u))) /\
    starting_line f
    = Some (or_zero (start_line u)
            + (Z.of_nat (count_nl (slice (or_empty (code u)) 0 (m_start m)))
               + 1))%Z /\
    ending_line f
    = Some (or_zero (start_line u)
            + (Z.of_nat (count_nl (slice (or_empty (code u)) 0 (m_start m)))
               + 1)
            + (Z.of_nat (count_nl (get_line_snippet (or_empty (code u))
                                     (m_start m) (m_end m))) + 1))%Z /\
    snippet f
    = Some (escape_nl (get_line_snippet (or_empty (code u))
                         (m_start m) (m_end m))).
Proof.
  intros Hf. apply emitted_tagged in Hf as (t & Hin & ->).
  exists (the_match t). split.
  - rewrite <- the_match_tagged. apply in_map. exact Hin.
  - destruct t; repeat split.
Qed.

(** C7: every finding carries the line(s) of its match with each newline
    written as backslash-n, so the snippet has no newline character; when
    the match lies on one line the snippet is that whole line, from the
    character after the previous newline to the character before the next
    one, and contains the match. *)
Theorem C7_snippet (u : Unit) (f : Finding) :
  emitted u f ->
  let src := or_empty (code u) in
  exists m, In m (all_matches src) /\
    let line := get_line_snippet src (m_start m) (m_end m) in
    snippet f = Some (escape_nl line) /\
    has_nl (escape_nl line) = false /\
    (forall a b, line = a ++ nl :: b ->
       escape_nl line = escape_nl a ++ lit "\n" ++ escape_nl b) /\
    (has_nl (slice src (m_start m) (m_end m)) = false ->
     snippet f = Some line /\ has_nl line = false /\
     exists pre post,
       src = pre ++ line ++ post /\
       (pre = [] \/ exists pre', pre = pre' ++ [nl]) /\
       (post = [] \/ exists post', post = nl :: post') /\
       List.length pre <= m_start m /\
       m_end m <= List.length pre + List.length line).
Proof.
  intros Hf src. destruct (emitted_match u f Hf) as (m & Hin & _ & _ & Hs).
  fold src in Hin, Hs. exists m. split; [exact Hin|]. intros line.
  fold line in Hs. split; [exact Hs|]. split; [apply escape_nl_no_nl|].
  split.
  - intros a b ->. rewrite escape_nl_app, escape_nl_cons.
    replace (is_nl nl) with true by reflexivity. reflexivity.
  - intros Hone.
    destruct (get_line_snippet_spec src _ _ (all_matches_bounds _ _ Hin))
      as (pre & post & E & Hpre & Hpost & H1 & H2 & _ & _ & Hno).
    fold line in E, H2, Hno. specialize (Hno Hone).
    split; [rewrite Hs, (escape_nl_id _ Hno); reflexivity|].
    split; [exact Hno|]. exists pre, post. auto.
Qed.

Lemma C7_snippet_witness :
  exists f, emitted unit_103 f /\
  exists m, In m (all_matches (or_empty (code unit_103))) /\
    snippet f
    = Some (escape_nl (get_line_snippet (or_empty (code unit_103))
                         (m_start m) (m_end m))).
Proof.
  destruct unit_103_emits as (f & Hf & _). exists f. split; [exact Hf|].
  destruct (C7_snippet unit_103 f Hf) as (m & Hin & H1 & _).
  exists m. split; [exact Hin|exact H1].
Defined.

(** ** Range of the reported lines (C8) *)

Lemma unit_one_line_emits :
  exists f, emitted unit_one_line f /\
            starting_line f = Some 11%Z /\ ending_line f = Some 12%Z.
Proof.
  eexists. split; [eexists; split; [vm_compute; reflexivity|left; reflexivity]|].
  split; reflexivity.
Defined.

(** C8 as stated fails: a one-line unit on line 10 with a match gets the
    ending line 12, which is neither in [10 .. 10] nor the line after. *)
Lemma C8_counterexample :
  line_metadata_accurate unit_one_line 10 10 /\
  exists f, emitted unit_one_line f /\
            starting_line f = Some 11%Z /\ ending_line f = Some 12%Z /\
            ~ within_or_just_after 10 10 (ending_line f).
Proof.
  split; [repeat split|].
  destruct unit_one_line_emits as (f & Hf & H1 & H2). exists f.
  split; [exact Hf|]. split; [exact H1|]. split; [exact H2|].
  intros (z & Hz & Hr). rewrite H2 in Hz. inversion Hz. subst. lia.
Qed.

(** C8 (amended): when the code occupies the lines [s .. e], every finding
    has its starting line in [s+1 .. e+1] and its ending line in
    [s+2 .. e+2], the ending line after the starting line. *)
Theorem C8_line_range (u : Unit) (s e : Z) (f : Finding) :
  line_metadata_accurate u s e ->
  emitted u f ->
  exists sl el,
    starting_line f = Some sl /\ ending_line f = Some el /\
    (s + 1 <= sl <= e + 1)%Z /\ (s + 2 <= el <= e + 2)%Z /\ (sl < el)%Z.
Proof.
  intros (Hs & He & Hacc) Hf.
  destruct (emitted_match u f Hf) as (m & Hin & H1 & H2 & _).
  destruct (get_line_snippet_spec _ _ _ (all_matches_bounds _ _ Hin))
    as (pre & post & E & _ & _ & _ & _ & Hc1 & _ & _).
  assert (Hle : count_nl (slice (or_empty (code u)) 0 (m_start m))
                + count_nl (get_line_snippet (or_empty (code u))
                              (m_start m) (m_end m))
                <= count_nl (or_empty (code u))).
  { rewrite E at 3. rewrite !count_nl_app, Hc1. lia. }
  rewrite Hs in H1, H2. simpl in H1, H2.
  eexists _, _. split; [exact H1|]. split; [exact H2|]. lia.
Qed.

Lemma C8_line_range_witness :
  exists f sl el,
    emitted unit_one_line f /\
    starting_line f = Some sl /\ ending_line f = Some el /\
    (10 + 1 <= sl <= 10 + 1)%Z /\ (10 + 2 <= el <= 10 + 2)%Z /\ (sl < el)%Z.
Proof.
  destruct unit_one_line_emits as (f & Hf & _).
  destruct (C8_line_range unit_one_line 10 10 f
              (conj eq_refl (conj eq_refl eq_refl)) Hf)
    as (sl & el & H).
  exists f, sl, el. split; [exact Hf|exact H].
Defined.

(** ** Findings of the DML matcher (C1) *)






(** ** Findings of the declaration matcher (C2) *)

(** C2 as stated fails in three ways: a declaration that continues on the
    next line is not found at all although no full stop intervenes; in a
    chained declaration on one line only the first obsolete type is
    reported, so DZAEHK gets no finding with VFPRC_COND_COUNT; and a
    declaration whose type name is written with the Kelvin sign for the
    letter K is matched, but the finding names no replacement. *)
Lemma C2_counterexample :
  (declares not_dot (or_empty (code unit_two_lines)) 0 (lit "KONV") /\
   findings (analyze_unit unit_two_lines) = None) /\
  (declares not_dot (or_empty (code unit_chained)) 0 (lit "DZAEHK") /\
   declares not_dot_nl (or_empty (code unit_chained)) 0 (lit "DZAEHK") /\
   forall f, emitted unit_chained f ->
     message f
     <> Some (type_message (lit "DZAEHK") (lit "VFPRC_COND_COUNT"))) /\
  (declares not_dot_nl (or_empty (code unit_kelvin_type)) 0 (lit "DZAEHK") /\
   exists f,
     findings (analyze_unit unit_kelvin_type) = Some [f] /\
     has_issue "ObsoleteTypeDeclaration" f = true /\
     message f
     = Some (lit "DZAEH" ++ KELVIN_SIGN
             :: lit " type is obsolete (SAP Note 2220005), use  instead.") /\
     suggestion f
     = Some (lit "Change the declaration using  and adapt the logic accordingly.")).
Proof.
  assert (Hsp : spaces (lit " ")) by (split; [discriminate|reflexivity]).
  split; [split|split; [split; [|split]|split]].
  - exists [], (lit "DATA"),
      (lit ": lv_kbetr TYPE kbetr," ++ [nl] ++ lit "      lt_konv "),
      (lit "TYPE"), (lit " "), (lit "TABLE OF "), (lit "konv"), (lit ".").
    split; [reflexivity|]. split; [reflexivity|]. split; [reflexivity|].
    split; [now left|]. split; [reflexivity|].
    split; [exists 32%N; split; reflexivity|].
    split; [now left|]. split; [exact Hsp|].
    split; [right; exists (lit "TABLE"), (lit " "), (lit "OF"), (lit " ");
            repeat split; try reflexivity; discriminate|].
    split; [now left|]. split; reflexivity.
  - vm_compute. reflexivity.
  - exists [], (lit "DATA"), (lit ": lt_konv TYPE TABLE OF konv, ls_cnt "),
      (lit "TYPE"), (lit " "), [], (lit "dzaehk"), (lit ".").
    split; [reflexivity|]. split; [reflexivity|]. split; [reflexivity|].
    split; [now left|]. split; [reflexivity|].
    split; [exists 32%N; split; reflexivity|].
    split; [now left|]. split; [exact Hsp|]. split; [now left|].
    split; [right; now left|]. split; reflexivity.
  - exists [], (lit "DATA"), (lit ": lt_konv TYPE TABLE OF konv, ls_cnt "),
      (lit "TYPE"), (lit " "), [], (lit "dzaehk"), (lit ".").
    split; [reflexivity|]. split; [reflexivity|]. split; [reflexivity|].
    split; [now left|]. split; [reflexivity|].
    split; [exists 32%N; split; reflexivity|].
    split; [now left|]. split; [exact Hsp|]. split; [now left|].
    split; [right; now left|]. split; reflexivity.
  - intros f (fs & Hfs & Hin). vm_compute in Hfs. inversion Hfs. subst fs.
    destruct Hin as [<-|[]]. vm_compute. discriminate.
  - exists [], (lit "DATA"), (lit " x "), (lit "TYPE"), (lit " "), [],
      (lit "dzaeh" ++ [KELVIN_SIGN]), (lit ".").
    split; [reflexivity|]. split; [reflexivity|]. split; [reflexivity|].
    split; [now left|]. split; [reflexivity|].
    split; [exists 32%N; split; reflexivity|].
    split; [now left|]. split; [exact Hsp|]. split; [now left|].
    split; [right; now left|]. split; [vm_compute|]; reflexivity.
  - destruct (findings (analyze_unit unit_kelvin_type)) as [[|f [|g l]]|] eqn:E;
      try (vm_compute in E; discriminate).
    exists f. split; [reflexivity|].
    vm_compute in E. injection E as <-. repeat split.
Qed.

(** C2 (amended): every declaration opened by DATA, TYPES, FIELD-SYMBOLS or
    CONSTANTS at the beginning of a word and followed on the same line,
    with no full stop in between, by a TYPE or LIKE clause (optionally TABLE
    OF) naming KONV, DZAEHK or DZAEKO as a word of its own lies inside the
    span of a reported match, which has an ObsoleteTypeDeclaration finding.
    Every reported match starts at such a declaration and reads it up to
    the first TYPE or LIKE clause that names an obsolete type: the captured
    [dtype] group is that name, the match ends with it, and no such reading
    from the same offset has a shorter body.  The finding of the match
    names that obsolete type with PRCD_ELEMENTS, VFPRC_COND_COUNT or
    VFPRC_COND_COUNT_HEAD respectively as the replacement, unless the
    captured name holds the Kelvin sign, in which case it names the
    upper-cased captured text and an empty replacement.  Every
    ObsoleteTypeDeclaration finding is the finding of a reported match. *)
Theorem C2_type_declaration (u : Unit) :
  let src := or_empty (code u) in
  let hits := finditer DECL_KONV_RE src in
  (forall p id, declares not_dot_nl src p id ->
     exists m, In m hits /\ m_start m <= p < m_end m /\
               emitted u (type_finding u src m) /\
               has_issue "ObsoleteTypeDeclaration" (type_finding u src m)
               = true)
  /\ (forall m, In m hits ->
        exists pre kw body tl ws tof id idt post,
          decl_reading src pre kw body tl ws tof id idt post /\
          List.length pre = m_start m /\
          declares not_dot_nl src (m_start m) id /\
          m_end m
          = List.length (pre ++ kw ++ body ++ tl ++ ws ++ tof ++ idt) /\
          group src m "dtype" = idt /\
          (forall kw' body' tl' ws' tof' id' idt' post',
             decl_reading src pre kw' body' tl' ws' tof' id' idt' post' ->
             List.length (kw ++ body) <= List.length (kw' ++ body')) /\
          (~ In KELVIN_SIGN idt ->
           exists repl,
             In (id, repl) type_replacements /\
             message (type_finding u src m) = Some (type_message id repl) /\
             suggestion (type_finding u src m)
             = Some (type_suggestion repl)) /\
          (In KELVIN_SIGN idt ->
           message (type_finding u src m)
           = Some (type_message (str_upper idt) []) /\
           suggestion (type_finding u src m) = Some (type_suggestion [])))
  /\ (forall f, emitted u f -> has_issue "ObsoleteTypeDeclaration" f = true ->
        exists m, In m hits /\ f = type_finding u src m).
Proof.
  intros src hits. split; [|split].
  - intros p id (pre & kw & body & tl & ws & tof & idt & post & E & -> & H1
                 & H2 & H3 & H4 & H5 & H6 & H7 & H8 & H9 & H10).
    destruct (decl_intro
                {| pos := List.length pre; prev := last pre;
                   rest := kw ++ body ++ tl ++ ws ++ tof ++ idt ++ post;
                   caps := ∅ |}
                kw body tl ws tof id idt post eq_refl H1 H2 H3 H4 H5 H6 H7 H8
                H9 H10) as (s' & Hin).
    apply match_here_some in Hin as (m0 & Hm0).
    destruct (finditer_covers DECL_KONV_RE src decl_nonempty pre _ m0 E Hm0)
      as (m & Hm & Hspan).
    exists m. split; [exact Hm|]. split; [exact Hspan|].
    split; [now apply emitted_type|reflexivity].
  - intros m Hm.
    destruct (decl_hit_reading src m Hm)
      as (pre & kw & body & tl & ws & tof & id & idt & post & Hr & Hpre & Hb0
          & Hend & Hgrp & Hmin).
    exists pre, kw, body, tl, ws, tof, id, idt, post.
    pose proof Hr as (E & H2 & H3 & H4 & H5 & H6 & H7 & H8 & H9 & H10).
    split; [exact Hr|]. split; [exact Hpre|].
    split; [exists pre, kw, body, tl, ws, tof, idt, post; auto 15|].
    split; [exact Hend|]. split; [exact Hgrp|]. split; [exact Hmin|].
    rewrite <- Hgrp in H9 |- *.
    exact (type_finding_texts u src m id H8 H9).
  - intros f Hf Hi. apply emitted_tagged in Hf as ([m|m] & Hin & ->).
    + cbn [finding_of] in Hi.
      rewrite (proj2 (has_issue_table u _ m)) in Hi. discriminate.
    + unfold tagged_matches in Hin.
      apply in_app_iff in Hin as [Hin|Hin]; apply in_map_iff in Hin
        as (m' & Heq & Hin); [discriminate|]. inversion Heq; subst m'.
      exists m. split; [exact Hin|reflexivity].
Qed.

Lemma chained_first :
  declares not_dot_nl (or_empty (code unit_chained)) 0 (lit "KONV").
Proof.
  exists [], (lit "DATA"), (lit ": lt_konv "), (lit "TYPE"), (lit " "),
    (lit "TABLE OF "), (lit "konv"), (lit ", ls_cnt TYPE dzaehk.").
  split; [reflexivity|]. split; [reflexivity|]. split; [reflexivity|].
  split; [now left|]. split; [reflexivity|].
  split; [exists 32%N; split; reflexivity|].
  split; [now left|]. split; [split; [discriminate|reflexivity]|].
  split; [right; exists (lit "TABLE"), (lit " "), (lit "OF"), (lit " ");
          repeat split; try reflexivity; discriminate|].
  split; [now left|]. split; reflexivity.
Qed.

Lemma C2_type_declaration_witness :
  exists m, In m (finditer DECL_KONV_RE (or_empty (code unit_chained))) /\
            m_start m <= 0 < m_end m /\
            emitted unit_chained
              (type_finding unit_chained (or_empty (code unit_chained)) m).
Proof.
  destruct (proj1 (C2_type_declaration unit_chained) 0 (lit "KONV")
              chained_first) as (m & H1 & H2 & H3 & _).
  exists m. split; [exact H1|]. split; [exact H2|exact H3].
Defined.

(** ** Word boundary (C4) *)

(** C4: when every occurrence of KONV, DZAEHK or DZAEKO in the code runs on
    into a longer word, neither pattern matches anywhere and the scan
    attaches no findings. *)
Theorem C4_prefix_only (u : Unit) :
  only_as_prefix (or_empty (code u)) = true ->
  finditer SQL_KONV_RE (or_empty (code u)) = [] /\
  finditer DECL_KONV_RE (or_empty (code u)) = [] /\
  findings (analyze_unit u) = None /\
  scan_kondition_obsolete_array [u] = [].
Proof.
  intros H. set (src := or_empty (code u)) in *.
  assert (H1 : finditer SQL_KONV_RE src = []).
  { destruct (finditer SQL_KONV_RE src) as [|m l] eqn:E; [reflexivity|].
    exfalso. assert (Hm : In m (finditer SQL_KONV_RE src))
      by (rewrite E; now left).
    apply sql_hit in Hm
      as (pre & kw & gap & id & post & Es & _ & _ & _ & _ & Hc & Ht).
    apply (only_as_prefix_no_word src (pre ++ kw ++ gap) id post (lit "KONV") H);
      [rewrite Es, <- !List.app_assoc; reflexivity|now left|exact Hc|exact Ht]. }
  assert (H2 : finditer DECL_KONV_RE src = []).
  { destruct (finditer DECL_KONV_RE src) as [|m l] eqn:E; [reflexivity|].
    exfalso. assert (Hm : In m (finditer DECL_KONV_RE src))
      by (rewrite E; now left).
    apply decl_hit in Hm as (id & Hid & Hdecl & _).
    destruct Hdecl as (pre & kw & body & tl & ws & tof & idt & post & Es & _
                       & _ & _ & _ & _ & _ & _ & _ & _ & Hc & Ht).
    apply (only_as_prefix_no_word src (pre ++ kw ++ body ++ tl ++ ws ++ tof)
             idt post id H);
      [rewrite Es, <- !List.app_assoc; reflexivity|exact Hid|exact Hc
       |exact Ht]. }
  assert (H3 : findings (analyze_unit u) = None).
  { unfold analyze_unit. cbn [findings set_findings].
    rewrite collect_findings_maps. fold src. rewrite H1, H2. reflexivity. }
  split; [exact H1|]. split; [exact H2|]. split; [exact H3|].
  unfold scan_kondition_obsolete_array. cbn [fold_left]. now rewrite H3.
Qed.

Lemma C4_prefix_only_witness :
  finditer SQL_KONV_RE (or_empty (code unit_prefixes)) = [] /\
  finditer DECL_KONV_RE (or_empty (code unit_prefixes)) = [] /\
  findings (analyze_unit unit_prefixes) = None /\
  scan_kondition_obsolete_array [unit_prefixes] = [].
Proof. apply (C4_prefix_only unit_prefixes). vm_compute. reflexivity. Defined.

(** * Further properties of the scanner *)

(** ** Order of the reported matches *)

Lemma scan_from (r : regex) : forall txt skip p pv,
  Forall (fun m => p + skip <= m_start m) (scan r skip p pv txt).
Proof.
  induction txt as [|c tl IH]; intros skip p pv; rewrite scan_eq.
  - destruct skip; [|constructor].
    destruct (match_here r p pv []) as [m|] eqn:E; constructor;
      [|constructor]. rewrite (match_here_start _ _ _ _ _ E). lia.
  - assert (Htl : forall k, Forall (fun m => p + k <= m_start m)
                              (scan_tail r k p (c :: tl))).
    { intros k. cbn [scan_tail].
      eapply List.Forall_impl; [|apply (IH (Nat.pred k) (S p) (Some c))].
      intros m Hm. simpl in Hm. lia. }
    destruct skip; [|apply Htl].
    destruct (match_here r p pv (c :: tl)) as [m|] eqn:E; [|apply Htl].
    constructor; [rewrite (match_here_start _ _ _ _ _ E); lia|].
    eapply List.Forall_impl; [|apply (Htl (m_end m - p))].
    intros m' Hm'. simpl in Hm'. lia.
Qed.

Lemma scan_in_order (r : regex) : forall txt skip p pv,
  spans_in_order (scan r skip p pv txt).
Proof.
  unfold spans_in_order.
  induction txt as [|c tl IH]; intros skip p pv; rewrite scan_eq.
  - destruct skip; [|constructor].
    destruct (match_here r p pv []) as [m|]; repeat constructor.
  - destruct skip; [|apply IH].
    destruct (match_here r p pv (c :: tl)) as [m|] eqn:E; [|apply IH].
    constructor; [|apply IH].
    cbn [scan_tail].
    eapply List.Forall_impl; [|apply (scan_from r tl (Nat.pred (m_end m - p)) (S p))].
    intros m' Hm'. simpl in Hm'. lia.
Qed.

(** X1: the matches reported for either pattern are non-empty spans inside
    the text, listed from left to right, and none overlaps a later one. *)
Theorem X1_matches_in_order (src : str) :
  (Forall (fun m => m_start m < m_end m <= List.length src)
     (finditer SQL_KONV_RE src) /\
   spans_in_order (finditer SQL_KONV_RE src)) /\
  (Forall (fun m => m_start m < m_end m <= List.length src)
     (finditer DECL_KONV_RE src) /\
   spans_in_order (finditer DECL_KONV_RE src)).
Proof.
  assert (H : forall r,
    (forall p pv txt m, match_here r p pv txt = Some m -> p < m_end m) ->
    Forall (fun m => m_start m < m_end m <= List.length src) (finditer r src)
    /\ spans_in_order (finditer r src)).
  { intros r Hne. split; [|apply scan_in_order].
    apply List.Forall_forall. intros m Hm.
    pose proof (finditer_bounds _ _ _ Hm) as Hb.
    apply finditer_sound in Hm as (p & pv & txt & _ & Hm).
    pose proof (Hne _ _ _ _ Hm). rewrite (match_here_start _ _ _ _ _ Hm).
    lia. }
  split; apply H; [exact sql_nonempty|exact decl_nonempty].
Qed.

(** ** Leftmost search *)

Lemma starts_from_ge (r : regex) : forall txt p pv q,
  In q (starts_from r p pv txt) -> p <= q.
Proof.
  induction txt as [|c tl IH]; intros p pv q H; cbn [starts_from] in H;
    apply in_app_iff in H as [H|H].
  - destruct (match_here r p pv []); [destruct H as [<-|[]]; lia|destruct H].
  - destruct H.
  - destruct (match_here r p pv (c :: tl));
      [destruct H as [<-|[]]; lia|destruct H].
  - apply IH in H. lia.
Qed.

Lemma scan_leftmost (r : regex) : forall txt p pv,
  match scan r 0 p pv txt with
  | [] => starts_from r p pv txt = []
  | m :: _ => exists l, starts_from r p pv txt = m_start m :: l
  end.
Proof.
  induction txt as [|c tl IH]; intros p pv; rewrite scan_eq;
    cbn [starts_from scan_tail].
  - destruct (match_here r p pv []) as [m|] eqn:E; [|reflexivity].
    exists []. now rewrite (match_here_start _ _ _ _ _ E).
  - destruct (match_here r p pv (c :: tl)) as [m|] eqn:E.
    + eexists. rewrite (match_here_start _ _ _ _ _ E). reflexivity.
    + apply IH.
Qed.

Lemma starts_from_first (r : regex) : forall txt p pv q l,
  starts_from r p pv txt = q :: l -> forall x, In x l -> q < x.
Proof.
  induction txt as [|c tl IH]; intros p pv q l H x Hx; cbn [starts_from] in H.
  - destruct (match_here r p pv []); simpl in H; [|discriminate].
    inversion H; subst. destruct Hx.
  - destruct (match_here r p pv (c :: tl)); simpl in H.
    + inversion H; subst. apply starts_from_ge in Hx. lia.
    + eapply IH; eassumption.
Qed.

(** X2: the search is leftmost.  The first reported match starts at the
    first offset at which the pattern matches, no offset at which it matches
    lies before it, and nothing is reported exactly when the pattern
    matches nowhere in the text. *)
Theorem X2_leftmost_match (r : regex) (src : str) :
  (finditer r src = [] <-> match_starts r src = []) /\
  (forall m ms, finditer r src = m :: ms ->
     In (m_start m) (match_starts r src) /\
     forall q, In q (match_starts r src) -> m_start m <= q).
Proof.
  unfold finditer, match_starts. pose proof (scan_leftmost r src 0 None) as H.
  pose proof (scan_starts_sublist r src 0 0 None) as Hsub.
  destruct (scan r 0 0 None src) as [|m ms] eqn:E.
  - split; [split; [intros _; exact H|reflexivity]|discriminate].
  - destruct H as (l & Hl). split.
    + split; [discriminate|]. intros H0. rewrite H0 in Hl. discriminate.
    + intros m' ms' [= <- <-]. rewrite Hl. split; [now left|].
      intros q [<-|Hq]; [lia|].
      apply (starts_from_first r src 0 None _ _ Hl) in Hq. lia.
Qed.

(** ** The extracted lines *)

(** X3: for a span inside the text the snippet is the text of the span,
    extended to the left and to the right by characters other than newline
    up to the beginning and the end of the lines it touches; it therefore
    has as many newlines as the span itself. *)
Theorem X3_snippet_extends_span (text : str) (a b : nat) :
  a <= b <= List.length text ->
  exists pre x d post,
    get_line_snippet text a b = x ++ slice text a b ++ d /\
    text = pre ++ (x ++ slice text a b ++ d) ++ post /\
    List.length (pre ++ x) = a /\
    has_nl x = false /\ has_nl d = false /\
    (pre = [] \/ exists pre', pre = pre' ++ [nl]) /\
    (post = [] \/ exists post', post = nl :: post') /\
    count_nl (get_line_snippet text a b) = count_nl (slice text a b).
Proof.
  intros H. destruct (split3 text a b H) as (E & La & Lm).
  remember (firstn a text) as A eqn:EA'.
  remember (slice text a b) as M eqn:EM'.
  remember (skipn b text) as D eqn:ED'.
  destruct (snippet_parts A M D)
    as (pre & x & d & post & EA & ED & Hx & Hd & Hpre & Hpost & Hs).
  rewrite <- E, La, Lm in Hs. replace (b - a + a) with b in Hs by lia.
  exists pre, x, d, post. split; [exact Hs|].
  split; [rewrite E, EA, ED, <- !List.app_assoc; reflexivity|].
  split; [rewrite <- EA; exact La|].
  split; [exact Hx|]. split; [exact Hd|]. split; [exact Hpre|].
  split; [exact Hpost|].
  rewrite Hs, !count_nl_app, (has_nl_false_count x Hx),
    (has_nl_false_count d Hd). lia.
Qed.

Lemma X3_snippet_extends_span_witness :
  exists pre x d post,
    get_line_snippet (lit "ab" ++ [nl] ++ lit "cdef" ++ [nl] ++ lit "gh") 4 6
    = x ++ slice (lit "ab" ++ [nl] ++ lit "cdef" ++ [nl] ++ lit "gh") 4 6 ++ d
    /\ lit "ab" ++ [nl] ++ lit "cdef" ++ [nl] ++ lit "gh"
       = pre ++ (x ++ slice (lit "ab" ++ [nl] ++ lit "cdef" ++ [nl] ++ lit "gh")
                        4 6 ++ d) ++ post.
Proof.
  destruct (X3_snippet_extends_span
              (lit "ab" ++ [nl] ++ lit "cdef" ++ [nl] ++ lit "gh") 4 6
              ltac:(simpl; lia))
    as (pre & x & d & post & H1 & H2 & _).
  exists pre, x, d, post. split; [exact H1|exact H2].
Defined.

(** ** Line numbers and the matched text *)

(** X4: in every finding the ending line exceeds the starting line by one
    plus the number of newlines inside the matched text. *)
Theorem X4_line_span (u : Unit) (f : Finding) :
  emitted u f ->
  exists m sl el,
    In m (all_matches (or_empty (code u))) /\
    starting_line f = Some sl /\ ending_line f = Some el /\
    (el - sl = 1 + Z.of_nat (count_nl (matched_text (or_empty (code u)) m)))%Z.
Proof.
  intros Hf. destruct (emitted_match u f Hf) as (m & Hin & H1 & H2 & _).
  destruct (get_line_snippet_spec _ _ _ (all_matches_bounds _ _ Hin))
    as (pre & post & _ & _ & _ & _ & _ & _ & Hc & _).
  eexists m, _, _. split; [exact Hin|]. split; [exact H1|].
  split; [exact H2|]. unfold matched_text. rewrite <- Hc. lia.
Qed.

Lemma X4_line_span_witness :
  exists f m sl el,
    emitted unit_103 f /\
    In m (all_matches (or_empty (code unit_103))) /\
    starting_line f = Some sl /\ ending_line f = Some el /\
    (el - sl
     = 1 + Z.of_nat (count_nl (matched_text (or_empty (code unit_103)) m)))%Z.
Proof.
  destruct unit_103_emits as (f & Hf & _).
  destruct (X4_line_span unit_103 f Hf) as (m & sl & el & H).
  exists f, m, sl, el. split; [exact Hf|exact H].
Defined.

(** ** What every finding carries *)

(** X5: every finding repeats the identity of its unit (program, include,
    block type, block name), has the severity error, one of the two issue
    tags, and a starting line, ending line, message, suggestion and snippet
    that are all present. *)
Theorem X5_finding_fields (u : Unit) (f : Finding) :
  emitted u f ->
  prog_name f = Some (pgm_name u) /\ incl_name f = Some (inc_name u) /\
  types f = Some (type u) /\ blockname f = name u /\
  severity f = Some (lit "error") /\
  (issues_type f = Some (lit "ObsoleteTableUsage") \/
   issues_type f = Some (lit "ObsoleteTypeDeclaration")) /\
  starting_line f <> None /\ ending_line f <> None /\
  message f <> None /\ suggestion f <> None /\ snippet f <> None.
Proof.
  intros Hf. apply emitted_tagged in Hf as ([m|m] & _ & ->);
    cbn [finding_of]; unfold table_finding, type_finding;
    cbn [span make_finding prog_name incl_name types blockname severity
         issues_type starting_line ending_line message suggestion snippet];
    repeat split; try discriminate; auto.
Qed.

Lemma X5_finding_fields_witness :
  exists f, emitted unit_103 f /\
            prog_name f = Some (pgm_name unit_103) /\
            severity f = Some (lit "error").
Proof.
  destruct unit_103_emits as (f & Hf & _).
  destruct (X5_finding_fields unit_103 f Hf) as (H1 & _ & _ & _ & H5 & _).
  exists f. split; [exact Hf|]. split; [exact H1|exact H5].
Defined.

(** ** Order of the findings *)

Lemma ordered_map {A B : Type} (R : A -> A -> Prop) (R' : B -> B -> Prop)
    (g : A -> B) (l : list A) :
  (forall a b, In a l -> In b l -> R a b -> R' (g a) (g b)) ->
  ForallOrdPairs R l -> ForallOrdPairs R' (map g l).
Proof.
  intros Hg H. induction H as [|a l Ha Hl IH]; simpl; constructor.
  - apply List.Forall_forall. intros y Hy. apply in_map_iff in Hy as (b & <- & Hb).
    rewrite List.Forall_forall in Ha. apply Hg; [now left|now right|auto].
  - apply IH. intros x y Hx Hy. apply Hg; now right.
Qed.

Lemma count_nl_prefix (src : str) (a b : nat) :
  a <= b -> count_nl (slice src 0 a) <= count_nl (slice src 0 b).
Proof.
  intros H. rewrite !slice_0.
  rewrite <- (firstn_skipn a (firstn b src)), count_nl_app.
  rewrite List.firstn_firstn. replace (Nat.min a b) with a by lia. lia.
Qed.

Lemma lines_follow_spans (u : Unit) (g : Unit -> str -> rmatch -> Finding)
    (ms : list rmatch) :
  (forall m, starting_line (g u (or_empty (code u)) m)
             = Some (or_zero (start_line u)
                     + (Z.of_nat (count_nl (slice (or_empty (code u)) 0
                                              (m_start m))) + 1))%Z) ->
  Forall (fun m => m_start m <= m_end m) ms ->
  spans_in_order ms ->
  lines_in_order (map (g u (or_empty (code u))) ms).
Proof.
  intros Hg Hb Hs. unfold lines_in_order.
  eapply ordered_map; [|exact Hs].
  intros a b Ha _ Hab. cbv beta in Hab. rewrite !Hg. simpl.
  rewrite List.Forall_forall in Hb. specialize (Hb a Ha).
  pose proof (count_nl_prefix (or_empty (code u)) (m_start a) (m_start b)).
  lia.
Qed.

Lemma spans_nonneg (r : regex) (src : str) :
  Forall (fun m => m_start m <= m_end m) (finditer r src).
Proof.
  apply List.Forall_forall. intros m Hm.
  pose proof (finditer_bounds _ _ _ Hm). lia.
Qed.

(** X6: the findings of a unit are those of the DML matcher followed by
    those of the declaration matcher, each group in the order of the matches
    in the text, so that within a group the starting lines never
    decrease. *)
Theorem X6_findings_order (u : Unit) :
  let src := or_empty (code u) in
  let tables := map (table_finding u src) (finditer SQL_KONV_RE src) in
  let decls := map (type_finding u src) (finditer DECL_KONV_RE src) in
  findings_list u = tables ++ decls /\
  Forall (fun f => has_issue "ObsoleteTableUsage" f = true) tables /\
  Forall (fun f => has_issue "ObsoleteTypeDeclaration" f = true) decls /\
  lines_in_order tables /\ lines_in_order decls.
Proof.
  intros src tables decls.
  split; [rewrite findings_list_collect; apply collect_findings_maps|].
  split; [apply List.Forall_forall; intros f Hf;
          apply in_map_iff in Hf as (m & <- & _); reflexivity|].
  split; [apply List.Forall_forall; intros f Hf;
          apply in_map_iff in Hf as (m & <- & _); reflexivity|].
  split.
  - apply (lines_follow_spans u table_finding); [reflexivity|
      apply spans_nonneg|apply scan_in_order].
  - apply (lines_follow_spans u type_finding); [reflexivity|
      apply spans_nonneg|apply scan_in_order].
Qed.

(** ** The declared start line *)

Lemma finding_of_shift (u : Unit) (s d : Z) (t : rmatch + rmatch) :
  finding_of (set_start_line u (Some (s + d)%Z)) t
  = shift_lines d (finding_of (set_start_line u (Some s)) t).
Proof.
  destruct t as [m|m]; cbn [finding_of]; unfold table_finding, type_finding,
    make_finding, shift_lines;
    cbn [span set_start_line code start_line pgm_name inc_name type name
         or_zero prog_name incl_name types blockname starting_line ending_line
         issues_type severity message suggestion snippet option_map];
    f_equal; f_equal; lia.
Qed.

(** X7: the declared start line is only an offset.  Raising it by [d]
    raises the starting and ending line of every finding by [d] and changes
    nothing else, and a missing start line counts as 0. *)
Theorem X7_start_line_offset (u : Unit) (s d : Z) :
  findings_list (set_start_line u (Some (s + d)%Z))
  = map (shift_lines d) (findings_list (set_start_line u (Some s))) /\
  findings_list (set_start_line u None)
  = findings_list (set_start_line u (Some 0%Z)).
Proof.
  rewrite !findings_list_collect, !collect_findings_tagged. split.
  - cbn [set_start_line code]. rewrite List.map_map. apply map_ext.
    intros t. apply finding_of_shift.
  - reflexivity.
Qed.

(** ** Short and missing code *)

Lemma dml_start_length (kw : str) : dml_start kw -> 6 <= List.length kw.
Proof.
  intros [H|[H|[H|H]]].
  - destruct H as (a & b & c & -> & Ha & _). apply ci_eq_length in Ha.
    rewrite List.length_app, Ha. simpl. lia.
  - destruct H as (a & b & c & -> & Ha & _). apply ci_eq_length in Ha.
    rewrite List.length_app, Ha. simpl. lia.
  - apply ci_eq_length in H. rewrite H. simpl. lia.
  - destruct H as (a & b & c & -> & Ha & _). apply ci_eq_length in Ha.
    rewrite List.length_app, Ha. simpl. lia.
Qed.

Lemma decl_keyword_length (kw : str) : decl_keyword kw -> 4 <= List.length kw.
Proof.
  intros [H|[H|[H|H]]]; apply ci_eq_length in H; rewrite H; simpl; lia.
Qed.

Lemma ends_non_word_length (w : str) : ends_non_word w -> 1 <= List.length w.
Proof. intros (c & H & _). destruct w; [discriminate|simpl; lia]. Qed.

Lemma obsolete_id_length (id idt : str) :
  In id obsolete_ids -> ci_eq id idt -> 4 <= List.length idt <= 6.
Proof.
  unfold obsolete_ids. intros [<-|[<-|[<-|[]]]] H; apply ci_eq_length in H;
    rewrite H; simpl; lia.
Qed.

Lemma sql_match_length (src : str) (m : rmatch) :
  In m (finditer SQL_KONV_RE src) -> m_start m + 11 <= m_end m.
Proof.
  intros H. apply finditer_sound in H as (p & pv & txt & _ & Hm).
  rewrite (match_here_start _ _ _ _ _ Hm).
  apply match_here_state in Hm as (s' & Hin & -> & _).
  apply sql_inv in Hin
    as (kw & gap & id & t & _ & Hd & _ & Hg & Hc & _ & _ & -> & _).
  apply dml_start_length in Hd. apply ends_non_word_length in Hg.
  apply ci_eq_length in Hc. simpl in *. lia.
Qed.

Lemma decl_match_length (src : str) (m : rmatch) :
  In m (finditer DECL_KONV_RE src) -> m_start m + 14 <= m_end m.
Proof.
  intros H. apply finditer_sound in H as (p & pv & txt & _ & Hm).
  rewrite (match_here_start _ _ _ _ _ Hm).
  apply match_here_state in Hm as (s' & Hin & -> & _).
  apply decl_inv in Hin
    as (kw & body & tl & ws & tof & id & idt & t & n & _ & _ & Hk & _ & Hb
        & Htl & (Hws & _) & _ & Hid & Hci & _ & -> & -> & _).
  apply decl_keyword_length in Hk. apply ends_non_word_length in Hb.
  apply nonempty_length in Hws.
  destruct (obsolete_id_length id idt Hid Hci) as (Hi & _).
  assert (List.length tl = 4)
    by (destruct Htl as [H|H]; apply ci_eq_length in H; exact H).
  rewrite !List.length_app. simpl. lia.
Qed.

Lemma no_hits_no_findings (u : Unit) :
  finditer SQL_KONV_RE (or_empty (code u)) = [] ->
  finditer DECL_KONV_RE (or_empty (code u)) = [] ->
  findings (analyze_unit u) = None /\ scan_kondition_obsolete_array [u] = [].
Proof.
  intros H1 H2.
  assert (H3 : findings (analyze_unit u) = None).
  { unfold analyze_unit. cbn [findings set_findings].
    rewrite collect_findings_maps, H1, H2. reflexivity. }
  split; [exact H3|].
  unfold scan_kondition_obsolete_array. cbn [fold_left]. now rewrite H3.
Qed.

(** X8: a DML match is at least 11 characters long and a declaration match
    at least 14; a unit whose code is shorter than 11 characters, empty or
    missing has no findings, and the batch scan leaves it out. *)
Theorem X8_short_code (u : Unit) :
  (forall m, In m (finditer SQL_KONV_RE (or_empty (code u))) ->
             m_start m + 11 <= m_end m) /\
  (forall m, In m (finditer DECL_KONV_RE (or_empty (code u))) ->
             m_start m + 14 <= m_end m) /\
  (List.length (or_empty (code u)) < 11 ->
   findings (analyze_unit u) = None /\
   scan_kondition_obsolete_array [u] = []) /\
  (code u = None \/ code u = Some [] ->
   findings (analyze_unit u) = None /\
   scan_kondition_obsolete_array [u] = []).
Proof.
  split; [intros m; apply sql_match_length|].
  split; [intros m; apply decl_match_length|].
  assert (Hshort : List.length (or_empty (code u)) < 11 ->
            findings (analyze_unit u) = None /\
            scan_kondition_obsolete_array [u] = []).
  { intros Hlen. apply no_hits_no_findings.
    - destruct (finditer SQL_KONV_RE (or_empty (code u))) as [|m l] eqn:E;
        [reflexivity|exfalso].
      assert (Hm : In m (finditer SQL_KONV_RE (or_empty (code u))))
        by (rewrite E; now left).
      pose proof (sql_match_length _ _ Hm).
      pose proof (finditer_bounds _ _ _ Hm). lia.
    - destruct (finditer DECL_KONV_RE (or_empty (code u))) as [|m l] eqn:E;
        [reflexivity|exfalso].
      assert (Hm : In m (finditer DECL_KONV_RE (or_empty (code u))))
        by (rewrite E; now left).
      pose proof (decl_match_length _ _ Hm).
      pose proof (finditer_bounds _ _ _ Hm). lia. }
  split; [exact Hshort|].
  intros [H|H]; apply Hshort; rewrite H; simpl; lia.
Qed.

(** ** The batch scan as a list operation *)

Lemma batch_filter_map (units : list Unit) :
  scan_kondition_obsolete_array units
  = List.filter (fun r => truthy (findings r)) (map analyze_unit units).
Proof. unfold scan_kondition_obsolete_array. now rewrite batch_loop. Qed.

(** X9: the batch scan works unit by unit.  The response for a
    concatenation of batches is the concatenation of the responses, the
    response for one unit is its single scan or nothing, the response for
    the empty batch is empty, and a response is never longer than its
    batch. *)
Theorem X9_batch_unit_by_unit (us1 us2 : list Unit) :
  scan_kondition_obsolete_array (us1 ++ us2)
  = scan_kondition_obsolete_array us1 ++ scan_kondition_obsolete_array us2 /\
  (forall u, scan_kondition_obsolete_array [u]
             = if truthy (findings (scan_kondition_obsolete_single u))
               then [scan_kondition_obsolete_single u] else []) /\
  scan_kondition_obsolete_array [] = [] /\
  List.length (scan_kondition_obsolete_array us1) <= List.length us1.
Proof.
  rewrite !batch_filter_map. split; [|split; [|split]].
  - now rewrite List.map_app, List.filter_app.
  - intros u. rewrite batch_filter_map. reflexivity.
  - reflexivity.
  - rewrite <- (List.length_map analyze_unit us1). apply List.filter_length_le.
Qed.

(** X10: scanning a batch response again returns it unchanged. *)
Theorem X10_batch_idempotent (units : list Unit) :
  scan_kondition_obsolete_array (scan_kondition_obsolete_array units)
  = scan_kondition_obsolete_array units.
Proof.
  rewrite !batch_filter_map.
  induction units as [|u units IH]; [reflexivity|].
  cbn [map List.filter].
  destruct (truthy (findings (analyze_unit u))) eqn:E; [|exact IH].
  cbn [map List.filter].
  change (analyze_unit (analyze_unit u)) with (analyze_unit u).
  rewrite E, IH. reflexivity.
Qed.

(** ** The replacement lookups *)

(** X11: a replacement lookup gives the empty text for every key but the
    upper-case names KONV (both tables) and DZAEHK, DZAEKO (type table);
    where both tables have a key they agree; and in a scan the empty
    fallback is taken exactly when the captured name holds the Kelvin sign,
    which is read as the letter K but is not changed by the upper-casing:
    otherwise the upper-cased captured name is one of these keys. *)
Theorem X11_replacement_lookup (src : str) :
  (forall k, k <> lit "KONV" -> dict_get OBSOLETE_TABLE_MAP k = []) /\
  (forall k, ~ In k obsolete_ids -> dict_get OBSOLETE_TYPE_MAP k = []) /\
  (forall k, dict_get OBSOLETE_TABLE_MAP k <> [] ->
             dict_get OBSOLETE_TYPE_MAP k = dict_get OBSOLETE_TABLE_MAP k) /\
  (forall m, In m (finditer SQL_KONV_RE src) ->
     (~ In KELVIN_SIGN (group src m "table") ->
      dict_get OBSOLETE_TABLE_MAP (str_upper (group src m "table"))
      = lit "PRCD_ELEMENTS") /\
     (In KELVIN_SIGN (group src m "table") ->
      dict_get OBSOLETE_TABLE_MAP (str_upper (group src m "table")) = [])) /\
  (forall m, In m (finditer DECL_KONV_RE src) ->
     (~ In KELVIN_SIGN (group src m "dtype") ->
      In (str_upper (group src m "dtype"),
          dict_get OBSOLETE_TYPE_MAP (str_upper (group src m "dtype")))
         type_replacements) /\
     (In KELVIN_SIGN (group src m "dtype") ->
      dict_get OBSOLETE_TYPE_MAP (str_upper (group src m "dtype")) = [])).
Proof.
  split; [|split; [|split; [|split]]].
  - intros k Hk. rewrite table_map_lookup.
    destruct (decide (k = lit "KONV")); [contradiction|reflexivity].
  - intros k Hk. rewrite type_map_lookup. unfold obsolete_ids in Hk.
    simpl in Hk.
    repeat (destruct (decide _) as [->|?]; [exfalso; apply Hk; auto|]).
    reflexivity.
  - intros k. rewrite table_map_lookup, type_map_lookup.
    destruct (decide (k = lit "KONV")); [reflexivity|congruence].
  - intros m Hm. apply sql_group in Hm. split; intros Hk.
    + rewrite (obsolete_id_upper (lit "KONV") _ ltac:(now left) Hm Hk).
      reflexivity.
    + exact (proj1 (kelvin_lookup _ (str_upper_kelvin _ Hk))).
  - intros m Hm. apply decl_group in Hm as (id & Hid & Hc).
    split; intros Hk.
    + rewrite (obsolete_id_upper id _ Hid Hc Hk).
      unfold obsolete_ids in Hid. destruct Hid as [<-|[<-|[<-|[]]]];
        rewrite type_map_lookup; simpl; auto.
    + exact (proj2 (kelvin_lookup _ (str_upper_kelvin _ Hk))).
Qed.

(** ** Escaping *)

(** X12: escaping adds exactly one character per newline and changes a text
    exactly when it has a newline. *)
Theorem X12_escape_length (s : str) :
  List.length (escape_nl s) = List.length s + count_nl s /\
  (escape_nl s = s <-> has_nl s = false).
Proof.
  assert (Hlen : List.length (escape_nl s) = List.length s + count_nl s).
  { induction s as [|c s IH]; [reflexivity|].
    rewrite escape_nl_cons, List.length_app, IH. unfold count_nl.
    cbn [List.filter List.length]. destruct (is_nl c); simpl; lia. }
  split; [exact Hlen|]. split; [|apply escape_nl_id].
  intros H. rewrite H in Hlen. apply count_nl_0_has_nl. lia.
Qed.

(** ** The captured groups *)

(** X13: a DML match ends with its captured table name, four characters
    that spell KONV in some letter case, at least seven characters after the
    match begins; a declaration match ends with its captured type name,
    which spells one of the three obsolete names, and its group [full] is
    the whole match. *)
Theorem X13_captured_groups (src : str) :
  (forall m, In m (finditer SQL_KONV_RE src) ->
     m_groups m !! "table"%string = Some (m_end m - 4, m_end m) /\
     m_start m + 7 <= m_end m - 4 /\
     ci_eq (lit "KONV") (group src m "table")) /\
  (forall m, In m (finditer DECL_KONV_RE src) ->
     group src m "full" = matched_text src m /\
     exists a id,
       m_groups m !! "dtype"%string = Some (a, m_end m) /\
       m_start m + 10 <= a /\ a + 4 <= m_end m /\
       In id obsolete_ids /\ ci_eq id (group src m "dtype")).
Proof.
  split.
  - intros m H. apply finditer_sound in H
      as (p & pv & txt & (done & -> & -> & ->) & Hm).
    rewrite (match_here_start _ _ _ _ _ Hm).
    apply match_here_state in Hm as (s' & Hin & -> & Hg).
    apply sql_inv in Hin
      as (kw & gap & id & t & Hr & Hd & _ & Hgap & Hc & _ & _ & Hp & Hcap).
    simpl in Hr, Hp, Hcap. subst txt.
    pose proof (dml_start_length _ Hd). pose proof (ends_non_word_length _ Hgap).
    pose proof (ci_eq_length _ _ Hc) as Hl. simpl in Hl.
    unfold group. rewrite Hg, Hcap, Hp, Hl.
    split; [f_equal; f_equal; lia|]. split; [lia|].
    replace (done ++ kw ++ gap ++ id ++ t)
      with ((done ++ kw ++ gap) ++ id ++ t)
      by (now rewrite <- !List.app_assoc).
    rewrite (slice_at _ id t); [exact Hc| rewrite !List.length_app; lia|lia].
  - intros m H. apply finditer_sound in H
      as (p & pv & txt & (done & -> & -> & ->) & Hm).
    pose proof (match_here_start _ _ _ _ _ Hm) as Hst.
    apply match_here_state in Hm as (s' & Hin & Hend & Hg).
    pose proof (decl_full _ _ Hin) as Hfull. simpl in Hfull.
    apply decl_inv in Hin
      as (kw & body & tl & ws & tof & id & idt & t & n & Hr & _ & Hk & _ & Hb
          & Htl & (Hws & _) & _ & Hid & Hci & _ & Hn & Hp & Hcap).
    simpl in Hr, Hn. subst txt.
    split.
    + unfold group, matched_text. rewrite Hg, Hfull, Hst, Hend. reflexivity.
    + exists n, id. rewrite Hg, Hcap, Hend, Hp, Hst.
      apply decl_keyword_length in Hk. apply ends_non_word_length in Hb.
      apply nonempty_length in Hws.
      destruct (obsolete_id_length id idt Hid Hci) as (Hi & _).
      assert (List.length tl = 4)
        by (destruct Htl as [H|H]; apply ci_eq_length in H; exact H).
      rewrite !List.length_app in Hn.
      split; [reflexivity|]. split; [lia|]. split; [lia|].
      split; [exact Hid|].
      unfold group. rewrite Hg, Hcap.
      replace (done ++ kw ++ body ++ tl ++ ws ++ tof ++ idt ++ t)
        with ((done ++ kw ++ body ++ tl ++ ws ++ tof) ++ idt ++ t)
        by (now rewrite <- !List.app_assoc).
      rewrite (slice_at _ idt t); [exact Hci| rewrite !List.length_app; lia
                                   |lia].
Qed.

(** ** Letter case of the scanned text *)

Lemma letters_case (c : char) :
  ascii_lower c = c \/ In c (range_points (65, 90)%N).
Proof.
  unfold ascii_lower.
  destruct ((65 <=? c) && (c <=? 90))%N eqn:E; [right|now left].
  apply andb_true_iff in E as (E1 & E2).
  apply N.leb_le in E1. apply N.leb_le in E2. apply in_range_points. lia.
Qed.

(** a function that agrees on each letter A-Z and its lower case gives the
    same result on a character and on its lower-cased form *)
Lemma ascii_lower_same (f : char -> bool) :
  forallb (fun c => Bool.eqb (f (ascii_lower c)) (f c))
          (range_points (65, 90)%N) = true ->
  forall c, f (ascii_lower c) = f c.
Proof.
  intros H c. destruct (letters_case c) as [->|Hc]; [reflexivity|].
  rewrite forallb_forall in H. apply Bool.eqb_prop. now apply H.
Qed.

Lemma is_word_lower (c : char) : is_word (ascii_lower c) = is_word c.
Proof. revert c. apply ascii_lower_same. vm_compute. reflexivity. Qed.

Lemma is_space_lower (c : char) : is_space (ascii_lower c) = is_space c.
Proof. revert c. apply ascii_lower_same. vm_compute. reflexivity. Qed.

Lemma not_dot_nl_lower (c : char) :
  not_dot_nl (ascii_lower c) = not_dot_nl c.
Proof. revert c. apply ascii_lower_same. vm_compute. reflexivity. Qed.

Lemma is_nl_lower (c : char) : is_nl (ascii_lower c) = is_nl c.
Proof. revert c. apply ascii_lower_same. vm_compute. reflexivity. Qed.

Lemma tolower_lower (c : char) : tolower (ascii_lower c) = tolower c.
Proof.
  destruct (letters_case c) as [->|Hc]; [reflexivity|].
  assert (H : forallb (fun c => (tolower (ascii_lower c) =? tolower c)%N)
                (range_points (65, 90)%N) = true) by (vm_compute; reflexivity).
  rewrite forallb_forall in H. apply N.eqb_eq. now apply H.
Qed.

Lemma upper_lower (c : char) : upper (ascii_lower c) = upper c.
Proof.
  destruct (letters_case c) as [->|Hc]; [reflexivity|].
  assert (H : forallb (fun c => match upper (ascii_lower c), upper c with
                                | [x], [y] => (x =? y)%N
                                | _, _ => false
                                end)
                (range_points (65, 90)%N) = true) by (vm_compute; reflexivity).
  rewrite forallb_forall in H. specialize (H c Hc).
  destruct (upper (ascii_lower c)) as [|x [|]]; try discriminate.
  destruct (upper c) as [|y [|]]; try discriminate.
  apply N.eqb_eq in H. now subst.
Qed.

Lemma any_char_lower (c : char) : any_char (ascii_lower c) = any_char c.
Proof. unfold any_char. now rewrite is_space_lower. Qed.

(** a pattern character without case is not a letter A-Z or a-z *)
Lemma uncased_lower (p c : char) :
  iscased p = false -> (ascii_lower c =? p)%N = (c =? p)%N.
Proof.
  intros Hp. destruct (letters_case c) as [->|Hc]; [reflexivity|].
  assert (H : forallb (fun c => iscased c && iscased (ascii_lower c))
                (range_points (65, 90)%N) = true) by (vm_compute; reflexivity).
  rewrite forallb_forall in H. specialize (H c Hc).
  apply andb_true_iff in H as (H1 & H2).
  destruct (N.eqb_spec (ascii_lower c) p) as [E|_];
    [rewrite E in H2; congruence|].
  destruct (N.eqb_spec c p) as [E|_]; [rewrite E in H1; congruence|].
  reflexivity.
Qed.

Lemma ci_char_lower (p c : char) : ci_char p (ascii_lower c) = ci_char p c.
Proof.
  unfold ci_char. destruct (iscased p) eqn:E.
  - now rewrite tolower_lower.
  - now apply uncased_lower.
Qed.

Lemma patterns_case_blind : case_blind SQL_KONV_RE /\ case_blind DECL_KONV_RE.
Proof.
  unfold SQL_KONV_RE, DECL_KONV_RE, DML_START, DECL_KEYWORD, TABLE_OF, DTYPE.
  cbn [case_blind].
  repeat split; intros c;
    first [apply any_char_lower|apply is_space_lower|apply is_word_lower
          |apply not_dot_nl_lower].
Qed.

Lemma run_lit_lower (w : str) : forall s,
  run_lit w (lower_state s) = option_map lower_state (run_lit w s).
Proof.
  induction w as [|p w IH]; intros s; [reflexivity|].
  cbn [run_lit lower_state rest]. destruct (rest s) as [|c tl];
    [reflexivity|].
  change (lower_letters (c :: tl)) with (ascii_lower c :: lower_letters tl).
  cbv beta iota. rewrite ci_char_lower. destruct (ci_char p c); [|reflexivity].
  apply (IH (adv s c tl)).
Qed.

Lemma rep_states_lower (f : char -> bool) :
  (forall c, f (ascii_lower c) = f c) ->
  forall n s,
    rep_states f n (lower_state s) = map lower_state (rep_states f n s).
Proof.
  intros Hf. induction n as [|n IH]; intros s; [reflexivity|].
  cbn [rep_states map]. f_equal.
  cbn [lower_state rest]. destruct (rest s) as [|c tl];
    [reflexivity|].
  change (lower_letters (c :: tl)) with (ascii_lower c :: lower_letters tl).
  cbv beta iota. rewrite Hf. destruct (f c); [|reflexivity].
  apply (IH (adv s c tl)).
Qed.

Lemma at_boundary_lower (s : mstate) :
  at_boundary (lower_state s) = at_boundary s.
Proof.
  unfold at_boundary. cbn [lower_state prev rest]. f_equal.
  - destruct (prev s); [apply is_word_lower|reflexivity].
  - destruct (rest s); [reflexivity|apply is_word_lower].
Qed.

Lemma skipn_map' {A B : Type} (g : A -> B) (l : list A) : forall n,
  skipn n (map g l) = map g (skipn n l).
Proof.
  induction l as [|x l IH]; intros [|n]; simpl; auto.
Qed.

Lemma firstn_map' {A B : Type} (g : A -> B) (l : list A) : forall n,
  firstn n (map g l) = map g (firstn n l).
Proof.
  induction l as [|x l IH]; intros [|n]; simpl; auto. now rewrite IH.
Qed.

Lemma mrun_lower (r : regex) :
  case_blind r ->
  forall s, mrun r (lower_state s) = map lower_state (mrun r s).
Proof.
  induction r as [|w|r1 IH1 r2 IH2|r1 IH1 r2 IH2|g lo hi f|r IH| |f|n r IH];
    intros Hr s; cbn [mrun case_blind] in *.
  - reflexivity.
  - rewrite run_lit_lower. now destruct (run_lit w s).
  - destruct Hr as (H1 & H2). rewrite (IH1 H1).
    induction (mrun r1 s) as [|x l IHl]; [reflexivity|].
    cbn [map flat_map]. rewrite (IH2 H2), IHl, List.map_app. reflexivity.
  - destruct Hr as (H1 & H2).
    now rewrite (IH1 H1), (IH2 H2), List.map_app.
  - assert (Hb : rep_bound hi (lower_state s) = rep_bound hi s)
      by (destruct hi; [reflexivity|]; unfold rep_bound, lower_state,
          lower_letters; cbn [rest]; apply List.length_map).
    rewrite Hb, (rep_states_lower f Hr), skipn_map'.
    destruct g; [now rewrite List.map_rev|reflexivity].
  - now rewrite (IH Hr), List.map_app.
  - rewrite at_boundary_lower. now destruct (at_boundary s).
  - cbn [lower_state rest]. destruct (rest s) as [|c tl];
      [reflexivity|].
    change (lower_letters (c :: tl)) with (ascii_lower c :: lower_letters tl).
    cbv beta iota. rewrite Hr. now destruct (f c).
  - rewrite (IH Hr), !List.map_map. reflexivity.
Qed.

Lemma match_here_lower (r : regex) (p : nat) (pv : option char) (txt : str) :
  case_blind r ->
  match_here r p (option_map ascii_lower pv) (lower_letters txt) = match_here r p pv txt.
Proof.
  intros Hr. unfold match_here.
  change {| pos := p; prev := option_map ascii_lower pv; rest := lower_letters txt;
            caps := ∅ |}
    with (lower_state {| pos := p; prev := pv; rest := txt; caps := ∅ |}).
  rewrite (mrun_lower r Hr). now destruct (mrun r _).
Qed.

Lemma scan_lower (r : regex) :
  case_blind r ->
  forall txt skip p pv,
    scan r skip p (option_map ascii_lower pv) (lower_letters txt) = scan r skip p pv txt.
Proof.
  intros Hr. induction txt as [|c tl IH]; intros skip p pv;
    rewrite !scan_eq, (match_here_lower r p pv _ Hr).
  - reflexivity.
  - assert (Htl : forall k, scan_tail r k p (lower_letters (c :: tl))
                            = scan_tail r k p (c :: tl))
      by (intros k; apply (IH (Nat.pred k) (S p) (Some c))).
    destruct skip; [|apply Htl].
    destruct (match_here r p pv (c :: tl)); [|apply Htl]. now rewrite Htl.
Qed.

Lemma finditer_lower (r : regex) (src : str) :
  case_blind r -> finditer r (lower_letters src) = finditer r src.
Proof. intros Hr. apply (scan_lower r Hr src 0 0 None). Qed.

Lemma count_nl_lower (s : str) : count_nl (lower_letters s) = count_nl s.
Proof.
  unfold count_nl, lower_letters. induction s as [|c s IH]; [reflexivity|].
  cbn [map List.filter]. rewrite is_nl_lower.
  destruct (is_nl c); simpl; now rewrite IH.
Qed.

Lemma slice_lower (s : str) (a b : nat) :
  slice (lower_letters s) a b = lower_letters (slice s a b).
Proof. unfold slice, lower_letters. now rewrite skipn_map', firstn_map'. Qed.

Lemma index_nl_lower (s : str) : index_nl (lower_letters s) = index_nl s.
Proof.
  induction s as [|c s IH]; [reflexivity|].
  change (lower_letters (c :: s)) with (ascii_lower c :: lower_letters s).
  cbn [index_nl]. rewrite is_nl_lower, IH. reflexivity.
Qed.

Lemma rindex_nl_lower (s : str) : rindex_nl (lower_letters s) = rindex_nl s.
Proof.
  induction s as [|c s IH]; [reflexivity|].
  change (lower_letters (c :: s)) with (ascii_lower c :: lower_letters s).
  cbn [rindex_nl]. rewrite IH, is_nl_lower. reflexivity.
Qed.

Lemma length_str_lower (s : str) : List.length (lower_letters s) = List.length s.
Proof. apply List.length_map. Qed.

Lemma get_line_snippet_lower (t : str) (a b : nat) :
  get_line_snippet (lower_letters t) a b = lower_letters (get_line_snippet t a b).
Proof.
  unfold get_line_snippet, rfind_nl, find_nl.
  replace (firstn a (lower_letters t)) with (lower_letters (firstn a t))
    by (unfold lower_letters; now rewrite firstn_map').
  replace (skipn b (lower_letters t)) with (lower_letters (skipn b t))
    by (unfold lower_letters; now rewrite skipn_map').
  rewrite rindex_nl_lower, index_nl_lower, length_str_lower.
  apply slice_lower.
Qed.

Lemma escape_nl_lower (s : str) :
  escape_nl (lower_letters s) = lower_letters (escape_nl s).
Proof.
  induction s as [|c s IH]; [reflexivity|].
  change (lower_letters (c :: s)) with (ascii_lower c :: lower_letters s).
  rewrite !escape_nl_cons, IH, is_nl_lower. unfold lower_letters.
  rewrite List.map_app. now destruct (is_nl c).
Qed.

Lemma str_upper_lower (s : str) : str_upper (lower_letters s) = str_upper s.
Proof.
  unfold str_upper, lower_letters. induction s as [|c s IH]; [reflexivity|].
  cbn [map flat_map]. now rewrite upper_lower, IH.
Qed.

Lemma finding_of_lower (u : Unit) (src : str) (t : rmatch + rmatch) :
  finding_of (set_code u (Some (lower_letters src))) t
  = lower_snippet (finding_of (set_code u (Some src)) t).
Proof.
  destruct t as [m|m]; cbn [finding_of set_code code or_empty];
    unfold table_finding, type_finding, make_finding, lower_snippet, group;
    cbn [span set_code start_line pgm_name inc_name type name
         prog_name incl_name types blockname starting_line ending_line
         issues_type severity message suggestion snippet option_map];
    destruct (m_groups m !! _) as [[a b]|];
    rewrite ?slice_lower, ?str_upper_lower, ?count_nl_lower,
      ?get_line_snippet_lower, ?count_nl_lower, ?escape_nl_lower;
    reflexivity.
Qed.

(** X14: the scan does not depend on the case of the letters A-Z.  On the
    code with these letters turned into a-z both patterns report the same
    spans and groups, and the unit gets the same findings, with the same
    lines, tags, messages and suggestions; only the snippets have their
    letters A-Z in lower case. *)
Theorem X14_case_insensitive (u : Unit) (src : str) :
  finditer SQL_KONV_RE (lower_letters src) = finditer SQL_KONV_RE src /\
  finditer DECL_KONV_RE (lower_letters src) = finditer DECL_KONV_RE src /\
  findings_list (set_code u (Some (lower_letters src)))
  = map lower_snippet (findings_list (set_code u (Some src))).
Proof.
  destruct patterns_case_blind as (H1 & H2).
  split; [now apply finditer_lower|]. split; [now apply finditer_lower|].
  rewrite !findings_list_collect, !collect_findings_tagged.
  cbn [set_code code or_empty]. unfold tagged_matches.
  rewrite (finditer_lower _ src H1), (finditer_lower _ src H2).
  rewrite List.map_map. apply map_ext. intros t. apply finding_of_lower.
Qed.

(** ** The lazy quantifiers of the DML pattern *)

(** X15: a reported DML match is the shortest one from its starting
    offset.  Whatever keyword span, gap of at most 1000 characters and
    standalone KONV the text offers from that offset on, the reported match
    ends no later; the table name it flags is the first one that can
    complete the statement. *)
Theorem X15_shortest_dml_match (src : str) (m : rmatch) :
  In m (finditer SQL_KONV_RE src) ->
  forall pre kw gap id post,
    src = pre ++ kw ++ gap ++ id ++ post ->
    List.length pre = m_start m ->
    dml_start kw -> List.length gap <= 1000 -> ends_non_word gap ->
    ci_eq (lit "KONV") id -> is_word_opt (head post) = false ->
    m_end m <= List.length (pre ++ kw ++ gap ++ id).
Proof.
  intros Hm pre kw gap id post E Hpre Hd Hl Hg Hc Ht.
  apply finditer_sound in Hm as (p & pv & txt & (done & E' & -> & ->) & Hm).
  rewrite (match_here_start _ _ _ _ _ Hm) in Hpre.
  assert (Hsame : pre = done /\ kw ++ gap ++ id ++ post = txt).
  { apply app_same_length; [now rewrite <- E, <- E'|exact Hpre]. }
  destruct Hsame as (-> & <-).
  unfold match_here in Hm.
  destruct (mrun SQL_KONV_RE
              {| pos := List.length done; prev := last done;
                 rest := kw ++ gap ++ id ++ post; caps := ∅ |})
    as [|h t] eqn:Eh; [discriminate|].
  inversion Hm; subst m. cbn [m_end].
  destruct (sql_intro_pos
              {| pos := List.length done; prev := last done;
                 rest := kw ++ gap ++ id ++ post; caps := ∅ |}
              kw gap id post eq_refl Hd Hl Hg Hc Ht) as (x & Hx & Hpx).
  pose proof (sql_head_min _ _ _ Eh x Hx) as Hmin.
  rewrite Hpx in Hmin. cbn [pos] in Hmin. rewrite !List.length_app. lia.
Qed.

Lemma X15_shortest_dml_match_witness :
  exists m, In m (finditer SQL_KONV_RE
                    (lit "UPDATE konv SET kbetr = konv-kbetr.")) /\
            m_end m <= List.length ([] ++ lit "UPDATE"
                                       ++ lit " konv SET kbetr = "
                                       ++ lit "konv").
Proof.
  destruct (finditer SQL_KONV_RE (lit "UPDATE konv SET kbetr = konv-kbetr."))
    as [|m l] eqn:E; [vm_compute in E; discriminate|].
  assert (Hs : m_start m = 0) by (vm_compute in E; now inversion E).
  exists m. split; [now left|].
  apply (X15_shortest_dml_match
           (lit "UPDATE konv SET kbetr = konv-kbetr.") m
           ltac:(rewrite E; now left)
           [] (lit "UPDATE") (lit " konv SET kbetr = ") (lit "konv")
           (lit "-kbetr.")).
  - reflexivity.
  - now rewrite Hs.
  - right; right; left. reflexivity.
  - simpl. lia.
  - exists 32%N. split; reflexivity.
  - reflexivity.
  - reflexivity.
Defined.

(** ** The lazy body of the declaration pattern *)

(** X16: a declaration match stops at the first TYPE or LIKE clause that
    names an obsolete type.  The match splits into keyword, body, TYPE or
    LIKE, blanks, optional table-of words and the type name, the captured
    [dtype] group being that type name; and whenever the text read from the
    same offset splits in this way at all, the body of the reported match is
    no longer than the body of that split.  A later obsolete type of the same
    declaration is therefore never the one reported. *)
Theorem X16_first_obsolete_clause (src : str) (m : rmatch) :
  In m (finditer DECL_KONV_RE src) ->
  exists pre kw body tl ws tof id idt post,
    src = pre ++ kw ++ body ++ tl ++ ws ++ tof ++ idt ++ post /\
    List.length pre = m_start m /\
    decl_keyword kw /\ forallb not_dot_nl body = true /\ ends_non_word body /\
    type_or_like tl /\ spaces ws /\ table_of tof /\
    In id obsolete_ids /\ ci_eq id idt /\ is_word_opt (head post) = false /\
    group src m "dtype" = idt /\
    m_end m = List.length (pre ++ kw ++ body ++ tl ++ ws ++ tof ++ idt) /\
    forall kw' body' tl' ws' tof' id' idt' post',
      src = pre ++ kw' ++ body' ++ tl' ++ ws' ++ tof' ++ idt' ++ post' ->
      decl_keyword kw' -> forallb not_dot_nl body' = true ->
      ends_non_word body' -> type_or_like tl' -> spaces ws' ->
      table_of tof' -> In id' obsolete_ids -> ci_eq id' idt' ->
      is_word_opt (head post') = false ->
      List.length (kw ++ body) <= List.length (kw' ++ body').
Proof.
  intros Hm.
  apply finditer_sound in Hm as (p & pv & txt & (done & -> & -> & ->) & Hm).
  pose proof (match_here_start _ _ _ _ _ Hm) as Hst.
  unfold match_here in Hm.
  set (s0 := {| pos := List.length done; prev := last done; rest := txt;
                caps := ∅ |}) in *.
  destruct (mrun DECL_KONV_RE s0) as [|h t] eqn:Eh; [discriminate|].
  injection Hm as <-. cbn [m_start m_end] in *.
  apply decl_head_first in Eh
    as (kw & body & t2 & x & Er & Hkw & Hfb & Hx & Hpos & Hcap & Hmin).
  apply clause_inv in Hx
    as (tl & ws & tof & id & idt & post & n & Et2 & Hprev & Htl & Hws & Htof
        & Hid & Hci & Hpost & Hn & Hpx & Hcx).
  cbn [s0 jump rest pos prev] in Er, Et2, Hprev, Hn. subst txt t2.
  destruct (decl_keyword_word_ends kw Hkw) as (Hkwe & _).
  apply (word_end_last (last done) kw body Hkwe) in Hprev.
  exists done, kw, body, tl, ws, tof, id, idt, post.
  split; [reflexivity|]. split; [reflexivity|]. split; [exact Hkw|].
  split; [exact Hfb|]. split; [exact Hprev|]. split; [exact Htl|].
  split; [exact Hws|]. split; [exact Htof|]. split; [exact Hid|].
  split; [exact Hci|]. split; [exact Hpost|].
  split.
  { unfold group. cbn [m_groups]. rewrite Hcap, Hcx.
    replace (done ++ kw ++ body ++ tl ++ ws ++ tof ++ idt ++ post)
      with ((done ++ kw ++ body ++ tl ++ ws ++ tof) ++ idt ++ post)
      by (now rewrite <- !List.app_assoc).
    apply slice_at; [|reflexivity].
    rewrite Hn, !List.length_app. lia. }
  split; [rewrite Hpos, Hpx, Hn, !List.length_app; lia|].
  intros kw' body' tl' ws' tof' id' idt' post' E Hkw' Hfb' Hb' Htl' Hws' Htof'
         Hid' Hci' Hpost'.
  apply app_inv_head in E.
  apply (Hmin kw' body' (tl' ++ ws' ++ tof' ++ idt' ++ post') E Hkw' Hfb').
  destruct (decl_keyword_word_ends kw' Hkw') as (Hkwe' & _).
  apply (clause_intro _ tl' ws' tof' id' idt' post');
    try assumption; [reflexivity|].
  cbn [s0 jump prev].
  now apply (word_end_last (last done) kw' body' Hkwe').
Qed.

Lemma X16_first_obsolete_clause_witness :
  exists m,
    In m (finditer DECL_KONV_RE (lit "DATA a TYPE konv, b TYPE dzaehk.")) /\
    exists pre kw body tl ws tof id idt post,
      lit "DATA a TYPE konv, b TYPE dzaehk."
      = pre ++ kw ++ body ++ tl ++ ws ++ tof ++ idt ++ post /\
      List.length pre = m_start m /\
      decl_keyword kw /\ forallb not_dot_nl body = true /\
      ends_non_word body /\
      type_or_like tl /\ spaces ws /\ table_of tof /\
      In id obsolete_ids /\ ci_eq id idt /\ is_word_opt (head post) = false /\
      group (lit "DATA a TYPE konv, b TYPE dzaehk.") m "dtype" = idt /\
      m_end m = List.length (pre ++ kw ++ body ++ tl ++ ws ++ tof ++ idt) /\
      forall kw' body' tl' ws' tof' id' idt' post',
        lit "DATA a TYPE konv, b TYPE dzaehk."
        = pre ++ kw' ++ body' ++ tl' ++ ws' ++ tof' ++ idt' ++ post' ->
        decl_keyword kw' -> forallb not_dot_nl body' = true ->
        ends_non_word body' -> type_or_like tl' -> spaces ws' ->
        table_of tof' -> In id' obsolete_ids -> ci_eq id' idt' ->
        is_word_opt (head post') = false ->
        List.length (kw ++ body) <= List.length (kw' ++ body').
Proof.
  destruct (finditer DECL_KONV_RE (lit "DATA a TYPE konv, b TYPE dzaehk."))
    as [|m l] eqn:E; [vm_compute in E; discriminate|].
  exists m. split; [now left|].
  apply (X16_first_obsolete_clause (lit "DATA a TYPE konv, b TYPE dzaehk.") m).
  rewrite E. now left.
Defined.
